(** * Interview Session Coordinator: a shallow embedding of the browser client

    The development follows the JavaScript modules of the repository:
    [ui.js] (module [Ui]), [speech.js] (module [Speech]), [audio.js]
    (module [Audio]) and [interview.js] (module [Interview]).  Module-level
    [let] variables become record fields, every exported function and
    every event handler becomes a function on these records, and every
    [await] becomes an explicit suspension recorded in the state and
    resumed by a later event.  Browser capabilities whose result the code
    cannot compute itself ([JSON.parse], [atob], [getUserMedia], the
    [FileReader] behind [blobToBase64], whether [recognition.start()]
    throws) appear as arguments of the events that deliver them.
    Strings are held in UTF-8, so that [trim] strips the white space of
    ECMAScript and not only its ASCII part. *)

From stdpp Require Import base list strings.
From Stdlib Require Import Lia.

Local Open Scope string_scope.

(** ** JavaScript string helpers *)

Module Js.

(** A JavaScript string is represented by the UTF-8 encoding of its
    code points, one [ascii] per byte; the literals of this file are
    stored that way.  Comparison, concatenation, [startsWith] and
    [includes] with an ASCII argument agree on both representations. *)
Definition utf8 (bytes : list nat) : list Ascii.ascii := map Ascii.ascii_of_nat bytes.

(** The code points [String.prototype.trim] strips, WhiteSpace and
    LineTerminator of ECMAScript, each in its UTF-8 encoding:
    U+0009 to U+000D, U+0020, U+00A0, U+1680, U+2000 to U+200A,
    U+2028, U+2029, U+202F, U+205F, U+3000 and U+FEFF. *)
Definition whiteSpace : list (list Ascii.ascii) :=
  Eval vm_compute in
    map utf8
      ([[9]; [10]; [11]; [12]; [13]; [32]; [194; 160]; [225; 154; 128]] ++
       map (fun n => [226; 128; 128 + n]) (seq 0 11) ++
       [[226; 128; 168]; [226; 128; 169]; [226; 128; 175]; [226; 129; 159];
        [227; 128; 128]; [239; 187; 191]]).

(** [l] without the prefix [p], when it starts with it. *)
Fixpoint stripPrefix (p l : list Ascii.ascii) : option (list Ascii.ascii) :=
  match p, l with
  | [], _ => Some l
  | a :: p', b :: l' => if Ascii.eqb a b then stripPrefix p' l' else None
  | _ :: _, [] => None
  end.

(** [l] without its first code point, when that is one of [points]. *)
Fixpoint stripOne (points : list (list Ascii.ascii)) (l : list Ascii.ascii)
    : option (list Ascii.ascii) :=
  match points with
  | [] => None
  | p :: ps =>
      match stripPrefix p l with
      | Some r => Some r
      | None => stripOne ps l
      end
  end.

(** [l] without its longest prefix of [points]; every step removes at
    least one byte, so [length l] steps are enough. *)
Fixpoint stripAll (steps : nat) (points : list (list Ascii.ascii))
    (l : list Ascii.ascii) : list Ascii.ascii :=
  match steps with
  | O => l
  | S n =>
      match stripOne points l with
      | Some r => stripAll n points r
      | None => l
      end
  end.

Definition trimStart (s : string) : string :=
  let l := String.list_ascii_of_string s in
  String.string_of_list_ascii (stripAll (length l) whiteSpace l).

(** The same from the end: in well-formed UTF-8 a suffix that is the
    encoding of a code point is that code point. *)
Definition trimEnd (s : string) : string :=
  let l := rev (String.list_ascii_of_string s) in
  String.string_of_list_ascii
    (rev (stripAll (length l) (map (@rev Ascii.ascii) whiteSpace) l)).

Definition trim (s : string) : string := trimEnd (trimStart s).

(** [whitespaceOnly s]: every code point of [s] is white space, so that
    stripping from the start leaves nothing. *)
Definition whitespaceOnly (s : string) : bool :=
  String.eqb (trimStart s) EmptyString.

(** The bytes that make the HTML parser do anything but append the
    character to the current text node when a string is assigned to
    [innerHTML] between [<p>] and [</p>]: NUL (dropped), CR (turned
    into LF), [&] (character references) and [<] (tags). *)
Definition markup : list Ascii.ascii := Eval vm_compute in utf8 [0; 13; 38; 60].

(** [plain s]: [s] holds none of them, so the text content of an element
    whose [innerHTML] is [<p>s</p>] is [s] itself. *)
Definition plain (s : string) : bool :=
  forallb (fun c => negb (existsb (Ascii.eqb c) markup)) (String.list_ascii_of_string s).

Fixpoint startsWith (p s : string) : bool :=
  match p, s with
  | EmptyString, _ => true
  | String a p', String b s' => Ascii.eqb a b && startsWith p' s'
  | String _ _, EmptyString => false
  end.

(** [includes needle hay] is [hay.includes(needle)]. *)
Fixpoint includes (needle hay : string) : bool :=
  startsWith needle hay ||
  match hay with
  | EmptyString => false
  | String _ r => includes needle r
  end.

(** [substring2 s] is [s.substring(2)]. *)
Definition substring2 (s : string) : string :=
  match s with
  | String _ (String _ r) => r
  | _ => EmptyString
  end.

(** Truthiness of a string-valued property that may be absent:
    [undefined] and the empty string are falsy. *)
Definition truthy (v : option string) : bool :=
  match v with
  | Some s => negb (String.eqb s EmptyString)
  | None => false
  end.

(** [v || d] for a string-valued property. *)
Definition orElse (v : option string) (d : string) : string :=
  match v with
  | Some s => if String.eqb s EmptyString then d else s
  | None => d
  end.

End Js.

(** [extends a b]: [b] starts with the whole of [a], unchanged. *)
Definition extends (a b : string) : Prop := exists suffix, b = a +:+ suffix.

(** The sentinel placeholder shown while no transcript text exists. *)
Definition LISTENING : string := "[ Listening... ]".

(** An inbound wire message after [JSON.parse]: each property may be
    absent.  The wire format carries strings in [role], [content] and
    [audio] and a boolean in [interviewComplete]. *)
Record Message := {
  role : option string;
  content : option string;
  audio : option string;
  interviewComplete : bool
}.

(** ** ui.js *)

Module Ui.

(** CSS class of a chat entry: [message assistant], [message user],
    [message system]. *)
Inductive Cls := ClsAssistant | ClsUser | ClsSystem.

(** A chat entry.  [div_text] is the string its paragraph was given:
    through [innerHTML] by the functions that create an entry, through
    [textContent] by [displayUserTranscription].  A string assigned
    through [textContent], and one without markup characters
    ([Js.plain]) assigned through [innerHTML], is the text the page
    shows and the text its tests read.  What the HTML parser makes of
    a string with markup is not followed here: a property that relates
    the string given to a new entry to what the page shows or tests
    afterwards is stated for plain strings. *)
Record Div := {
  div_id : nat;
  div_class : Cls;
  div_text : string;
  div_speaking : bool      (* carries the class [speaking-animation] *)
}.

(** The page as ui.js paints it, together with the console. *)
Record State := {
  chat : list Div;                          (* children of chatContainer *)
  nextDiv : nat;                            (* identity of the next created div *)
  currentAssistantMessageDiv : option nat;
  loadingVisible : bool;                    (* loadingMessage.style.display *)
  errors : list string;                     (* texts passed to showError, oldest first *)
  console : list string                     (* console.error messages, oldest first *)
}.

Definition initial : State :=
  {| chat := []; nextDiv := 0; currentAssistantMessageDiv := None;
     loadingVisible := false; errors := []; console := [] |}.

Definition set_chat (c : list Div) (u : State) : State :=
  {| chat := c; nextDiv := nextDiv u;
     currentAssistantMessageDiv := currentAssistantMessageDiv u;
     loadingVisible := loadingVisible u; errors := errors u;
     console := console u |}.

Definition set_current (d : option nat) (u : State) : State :=
  {| chat := chat u; nextDiv := nextDiv u;
     currentAssistantMessageDiv := d;
     loadingVisible := loadingVisible u; errors := errors u;
     console := console u |}.

Definition set_loading (b : bool) (u : State) : State :=
  {| chat := chat u; nextDiv := nextDiv u;
     currentAssistantMessageDiv := currentAssistantMessageDiv u;
     loadingVisible := b; errors := errors u; console := console u |}.

Definition consoleError (m : string) (u : State) : State :=
  {| chat := chat u; nextDiv := nextDiv u;
     currentAssistantMessageDiv := currentAssistantMessageDiv u;
     loadingVisible := loadingVisible u; errors := errors u;
     console := console u ++ [m] |}.

Definition showError (m : string) (u : State) : State :=
  {| chat := chat u; nextDiv := nextDiv u;
     currentAssistantMessageDiv := currentAssistantMessageDiv u;
     loadingVisible := loadingVisible u; errors := errors u ++ [m];
     console := console u |}.

Definition showLoading (u : State) : State := set_loading true u.
Definition hideLoading (u : State) : State := set_loading false u.

(** [messageDiv.innerHTML = `<p>${t}</p>`] and
    [chatContainer.appendChild(messageDiv)] for a freshly created div. *)
Definition appendDiv (c : Cls) (t : string) (u : State) : State :=
  {| chat := chat u ++ [{| div_id := nextDiv u; div_class := c;
                           div_text := t; div_speaking := false |}];
     nextDiv := S (nextDiv u);
     currentAssistantMessageDiv := currentAssistantMessageDiv u;
     loadingVisible := loadingVisible u; errors := errors u;
     console := console u |}.

Definition setSpeaking (i : nat) (b : bool) (d : Div) : Div :=
  if Nat.eqb (div_id d) i
  then {| div_id := div_id d; div_class := div_class d;
          div_text := div_text d; div_speaking := b |}
  else d.

Definition startSpeakingAnimation (u : State) : State :=
  match currentAssistantMessageDiv u with
  | Some i => set_chat (map (setSpeaking i true) (chat u)) u
  | None => u
  end.

Definition stopSpeakingAnimation (u : State) : State :=
  match currentAssistantMessageDiv u with
  | Some i => set_current None (set_chat (map (setSpeaking i false) (chat u)) u)
  | None => u
  end.

Definition displayAssistantMessage (c : option string) (u : State) : State :=
  let (c, u) :=
    if Js.truthy c then (Js.orElse c "", u)
    else ("No message content",
          consoleError "Empty message content in displayAssistantMessage:" u) in
  let u := hideLoading u in
  let i := nextDiv u in
  let u := appendDiv ClsAssistant (Js.trim c) u in
  startSpeakingAnimation (set_current (Some i) u).

Definition displayUserMessage (c : string) (u : State) : State :=
  appendDiv ClsUser c u.

(** [msg.textContent.includes('[ Listening... ]')] for an entry of
    class [message user]. *)
Definition isPlaceholder (d : Div) : bool :=
  match div_class d with
  | ClsUser => Js.includes LISTENING (div_text d)
  | _ => false
  end.

(** The loop removing every user message that shows the sentinel. *)
Definition removePlaceholders (u : State) : State :=
  set_chat (filter (fun d => isPlaceholder d = false) (chat u)) u.

Definition displayUserPlaceholder (placeholder : string) (u : State) : State :=
  displayUserMessage placeholder (removePlaceholders u).

(** Rewrites the text of the last entry satisfying [isPlaceholder]:
    the backwards loop of [displayUserTranscription]. *)
Fixpoint updateLastPlaceholder (t : string) (l : list Div) : option (list Div) :=
  match l with
  | [] => None
  | d :: r =>
      match updateLastPlaceholder t r with
      | Some r' => Some (d :: r')
      | None =>
          if isPlaceholder d
          then Some ({| div_id := div_id d; div_class := div_class d;
                        div_text := t; div_speaking := div_speaking d |} :: r)
          else None
      end
  end.

Definition displayUserTranscription (t : string) (u : State) : State :=
  match updateLastPlaceholder t (chat u) with
  | Some c => set_chat c u
  | None => u
  end.

Definition displaySystemMessage (c : string) (u : State) : State :=
  appendDiv ClsSystem c (hideLoading u).

(** [displayMessage(message)] for a non-null [message]; only the [role]
    and [content] properties are read. *)
Definition displayMessage (r c : option string) (u : State) : State :=
  let (r, u) :=
    if Js.truthy r then (Js.orElse r "system", u)
    else ("system", consoleError "Message missing role:" u) in
  let (c, u) :=
    if Js.truthy c then (c, u)
    else (Some "Empty message", consoleError "Message missing content:" u) in
  if String.eqb r "assistant" then displayAssistantMessage c u
  else if String.eqb r "user" then displayUserMessage (Js.orElse c "") u
  else displaySystemMessage (Js.orElse c "") u.

End Ui.

(** ** speech.js *)

Module Speech.

Definition MAX_RESTART_ATTEMPTS : nat := 3.

Record State := {
  speechApi : bool;                 (* window.SpeechRecognition is available *)
  recognition : bool;               (* a recognizer instance exists *)
  interimTranscript : string;
  finalTranscript : string;
  listeningIndicator : option bool; (* the element, once [setupSpeechRecognition]
                                       has assigned it, and whether its opacity is 1 *)
  isRecognizing : bool;
  recognitionTimeout : bool;        (* the 60 s ceiling timer is pending *)
  recognitionRestartCount : nat
}.

(** The indicator is shown: [listeningIndicator.style.opacity] is 1. *)
Definition listening (s : State) : bool :=
  match listeningIndicator s with
  | Some shown => shown
  | None => false
  end.

(** [if (listeningIndicator) listeningIndicator.style.opacity = ...]. *)
Definition setOpacity (shown : bool) (s : State) : option bool :=
  match listeningIndicator s with
  | Some _ => Some shown
  | None => None
  end.

Definition initial (api : bool) : State :=
  {| speechApi := api; recognition := false;
     interimTranscript := ""; finalTranscript := "";
     listeningIndicator := None; isRecognizing := false;
     recognitionTimeout := false; recognitionRestartCount := 0 |}.

(** [handleRecognitionStart]: the [onstart] callback. *)
Definition handleRecognitionStart (s : State) : State :=
  {| speechApi := speechApi s; recognition := recognition s;
     interimTranscript := ""; finalTranscript := "";
     listeningIndicator := setOpacity true s; isRecognizing := true;
     recognitionTimeout := true; recognitionRestartCount := 0 |}.

(** One recognizer result: [isFinal] and the transcript of its first
    alternative. *)
Definition Result : Type := bool * string.

(** The body of the [for] loop of [handleRecognitionResult], folded over
    [event.results] from [event.resultIndex] on. *)
Fixpoint accumulate (rs : list Result) (final interim : string) : string * string :=
  match rs with
  | [] => (final, interim)
  | (true, t) :: rs' => accumulate rs' (final +:+ t) interim
  | (false, t) :: rs' => accumulate rs' final (interim +:+ t)
  end.

Definition handleRecognitionResult (resultIndex : nat) (results : list Result)
    (s : State) (u : Ui.State) : State * Ui.State :=
  let (final, interim) :=
    accumulate (drop resultIndex results) (finalTranscript s) "" in
  let fullTranscript := final +:+ interim in
  ({| speechApi := speechApi s; recognition := recognition s;
      interimTranscript := interim; finalTranscript := final;
      listeningIndicator := listeningIndicator s; isRecognizing := isRecognizing s;
      recognitionTimeout := recognitionTimeout s;
      recognitionRestartCount := recognitionRestartCount s |},
   Ui.displayUserTranscription (Js.orElse (Some fullTranscript) LISTENING) u).

(** The part shared by every exit that deactivates the accumulator:
    [isRecognizing = false], indicator off, ceiling timer cleared. *)
Definition deactivate (s : State) : State :=
  {| speechApi := speechApi s; recognition := recognition s;
     interimTranscript := interimTranscript s;
     finalTranscript := finalTranscript s;
     listeningIndicator := setOpacity false s; isRecognizing := false;
     recognitionTimeout := false;
     recognitionRestartCount := recognitionRestartCount s |}.

Definition handleRecognitionError (code : string) (s : State) (u : Ui.State)
    : State * Ui.State :=
  let u := Ui.consoleError "Speech recognition error:" u in
  let u :=
    if String.eqb code "no-speech" then u
    else if String.eqb code "aborted" then u
    else if String.eqb code "network" then
      Ui.showError "Network error occurred during speech recognition. Please check your connection." u
    else if String.eqb code "not-allowed" || String.eqb code "service-not-allowed" then
      Ui.showError "Microphone access denied. Please ensure you've given permission to use the microphone." u
    else
      Ui.showError ("Speech recognition error: " +:+ code +:+ ". Try using text input instead.") u in
  (deactivate s, u).

Definition bumpRestartCount (s : State) : State :=
  {| speechApi := speechApi s; recognition := recognition s;
     interimTranscript := interimTranscript s;
     finalTranscript := finalTranscript s;
     listeningIndicator := listeningIndicator s; isRecognizing := isRecognizing s;
     recognitionTimeout := recognitionTimeout s;
     recognitionRestartCount := S (recognitionRestartCount s) |}.

(** [restarts s]: the guard of the restart branch of
    [handleRecognitionEnd]. *)
Definition restarts (s : State) : bool :=
  isRecognizing s && Nat.ltb (recognitionRestartCount s) MAX_RESTART_ATTEMPTS.

(** [handleRecognitionEnd]: the [onend] callback.  [startThrows] tells
    whether the [recognition.start()] of the restart attempt throws. *)
Definition handleRecognitionEnd (startThrows : bool) (s : State) (u : Ui.State)
    : State * Ui.State :=
  if restarts s then
    let s := bumpRestartCount s in
    if startThrows
    then (deactivate s, Ui.consoleError "Failed to restart recognition:" u)
    else (s, u)
  else (deactivate s, u).

(** [stopRecognition]; an exception of [recognition.stop()] is caught
    and leaves the same state ([stopThrows]). *)
Definition stopRecognition (stopThrows : bool) (s : State) (u : Ui.State)
    : State * Ui.State :=
  (deactivate s,
   if recognition s && stopThrows
   then Ui.consoleError "Error stopping speech recognition:" u else u).

(** [startRecognition]: returns [false] when the browser has no
    recognizer, otherwise installs a fresh instance and starts it. *)
Definition startRecognition (s : State) (u : Ui.State) : bool * State * Ui.State :=
  if speechApi s then
    (true,
     {| speechApi := speechApi s; recognition := true;
        interimTranscript := ""; finalTranscript := "";
        listeningIndicator := listeningIndicator s; isRecognizing := false;
        recognitionTimeout := recognitionTimeout s;
        recognitionRestartCount := 0 |}, u)
  else
    (false, s,
     Ui.showError "Your browser does not support Speech Recognition. Please use Chrome or try the text input option." u).

Definition getTranscription (s : State) : string :=
  finalTranscript s +:+ interimTranscript s.

Definition resetTranscription (s : State) : State :=
  {| speechApi := speechApi s; recognition := recognition s;
     interimTranscript := ""; finalTranscript := "";
     listeningIndicator := listeningIndicator s; isRecognizing := isRecognizing s;
     recognitionTimeout := recognitionTimeout s;
     recognitionRestartCount := recognitionRestartCount s |}.

(** [setupSpeechRecognition()], which app.js calls once the first
    interview has started: the indicator element is assigned, then
    [initSpeechRecognition] either reports a browser without recognizer
    or creates an instance with the four callbacks installed and does
    not start it.  [new SpeechRecognition()] raises no exception. *)
Definition setupSpeechRecognition (s : State) (u : Ui.State) : bool * State * Ui.State :=
  let indicator :=
    match listeningIndicator s with
    | Some shown => Some shown
    | None => Some false
    end in
  if speechApi s then
    (true,
     {| speechApi := speechApi s; recognition := true;
        interimTranscript := interimTranscript s;
        finalTranscript := finalTranscript s;
        listeningIndicator := indicator; isRecognizing := isRecognizing s;
        recognitionTimeout := recognitionTimeout s;
        recognitionRestartCount := recognitionRestartCount s |}, u)
  else
    (false,
     {| speechApi := speechApi s; recognition := recognition s;
        interimTranscript := interimTranscript s;
        finalTranscript := finalTranscript s;
        listeningIndicator := indicator; isRecognizing := isRecognizing s;
        recognitionTimeout := recognitionTimeout s;
        recognitionRestartCount := recognitionRestartCount s |},
     Ui.showError "Your browser does not support Speech Recognition. Please use Chrome or try the text input option." u).

(** The callback armed by [handleRecognitionStart] with [setTimeout]. *)
Definition ceilingTimerFired (s : State) (u : Ui.State) : State * Ui.State :=
  if recognitionTimeout s then
    if isRecognizing s then stopRecognition false s u
    else ({| speechApi := speechApi s; recognition := recognition s;
             interimTranscript := interimTranscript s;
             finalTranscript := finalTranscript s;
             listeningIndicator := listeningIndicator s; isRecognizing := isRecognizing s;
             recognitionTimeout := false;
             recognitionRestartCount := recognitionRestartCount s |}, u)
  else (s, u).

(** Whatever can happen to the accumulator: the four recognizer
    callbacks, its ceiling timer, and the calls of its exported
    functions. *)
Inductive Event :=
| RecognitionStarted
| RecognitionResult (resultIndex : nat) (results : list Result)
| RecognitionError (code : string)
| RecognitionEnded (startThrows : bool)
| CeilingTimer
| CallStartRecognition
| CallStopRecognition (stopThrows : bool)
| CallResetTranscription
| CallSetupSpeechRecognition.

Definition step (e : Event) (su : State * Ui.State) : State * Ui.State :=
  let (s, u) := su in
  match e with
  | RecognitionStarted => (handleRecognitionStart s, u)
  | RecognitionResult i rs => handleRecognitionResult i rs s u
  | RecognitionError c => handleRecognitionError c s u
  | RecognitionEnded t => handleRecognitionEnd t s u
  | CeilingTimer => ceilingTimerFired s u
  | CallStartRecognition => let '(_, s, u) := startRecognition s u in (s, u)
  | CallStopRecognition t => stopRecognition t s u
  | CallResetTranscription => (resetTranscription s, u)
  | CallSetupSpeechRecognition =>
      let '(_, s, u) := setupSpeechRecognition s u in (s, u)
  end.

Definition run (es : list Event) (su : State * Ui.State) : State * Ui.State :=
  fold_left (fun su e => step e su) es su.

(** The events that come from the recognizer and from the ceiling
    timer, as opposed to calls made by the rest of the page. *)
Definition isCallback (e : Event) : bool :=
  match e with
  | CallStartRecognition | CallStopRecognition _ | CallResetTranscription
  | CallSetupSpeechRecognition => false
  | _ => true
  end.

(** A restart attempt: [RecognitionEnded] arriving in a state where
    [handleRecognitionEnd] takes its restart branch. *)
Definition isRestartAttempt (e : Event) (s : State) : bool :=
  match e with
  | RecognitionEnded _ => restarts s
  | _ => false
  end.

(** [noRestart es su]: running [es] from [su] makes no restart attempt. *)
Fixpoint noRestart (es : list Event) (su : State * Ui.State) : bool :=
  match es with
  | [] => true
  | e :: es' => negb (isRestartAttempt e (fst su)) && noRestart es' (step e su)
  end.

(** The cap: [RecognitionEnded] in an active state whose counter has
    reached the maximum. *)
Definition capExceeded (s : State) : Prop :=
  isRecognizing s = true /\ MAX_RESTART_ATTEMPTS <= recognitionRestartCount s.

End Speech.

(** ** audio.js *)

Module Audio.

(** *** Capture Buffer *)

(** Life of one [MediaRecorder] and of the microphone stream it owns:
    [Recording] after [start()]; [Stopping] once [stop()] was called
    (its [state] is already ['inactive'], the stop event is still to
    come and the tracks are live); [Released] after the [onstop] handler
    has stopped the tracks. *)
Inductive Recorder := Recording | Stopping | Released.

Global Instance Recorder_eq_dec : EqDecision Recorder.
Proof. solve_decision. Defined.

(** A recorder holds the hardware until its tracks are stopped. *)
Definition holdsHardware (r : Recorder) : bool :=
  match r with
  | Released => false
  | _ => true
  end.

Definition Chunk : Type := string.

Record Capture := {
  recorders : list Recorder;     (* every MediaRecorder created, in creation order *)
  mediaRecorder : option nat;    (* the one the variable refers to *)
  audioChunks : list Chunk;
  recordingIndicator : bool;
  awaitingStop : list nat;       (* startRecording calls suspended in [await stopRecording()] *)
  awaitingMic : nat              (* startRecording calls suspended in [await getUserMedia] *)
}.

Definition initialCapture : Capture :=
  {| recorders := []; mediaRecorder := None; audioChunks := [];
     recordingIndicator := false; awaitingStop := []; awaitingMic := 0 |}.

(** [stopRecording()]: the synchronous body of the promise executor.
    The second component is the recorder whose stop event resolves the
    promise, or [None] when the promise is resolved at once. *)
Definition stopRecording (c : Capture) : Capture * option nat :=
  match mediaRecorder c with
  | Some r =>
      match recorders c !! r with
      | Some Recording =>
          ({| recorders := <[r := Stopping]> (recorders c);
              mediaRecorder := mediaRecorder c;
              audioChunks := audioChunks c;
              recordingIndicator := false;
              awaitingStop := awaitingStop c;
              awaitingMic := awaitingMic c |}, Some r)
      | _ =>
          ({| recorders := recorders c; mediaRecorder := mediaRecorder c;
              audioChunks := audioChunks c; recordingIndicator := false;
              awaitingStop := awaitingStop c;
              awaitingMic := awaitingMic c |}, None)
      end
  | None =>
      ({| recorders := recorders c; mediaRecorder := mediaRecorder c;
          audioChunks := audioChunks c; recordingIndicator := false;
          awaitingStop := awaitingStop c; awaitingMic := awaitingMic c |}, None)
  end.

(** [startRecording] between the two awaits: the chunk array is reset
    and [getUserMedia] is requested. *)
Definition requestMicrophone (c : Capture) : Capture :=
  {| recorders := recorders c; mediaRecorder := mediaRecorder c;
     audioChunks := []; recordingIndicator := recordingIndicator c;
     awaitingStop := awaitingStop c; awaitingMic := S (awaitingMic c) |}.

(** A call of [startRecording()], run up to its first suspension. *)
Definition startRecording (c : Capture) : Capture :=
  match stopRecording c with
  | (c, Some r) =>
      {| recorders := recorders c; mediaRecorder := mediaRecorder c;
         audioChunks := audioChunks c;
         recordingIndicator := recordingIndicator c;
         awaitingStop := awaitingStop c ++ [r];
         awaitingMic := awaitingMic c |}
  | (c, None) => requestMicrophone c
  end.

(** The stop event of recorder [r]: the [onstop] handler releases the
    tracks, then every [startRecording] suspended on this event goes on
    to request the microphone.  A recorder stops after [stop()] or when
    its stream ends by itself. *)
Definition recorderStopped (r : nat) (c : Capture) : Capture :=
  match recorders c !! r with
  | Some Recording | Some Stopping =>
      let resumed := filter (fun x => x = r) (awaitingStop c) in
      {| recorders := <[r := Released]> (recorders c);
         mediaRecorder := mediaRecorder c;
         audioChunks := match resumed with [] => audioChunks c | _ => [] end;
         recordingIndicator := false;
         awaitingStop := filter (fun x => x <> r) (awaitingStop c);
         awaitingMic := length resumed + awaitingMic c |}
  | _ => c
  end.

(** The [ondataavailable] handler: it looks at the size of the data and
    at nothing else. *)
Definition ondataavailable (data : Chunk) (c : Capture) : Capture :=
  if Nat.ltb 0 (String.length data) then
    {| recorders := recorders c; mediaRecorder := mediaRecorder c;
       audioChunks := audioChunks c ++ [data];
       recordingIndicator := recordingIndicator c;
       awaitingStop := awaitingStop c; awaitingMic := awaitingMic c |}
  else c.

(** The event [dataavailable] of recorder [r].  The browser fires it at
    a recorder that is recording or between [stop()] and its stop
    event, for the last time right before that event; a released
    recorder, or one that was never created, receives none, so the
    handler is not run for it. *)
Definition dataAvailable (r : nat) (data : Chunk) (c : Capture) : Capture :=
  match recorders c !! r with
  | Some Recording | Some Stopping => ondataavailable data c
  | _ => c
  end.

(** [getUserMedia] settles for one suspended [startRecording]: on
    success a new recorder is created, stored and started and the call
    returns [true]; on refusal the error is shown and it returns
    [false].  [None] when no call is suspended there. *)
Definition microphoneSettled (granted : bool) (c : Capture) (u : Ui.State)
    : option bool * Capture * Ui.State :=
  match awaitingMic c with
  | O => (None, c, u)
  | S n =>
      if granted then
        (Some true,
         {| recorders := recorders c ++ [Recording];
            mediaRecorder := Some (length (recorders c));
            audioChunks := audioChunks c; recordingIndicator := true;
            awaitingStop := awaitingStop c; awaitingMic := n |}, u)
      else
        (Some false,
         {| recorders := recorders c; mediaRecorder := mediaRecorder c;
            audioChunks := audioChunks c;
            recordingIndicator := recordingIndicator c;
            awaitingStop := awaitingStop c; awaitingMic := n |},
         Ui.showError "Error accessing microphone. Please ensure microphone access is enabled in your browser settings and try again." (Ui.consoleError "Recording error:" u))
  end.

(** [getRecordedAudioBase64]: [null] without chunks, otherwise what
    [blobToBase64] delivers for the blob ([None] when it fails). *)
Definition getRecordedAudioBase64 (chunks : list Chunk) (blobToBase64 : option string)
    : option string :=
  match chunks with
  | [] => None
  | _ => blobToBase64
  end.

(** Calls and browser events of the Capture Buffer. *)
Inductive CaptureEvent :=
| CallStartRecording
| CallStopRecording
| RecorderStopped (r : nat)
| DataAvailable (r : nat) (data : Chunk)
| MicrophoneSettled (granted : bool).

Definition captureStep (e : CaptureEvent) (c : Capture) : Capture :=
  match e with
  | CallStartRecording => startRecording c
  | CallStopRecording => fst (stopRecording c)
  | RecorderStopped r => recorderStopped r c
  | DataAvailable r d => dataAvailable r d c
  | MicrophoneSettled g => snd (fst (microphoneSettled g c Ui.initial))
  end.

Definition captureRun (es : list CaptureEvent) (c : Capture) : Capture :=
  fold_left (fun c e => captureStep e c) es c.

(** No promise of an earlier call is pending: nothing is suspended and
    no recorder is between [stop()] and its stop event. *)
Definition settled (c : Capture) : bool :=
  match awaitingStop c, awaitingMic c with
  | [], O => forallb (fun r => negb (bool_decide (r = Stopping))) (recorders c)
  | _, _ => false
  end.

Definition isCall (e : CaptureEvent) : bool :=
  match e with
  | CallStartRecording | CallStopRecording => true
  | _ => false
  end.

(** [oneAtATime es c]: along the run of [es] from [c], every call is
    made only after the promises of the earlier calls have settled. *)
Fixpoint oneAtATime (es : list CaptureEvent) (c : Capture) : bool :=
  match es with
  | [] => true
  | e :: es' =>
      (if isCall e then settled c else true) && oneAtATime es' (captureStep e c)
  end.

(** Two handles hold the hardware at once. *)
Definition twoActive (c : Capture) : Prop :=
  exists i j, i <> j /\
    (exists a, recorders c !! i = Some a /\ holdsHardware a = true) /\
    (exists b, recorders c !! j = Some b /\ holdsHardware b = true).

(** What holds between calls that do not overlap: only the recorder the
    variable refers to can hold the hardware; at most one
    [startRecording] is suspended; while it waits for the microphone no
    recorder holds the hardware; while it waits for a stop event, that
    event is the one of the current recorder. *)
Record CaptureInv (c : Capture) : Prop := {
  inv_current : forall i a,
    recorders c !! i = Some a -> holdsHardware a = true -> mediaRecorder c = Some i;
  inv_single : awaitingMic c + length (awaitingStop c) <= 1;
  inv_mic : awaitingMic c <> 0 ->
    forall i a, recorders c !! i = Some a -> a = Released;
  inv_stop : forall r, r ∈ awaitingStop c -> mediaRecorder c = Some r
}.

(** *** Playback Negotiator *)

Record Format := { mime : string; ext : string }.

Definition formats : list Format :=
  [ {| mime := "audio/mp3"; ext := "mp3" |};
    {| mime := "audio/mpeg"; ext := "mp3" |};
    {| mime := "audio/wav"; ext := "wav" |};
    {| mime := "audio/x-wav"; ext := "wav" |};
    {| mime := "audio/webm"; ext := "webm" |} ].

Definition sameFormat (a b : Format) : bool :=
  String.eqb (mime a) (mime b) && String.eqb (ext a) (ext b).

Record Playback := {
  (* whether [startSpeakingAnimation] and [stopSpeakingAnimation] resolve
     in the scope of audio.js; the module as given imports only
     [showError] from ui.js, so a call raises a ReferenceError *)
  animationInScope : bool;
  audioPlayer : bool;               (* the Audio element exists *)
  src : option nat;                 (* object URL loaded in the player *)
  paused : bool;
  handlerFormat : option Format;    (* [format] captured by onerror *)
  attempts : list Format;           (* formats handed to play(), oldest first *)
  nextUrl : nat;                    (* object URLs created so far *)
  revoked : list nat                (* URLs passed to revokeObjectURL *)
}.

Definition initialPlayback (inScope : bool) : Playback :=
  {| animationInScope := inScope; audioPlayer := false; src := None;
     paused := true; handlerFormat := None; attempts := [];
     nextUrl := 0; revoked := [] |}.

(** A call of one of the two animation functions from audio.js: the
    function of ui.js when the name resolves, a ReferenceError (first
    component [true]) when it does not. *)
Definition callAnimation (p : Playback) (f : Ui.State -> Ui.State) (u : Ui.State)
    : bool * Ui.State :=
  if animationInScope p then (false, f u) else (true, u).

(** The [catch] block of [playAudio]. *)
Definition playAudioCatch (p : Playback) (u : Ui.State) : bool * Playback * Ui.State :=
  let (threw, u) :=
    callAnimation p Ui.stopSpeakingAnimation
      (Ui.consoleError "Error in audio playback:" u) in
  (threw, p, u).

(** The body of the loop over [formats] for one [format]. *)
Definition tryFormat (format : Format) (p : Playback) (u : Ui.State)
    : bool * Playback * Ui.State :=
  let p :=
    {| animationInScope := animationInScope p; audioPlayer := true;
       src := Some (nextUrl p); paused := false;
       handlerFormat := Some format; attempts := attempts p ++ [format];
       nextUrl := S (nextUrl p); revoked := revoked p |} in
  let (threw, u) := callAnimation p Ui.startSpeakingAnimation u in
  if threw then playAudioCatch p u else (false, p, u).

(** The loop [for (const format of formats) { ...; break; }]. *)
Definition tryFormats (fs : list Format) (p : Playback) (u : Ui.State)
    : bool * Playback * Ui.State :=
  match fs with
  | [] => (false, p, u)
  | format :: _ => tryFormat format p u       (* break *)
  end.

(** The payload handed to [atob]: a leading [//] is cut off. *)
Definition cleanBase64 (audioBase64 : string) : string :=
  if Js.startsWith "//" audioBase64 then Js.substring2 audioBase64
  else audioBase64.

(** [playAudio(audioBase64)].  [decodes] tells whether [atob] accepts
    [cleanBase64 audioBase64].  The first component tells whether the
    call ends by an exception. *)
Definition playAudio (decodes : bool) (audioBase64 : option string)
    (p : Playback) (u : Ui.State) : bool * Playback * Ui.State :=
  match audioBase64 with
  | None => (false, p, u)
  | Some a =>
      if String.eqb a "" then (false, p, u)
      else if String.eqb (Js.trim a) "" then
        (false, p, Ui.consoleError "Invalid audio data format:" u)
      else
        if decodes then tryFormats formats p u
        else playAudioCatch p u
  end.

Definition revokeSrc (p : Playback) : Playback :=
  {| animationInScope := animationInScope p; audioPlayer := audioPlayer p;
     src := src p; paused := paused p; handlerFormat := handlerFormat p;
     attempts := attempts p; nextUrl := nextUrl p;
     revoked := match src p with Some x => revoked p ++ [x] | None => revoked p end |}.

(** The [onerror] handler installed by [playAudio]. *)
Definition playbackError (p : Playback) (u : Ui.State) : Playback * Ui.State :=
  match handlerFormat p with
  | None => (p, u)
  | Some format =>
      let u := Ui.consoleError "Audio playback error:" u in
      if match last formats with
         | Some l => sameFormat format l
         | None => false
         end
      then
        let (threw, u) := callAnimation p Ui.stopSpeakingAnimation u in
        if threw then (p, u)
        else (revokeSrc p, Ui.consoleError "All audio formats failed to play" u)
      else (revokeSrc p, u)
  end.

Definition pause (p : Playback) : Playback :=
  {| animationInScope := animationInScope p; audioPlayer := audioPlayer p;
     src := src p; paused := true; handlerFormat := handlerFormat p;
     attempts := attempts p; nextUrl := nextUrl p; revoked := revoked p |}.

(** Playback reaches the end: the element pauses, then the [onended]
    handler installed by [playAudio] runs. *)
Definition playbackEnded (p : Playback) (u : Ui.State) : Playback * Ui.State :=
  let p := pause p in
  match handlerFormat p with
  | None => (p, u)
  | Some _ =>
      let (threw, u) := callAnimation p Ui.stopSpeakingAnimation u in
      if threw then (p, u) else (revokeSrc p, u)
  end.

(** [stopCurrentAudio()]. *)
Definition stopCurrentAudio (p : Playback) : Playback :=
  if audioPlayer p && negb (paused p) then pause p else p.

End Audio.

(** ** interview.js *)

Module Interview.

(** [WebSocket.readyState]. *)
Inductive ReadyState := CONNECTING | OPEN | CLOSING | CLOSED.

Inductive OutType := TypeText | TypeAudio.

(** What [websocket.send] receives, before [JSON.stringify]. *)
Record Outbound := {
  out_type : OutType;
  out_content : string;
  out_transcription : option string;
  out_voiceStyle : string
}.

(** [event.data] as [JSON.parse] sees it: text that does not parse, a
    value that is no object ([null], a number, a string, a boolean), or
    an object. *)
Inductive Payload :=
| Malformed
| NotAnObject
| Object (m : Message).

(** The module-level variables of interview.js, the page controls it
    reads and writes, and its suspended continuations and timers. *)
Record State := {
  websocket : option ReadyState;
  interviewId : option string;
  textResponseInput : string;          (* textResponseInput.value *)
  voiceStyle : string;                 (* value of the voice-style select *)
  isProcessingResponse : bool;
  isRecording : bool;
  viewInsightsVisible : bool;          (* viewInsightsBtn.style.display *)
  startBtnDisabled : bool;
  stopBtnDisabled : bool;
  sent : list Outbound;                (* arguments of websocket.send, oldest first *)
  connectCalls : nat;                  (* calls of connectWebSocket *)
  awaitingOpen : nat;                  (* startNewInterview suspended in [await connectWebSocket()] *)
  suspendedSendAudio : list (list Audio.Chunk);
                                       (* sendAudio suspended in [await getRecordedAudioBase64()],
                                          each with the chunks its blob was built from *)
  sendAudioTimers : nat;               (* pending setTimeout(sendAudio, 100) *)
  recordingTimers : list nat;          (* pending 30 s timers *)
  nextTimer : nat;
  clickAwaitingStop : list nat;        (* start clicks suspended in [await stopRecording()] *)
  clickAwaitingStart : list (nat * option nat)
                                       (* start clicks suspended in [await startRecording()]:
                                          the 30 s timer of each, and the recorder whose stop
                                          event its [startRecording] still waits for ([None]
                                          once it has requested the microphone); those that
                                          wait for the microphone are in the order of their
                                          requests *)
}.

Definition initial : State :=
  {| websocket := None; interviewId := None; textResponseInput := "";
     voiceStyle := "Nova"; isProcessingResponse := false;
     isRecording := false; viewInsightsVisible := false;
     startBtnDisabled := false; stopBtnDisabled := true; sent := [];
     connectCalls := 0; awaitingOpen := 0; suspendedSendAudio := [];
     sendAudioTimers := 0; recordingTimers := []; nextTimer := 0;
     clickAwaitingStop := []; clickAwaitingStart := [] |}.

(** The four modules side by side. *)
Record World := {
  ui : Ui.State;
  speech : Speech.State;
  capture : Audio.Capture;
  playback : Audio.Playback;
  iv : State
}.

Definition initialWorld (speechApi animationInScope : bool) : World :=
  {| ui := Ui.initial; speech := Speech.initial speechApi;
     capture := Audio.initialCapture;
     playback := Audio.initialPlayback animationInScope;
     iv := initial |}.

Definition with_ui (u : Ui.State) (w : World) : World :=
  {| ui := u; speech := speech w; capture := capture w;
     playback := playback w; iv := iv w |}.
Definition with_speech (s : Speech.State) (w : World) : World :=
  {| ui := ui w; speech := s; capture := capture w;
     playback := playback w; iv := iv w |}.
Definition with_capture (c : Audio.Capture) (w : World) : World :=
  {| ui := ui w; speech := speech w; capture := c;
     playback := playback w; iv := iv w |}.
Definition with_playback (p : Audio.Playback) (w : World) : World :=
  {| ui := ui w; speech := speech w; capture := capture w;
     playback := p; iv := iv w |}.
Definition with_iv (i : State) (w : World) : World :=
  {| ui := ui w; speech := speech w; capture := capture w;
     playback := playback w; iv := i |}.

Definition onUi (f : Ui.State -> Ui.State) (w : World) : World :=
  with_ui (f (ui w)) w.
Definition onIv (f : State -> State) (w : World) : World :=
  with_iv (f (iv w)) w.

(** Assignments to single fields. *)
Definition set_websocket (v : option ReadyState) (s : State) : State :=
  {| websocket := v; interviewId := interviewId s;
     textResponseInput := textResponseInput s; voiceStyle := voiceStyle s;
     isProcessingResponse := isProcessingResponse s;
     isRecording := isRecording s;
     viewInsightsVisible := viewInsightsVisible s;
     startBtnDisabled := startBtnDisabled s;
     stopBtnDisabled := stopBtnDisabled s; sent := sent s;
     connectCalls := connectCalls s; awaitingOpen := awaitingOpen s;
     suspendedSendAudio := suspendedSendAudio s;
     sendAudioTimers := sendAudioTimers s;
     recordingTimers := recordingTimers s; nextTimer := nextTimer s;
     clickAwaitingStop := clickAwaitingStop s;
     clickAwaitingStart := clickAwaitingStart s |}.

Definition set_interviewId (v : option string) (s : State) : State :=
  {| websocket := websocket s; interviewId := v;
     textResponseInput := textResponseInput s; voiceStyle := voiceStyle s;
     isProcessingResponse := isProcessingResponse s;
     isRecording := isRecording s;
     viewInsightsVisible := viewInsightsVisible s;
     startBtnDisabled := startBtnDisabled s;
     stopBtnDisabled := stopBtnDisabled s; sent := sent s;
     connectCalls := connectCalls s; awaitingOpen := awaitingOpen s;
     suspendedSendAudio := suspendedSendAudio s;
     sendAudioTimers := sendAudioTimers s;
     recordingTimers := recordingTimers s; nextTimer := nextTimer s;
     clickAwaitingStop := clickAwaitingStop s;
     clickAwaitingStart := clickAwaitingStart s |}.

Definition set_textResponseInput (v : string) (s : State) : State :=
  {| websocket := websocket s; interviewId := interviewId s;
     textResponseInput := v; voiceStyle := voiceStyle s;
     isProcessingResponse := isProcessingResponse s;
     isRecording := isRecording s;
     viewInsightsVisible := viewInsightsVisible s;
     startBtnDisabled := startBtnDisabled s;
     stopBtnDisabled := stopBtnDisabled s; sent := sent s;
     connectCalls := connectCalls s; awaitingOpen := awaitingOpen s;
     suspendedSendAudio := suspendedSendAudio s;
     sendAudioTimers := sendAudioTimers s;
     recordingTimers := recordingTimers s; nextTimer := nextTimer s;
     clickAwaitingStop := clickAwaitingStop s;
     clickAwaitingStart := clickAwaitingStart s |}.

Definition set_voiceStyle (v : string) (s : State) : State :=
  {| websocket := websocket s; interviewId := interviewId s;
     textResponseInput := textResponseInput s; voiceStyle := v;
     isProcessingResponse := isProcessingResponse s;
     isRecording := isRecording s;
     viewInsightsVisible := viewInsightsVisible s;
     startBtnDisabled := startBtnDisabled s;
     stopBtnDisabled := stopBtnDisabled s; sent := sent s;
     connectCalls := connectCalls s; awaitingOpen := awaitingOpen s;
     suspendedSendAudio := suspendedSendAudio s;
     sendAudioTimers := sendAudioTimers s;
     recordingTimers := recordingTimers s; nextTimer := nextTimer s;
     clickAwaitingStop := clickAwaitingStop s;
     clickAwaitingStart := clickAwaitingStart s |}.

Definition set_isProcessingResponse (v : bool) (s : State) : State :=
  {| websocket := websocket s; interviewId := interviewId s;
     textResponseInput := textResponseInput s; voiceStyle := voiceStyle s;
     isProcessingResponse := v; isRecording := isRecording s;
     viewInsightsVisible := viewInsightsVisible s;
     startBtnDisabled := startBtnDisabled s;
     stopBtnDisabled := stopBtnDisabled s; sent := sent s;
     connectCalls := connectCalls s; awaitingOpen := awaitingOpen s;
     suspendedSendAudio := suspendedSendAudio s;
     sendAudioTimers := sendAudioTimers s;
     recordingTimers := recordingTimers s; nextTimer := nextTimer s;
     clickAwaitingStop := clickAwaitingStop s;
     clickAwaitingStart := clickAwaitingStart s |}.

Definition set_isRecording (v : bool) (s : State) : State :=
  {| websocket := websocket s; interviewId := interviewId s;
     textResponseInput := textResponseInput s; voiceStyle := voiceStyle s;
     isProcessingResponse := isProcessingResponse s; isRecording := v;
     viewInsightsVisible := viewInsightsVisible s;
     startBtnDisabled := startBtnDisabled s;
     stopBtnDisabled := stopBtnDisabled s; sent := sent s;
     connectCalls := connectCalls s; awaitingOpen := awaitingOpen s;
     suspendedSendAudio := suspendedSendAudio s;
     sendAudioTimers := sendAudioTimers s;
     recordingTimers := recordingTimers s; nextTimer := nextTimer s;
     clickAwaitingStop := clickAwaitingStop s;
     clickAwaitingStart := clickAwaitingStart s |}.

Definition set_viewInsightsVisible (v : bool) (s : State) : State :=
  {| websocket := websocket s; interviewId := interviewId s;
     textResponseInput := textResponseInput s; voiceStyle := voiceStyle s;
     isProcessingResponse := isProcessingResponse s;
     isRecording := isRecording s; viewInsightsVisible := v;
     startBtnDisabled := startBtnDisabled s;
     stopBtnDisabled := stopBtnDisabled s; sent := sent s;
     connectCalls := connectCalls s; awaitingOpen := awaitingOpen s;
     suspendedSendAudio := suspendedSendAudio s;
     sendAudioTimers := sendAudioTimers s;
     recordingTimers := recordingTimers s; nextTimer := nextTimer s;
     clickAwaitingStop := clickAwaitingStop s;
     clickAwaitingStart := clickAwaitingStart s |}.

(** [newStartBtn.disabled = a; newStopBtn.disabled = b]. *)
Definition set_buttons (a b : bool) (s : State) : State :=
  {| websocket := websocket s; interviewId := interviewId s;
     textResponseInput := textResponseInput s; voiceStyle := voiceStyle s;
     isProcessingResponse := isProcessingResponse s;
     isRecording := isRecording s;
     viewInsightsVisible := viewInsightsVisible s;
     startBtnDisabled := a; stopBtnDisabled := b; sent := sent s;
     connectCalls := connectCalls s; awaitingOpen := awaitingOpen s;
     suspendedSendAudio := suspendedSendAudio s;
     sendAudioTimers := sendAudioTimers s;
     recordingTimers := recordingTimers s; nextTimer := nextTimer s;
     clickAwaitingStop := clickAwaitingStop s;
     clickAwaitingStart := clickAwaitingStart s |}.

(** [websocket.send(JSON.stringify(messageData))]. *)
Definition send (m : Outbound) (s : State) : State :=
  {| websocket := websocket s; interviewId := interviewId s;
     textResponseInput := textResponseInput s; voiceStyle := voiceStyle s;
     isProcessingResponse := isProcessingResponse s;
     isRecording := isRecording s;
     viewInsightsVisible := viewInsightsVisible s;
     startBtnDisabled := startBtnDisabled s;
     stopBtnDisabled := stopBtnDisabled s; sent := sent s ++ [m];
     connectCalls := connectCalls s; awaitingOpen := awaitingOpen s;
     suspendedSendAudio := suspendedSendAudio s;
     sendAudioTimers := sendAudioTimers s;
     recordingTimers := recordingTimers s; nextTimer := nextTimer s;
     clickAwaitingStop := clickAwaitingStop s;
     clickAwaitingStart := clickAwaitingStart s |}.

Definition set_connect (calls pending : nat) (s : State) : State :=
  {| websocket := websocket s; interviewId := interviewId s;
     textResponseInput := textResponseInput s; voiceStyle := voiceStyle s;
     isProcessingResponse := isProcessingResponse s;
     isRecording := isRecording s;
     viewInsightsVisible := viewInsightsVisible s;
     startBtnDisabled := startBtnDisabled s;
     stopBtnDisabled := stopBtnDisabled s; sent := sent s;
     connectCalls := calls; awaitingOpen := pending;
     suspendedSendAudio := suspendedSendAudio s;
     sendAudioTimers := sendAudioTimers s;
     recordingTimers := recordingTimers s; nextTimer := nextTimer s;
     clickAwaitingStop := clickAwaitingStop s;
     clickAwaitingStart := clickAwaitingStart s |}.

Definition set_suspendedSendAudio (v : list (list Audio.Chunk)) (s : State) : State :=
  {| websocket := websocket s; interviewId := interviewId s;
     textResponseInput := textResponseInput s; voiceStyle := voiceStyle s;
     isProcessingResponse := isProcessingResponse s;
     isRecording := isRecording s;
     viewInsightsVisible := viewInsightsVisible s;
     startBtnDisabled := startBtnDisabled s;
     stopBtnDisabled := stopBtnDisabled s; sent := sent s;
     connectCalls := connectCalls s; awaitingOpen := awaitingOpen s;
     suspendedSendAudio := v;
     sendAudioTimers := sendAudioTimers s;
     recordingTimers := recordingTimers s; nextTimer := nextTimer s;
     clickAwaitingStop := clickAwaitingStop s;
     clickAwaitingStart := clickAwaitingStart s |}.

Definition set_sendAudioTimers (v : nat) (s : State) : State :=
  {| websocket := websocket s; interviewId := interviewId s;
     textResponseInput := textResponseInput s; voiceStyle := voiceStyle s;
     isProcessingResponse := isProcessingResponse s;
     isRecording := isRecording s;
     viewInsightsVisible := viewInsightsVisible s;
     startBtnDisabled := startBtnDisabled s;
     stopBtnDisabled := stopBtnDisabled s; sent := sent s;
     connectCalls := connectCalls s; awaitingOpen := awaitingOpen s;
     suspendedSendAudio := suspendedSendAudio s;
     sendAudioTimers := v;
     recordingTimers := recordingTimers s; nextTimer := nextTimer s;
     clickAwaitingStop := clickAwaitingStop s;
     clickAwaitingStart := clickAwaitingStart s |}.

Definition set_timers (l : list nat) (n : nat) (s : State) : State :=
  {| websocket := websocket s; interviewId := interviewId s;
     textResponseInput := textResponseInput s; voiceStyle := voiceStyle s;
     isProcessingResponse := isProcessingResponse s;
     isRecording := isRecording s;
     viewInsightsVisible := viewInsightsVisible s;
     startBtnDisabled := startBtnDisabled s;
     stopBtnDisabled := stopBtnDisabled s; sent := sent s;
     connectCalls := connectCalls s; awaitingOpen := awaitingOpen s;
     suspendedSendAudio := suspendedSendAudio s;
     sendAudioTimers := sendAudioTimers s;
     recordingTimers := l; nextTimer := n;
     clickAwaitingStop := clickAwaitingStop s;
     clickAwaitingStart := clickAwaitingStart s |}.

Definition set_clicks (a : list nat) (b : list (nat * option nat)) (s : State) : State :=
  {| websocket := websocket s; interviewId := interviewId s;
     textResponseInput := textResponseInput s; voiceStyle := voiceStyle s;
     isProcessingResponse := isProcessingResponse s;
     isRecording := isRecording s;
     viewInsightsVisible := viewInsightsVisible s;
     startBtnDisabled := startBtnDisabled s;
     stopBtnDisabled := stopBtnDisabled s; sent := sent s;
     connectCalls := connectCalls s; awaitingOpen := awaitingOpen s;
     suspendedSendAudio := suspendedSendAudio s;
     sendAudioTimers := sendAudioTimers s;
     recordingTimers := recordingTimers s; nextTimer := nextTimer s;
     clickAwaitingStop := a; clickAwaitingStart := b |}.

(** *** Session Connection *)

(** [connectWebSocket()]: counted, then refused without an interview
    id; otherwise a new socket replaces the current one (closing it
    first when it is not closed), and whoever awaited the replaced
    socket is never resumed. *)
Definition connectWebSocket (w : World) : World :=
  let w := onIv (fun s => set_connect (S (connectCalls s)) (awaitingOpen s) s) w in
  if Js.truthy (interviewId (iv w)) then
    onIv (fun s => set_connect (connectCalls s) 0 (set_websocket (Some CONNECTING) s)) w
  else onUi (Ui.showError "No interview ID provided") w.

(** [startNewInterview(id)] up to [await connectWebSocket()]. *)
Definition startNewInterview (id : option string) (w : World) : World :=
  let w := connectWebSocket (onIv (set_interviewId id) w) in
  if Js.truthy id
  then onIv (fun s => set_connect (connectCalls s) 1 s) w
  else w.

(** [websocket.onopen]: the promise is resolved; a suspended
    [startNewInterview] goes on and hides the insights button. *)
Definition socketOpen (w : World) : World :=
  match websocket (iv w) with
  | Some CONNECTING =>
      let w := onIv (set_websocket (Some OPEN)) w in
      match awaitingOpen (iv w) with
      | O => w
      | S _ =>
          onIv (fun s => set_connect (connectCalls s) 0
                           (set_viewInsightsVisible false s)) w
      end
  | _ => w
  end.

(** The [onerror] handler of a socket: of the one [websocket] refers
    to ([current]), whose promise it rejects, or of one that
    [connectWebSocket] has replaced. *)
Definition socketError (current : bool) (w : World) : World :=
  let w :=
    onUi (fun u => Ui.showError "Connection error. Please reload the page."
                     (Ui.consoleError "WebSocket error:" u)) w in
  if current then onIv (fun s => set_connect (connectCalls s) 0 s) w else w.

(** The [onclose] handler of a socket, current or replaced: any code
    but 1000 is shown as an error and rejects the socket's promise. *)
Definition socketClose (current : bool) (code : nat) (reason : string) (w : World) : World :=
  let w :=
    match websocket (iv w) with
    | Some _ => if current then onIv (set_websocket (Some CLOSED)) w else w
    | None => w
    end in
  if Nat.eqb code 1000 then w
  else
    let w :=
      onUi (Ui.showError ("Connection closed: " +:+
                          Js.orElse (Some reason) "Unknown reason")) w in
    if current then onIv (fun s => set_connect (connectCalls s) 0 s) w else w.

(** [websocket && websocket.readyState === WebSocket.OPEN] *)
Definition isOpen (s : State) : bool :=
  match websocket s with
  | Some OPEN => true
  | _ => false
  end.

(** [closeConnection()]. *)
Definition closeConnection (w : World) : World :=
  if isOpen (iv w) then onIv (set_websocket (Some CLOSING)) w else w.

(** The [catch] block of [handleWebSocketMessage]. *)
Definition catchMessageError (w : World) : World :=
  onIv (set_isProcessingResponse false)
    (onUi (fun u =>
             Ui.hideLoading
               (Ui.consoleError "Raw message data:"
                  (Ui.consoleError "Error handling WebSocket message:" u))) w).

(** [isProcessingResponse = false; hideLoading();] *)
Definition processingComplete (w : World) : World :=
  onUi Ui.hideLoading (onIv (set_isProcessingResponse false) w).

(** The completion check that closes the [try] block. *)
Definition checkComplete (m : Message) (w : World) : World :=
  if interviewComplete m then onIv (set_viewInsightsVisible true) w else w.

(** The role after the defaulting assignment. *)
Definition roleOf (m : Message) : string :=
  if Js.truthy (role m) then Js.orElse (role m) "system" else "system".

(** [handleWebSocketMessage(event)]; [decodes] is passed on to
    [playAudio]. *)
Definition handleWebSocketMessage (p : Payload) (decodes : bool) (w : World) : World :=
  match p with
  | Malformed | NotAnObject => catchMessageError w
  | Object m =>
      let r := roleOf m in
      if String.eqb r "assistant" then
        let w := onUi (Ui.displayMessage (Some "assistant") (content m)) w in
        if Js.truthy (audio m) then
          let '(threw, p, u) :=
            Audio.playAudio decodes (audio m) (playback w) (ui w) in
          let w := with_ui u (with_playback p w) in
          if threw then catchMessageError w
          else checkComplete m (processingComplete w)
        else checkComplete m (processingComplete w)
      else if String.eqb r "system" then
        checkComplete m
          (processingComplete
             (onUi (Ui.displayMessage (Some "system")
                      (Some (Js.orElse (content m) "System message"))) w))
      else if Js.truthy (content m) then
        checkComplete m
          (processingComplete (onUi (Ui.displayMessage (Some r) (content m)) w))
      else checkComplete m w
  end.

(** *** Turn Coordinator *)

(** The test that aborts [sendAudio]:
    [!transcript || transcript.trim() === '[ Listening... ]' || transcript.trim() === ''] *)
Definition noSpeech (transcript : string) : bool :=
  String.eqb transcript "" ||
  String.eqb (Js.trim transcript) LISTENING ||
  String.eqb (Js.trim transcript) "".

(** [sendAudio] after [await getRecordedAudioBase64()]. *)
Definition sendAudioResume (audioBase64 : option string) (w : World) : World :=
  let transcript := Speech.getTranscription (speech w) in
  if noSpeech transcript then
    onIv (set_isProcessingResponse false)
      (onUi (fun u => Ui.showError "No speech detected. Please try again."
                        (Ui.hideLoading u)) w)
  else
    let w :=
      onUi (fun u => Ui.displayMessage (Some "user") (Some transcript)
                       (Ui.removePlaceholders u)) w in
    if isOpen (iv w) then
      with_speech (Speech.resetTranscription (speech w))
        (onIv (send {| out_type := TypeAudio;
                       out_content := Js.orElse audioBase64 "";
                       out_transcription := Some transcript;
                       out_voiceStyle := voiceStyle (iv w) |}) w)
    else
      connectWebSocket
        (onUi (Ui.showError "Connection lost. Please reload the page to reconnect.")
           (onIv (set_isProcessingResponse false)
              (onUi (fun u => Ui.hideLoading (Ui.consoleError "WebSocket not open" u)) w))).

(** A call of [sendAudio()].  Without chunks [getRecordedAudioBase64]
    returns [null] at once and the call goes on in the same turn of the
    event loop; with chunks it is suspended until the blob is encoded. *)
Definition sendAudio (w : World) : World :=
  if isProcessingResponse (iv w) then w
  else
    let w :=
      onUi Ui.showLoading
        (onIv (fun s => set_isRecording false (set_isProcessingResponse true s)) w) in
    match Audio.audioChunks (capture w) with
    | [] => sendAudioResume (Audio.getRecordedAudioBase64 [] None) w
    | chunks =>
        onIv (fun s => set_suspendedSendAudio (suspendedSendAudio s ++ [chunks]) s) w
    end.

(** The [catch] block of [getRecordedAudioBase64]: a blob that cannot
    be encoded is logged on the console. *)
Definition logEncodingFailure (chunks : list Audio.Chunk) (blobToBase64 : option string)
    (w : World) : World :=
  match chunks, blobToBase64 with
  | _ :: _, None => onUi (Ui.consoleError "Error converting audio to base64:") w
  | _, _ => w
  end.
#[global] Arguments logEncodingFailure : simpl never.

(** The blob of the oldest suspended [sendAudio] is encoded (or fails
    to be: [None]). *)
Definition audioEncoded (blobToBase64 : option string) (w : World) : World :=
  match suspendedSendAudio (iv w) with
  | [] => w
  | chunks :: rest =>
      sendAudioResume (Audio.getRecordedAudioBase64 chunks blobToBase64)
        (logEncodingFailure chunks blobToBase64
           (onIv (set_suspendedSendAudio rest) w))
  end.

(** [handleTextSubmission()]. *)
Definition handleTextSubmission (w : World) : World :=
  let text := Js.trim (textResponseInput (iv w)) in
  if String.eqb text "" then w
  else if isProcessingResponse (iv w) then w
  else
    let w := onIv (set_isProcessingResponse true) w in
    let w := onUi (fun u => Ui.displayUserPlaceholder text (Ui.showLoading u)) w in
    let w := with_playback (Audio.stopCurrentAudio (playback w)) w in
    if isOpen (iv w) then
      onIv (fun s =>
              set_textResponseInput ""
                (send {| out_type := TypeText; out_content := text;
                         out_transcription := None;
                         out_voiceStyle := voiceStyle s |} s)) w
    else
      onUi (Ui.showError "Connection lost. Please reload the page to reconnect.")
        (onIv (set_isProcessingResponse false) (onUi Ui.hideLoading w)).

(** [stopRecognition()] as called from interview.js; [stop()] of the
    recognizer raises no exception. *)
Definition stopRecognition (w : World) : World :=
  let (s, u) := Speech.stopRecognition false (speech w) (ui w) in
  with_ui u (with_speech s w).

(** The stop event of recorder [r] lets every [startRecording] that
    waited for it go on to [getUserMedia]: the start clicks they belong
    to queue up behind those already waiting for the microphone. *)
Definition requestedAfter (r : nat) (l : list (nat * option nat))
    : list (nat * option nat) :=
  (filter (fun x => snd x <> Some r) l ++
   map (fun x => (fst x, None)) (filter (fun x => snd x = Some r) l))%list.

(** The start click whose microphone request is the oldest, and the
    clicks left suspended. *)
Fixpoint oldestRequest (l : list (nat * option nat))
    : option (nat * list (nat * option nat)) :=
  match l with
  | [] => None
  | (timer, None) :: rest => Some (timer, rest)
  | x :: rest =>
      match oldestRequest rest with
      | Some (timer, rest') => Some (timer, x :: rest')
      | None => None
      end
  end.

(** The start-button handler after [await startRecording()], which
    delivered [recordingStarted]; [timer] is its 30 s timer. *)
Definition startClickAfterStart (timer : nat) (recordingStarted : bool) (w : World) : World :=
  let '(recognitionStarted, s, u) := Speech.startRecognition (speech w) (ui w) in
  let w := with_ui u (with_speech s w) in
  if recordingStarted && recognitionStarted then w
  else
    onUi (Ui.showError "Failed to start recording. Please check microphone access and browser permissions.")
      (onIv (fun s =>
               set_buttons false true
                 (set_isRecording false
                    (set_timers (filter (fun t => t <> timer) (recordingTimers s))
                       (nextTimer s) s))) w).

(** The start-button handler after [await stopRecording()]: up to
    [await startRecording()]. *)
Definition startClickAfterStop (w : World) : World :=
  let w := stopRecognition w in
  let w := onIv (set_isRecording true) w in
  let w := onUi (Ui.displayUserPlaceholder LISTENING) w in
  let w := onIv (set_buttons true false) w in
  let timer := nextTimer (iv w) in
  let w := onIv (fun s => set_timers (recordingTimers s ++ [timer]) (S timer) s) w in
  let awaited := snd (Audio.stopRecording (capture w)) in
  let w := with_capture (Audio.startRecording (capture w)) w in
  onIv (fun s => set_clicks (clickAwaitingStop s)
                   (clickAwaitingStart s ++ [(timer, awaited)]) s) w.

(** The click handler of the start button. *)
Definition startClick (w : World) : World :=
  if isRecording (iv w) || isProcessingResponse (iv w) then w
  else
    match Audio.stopRecording (capture w) with
    | (c, Some r) =>
        onIv (fun s => set_clicks (clickAwaitingStop s ++ [r]) (clickAwaitingStart s) s)
          (with_capture c w)
    | (c, None) => startClickAfterStop (with_capture c w)
    end.

(** The click handler of the stop button. *)
Definition stopClick (w : World) : World :=
  if isRecording (iv w) then
    let w := onIv (set_buttons false true) w in
    let w := stopRecognition w in
    let w := with_capture (fst (Audio.stopRecording (capture w))) w in
    onIv (fun s => set_sendAudioTimers (S (sendAudioTimers s)) s) w
  else w.

(** A click reaches the handler only when the button is enabled. *)
Definition clickStartButton (w : World) : World :=
  if startBtnDisabled (iv w) then w else startClick w.
Definition clickStopButton (w : World) : World :=
  if stopBtnDisabled (iv w) then w else stopClick w.

(** The 30 s safety timer armed by the start click. *)
Definition recordingTimerFired (timer : nat) (w : World) : World :=
  if bool_decide (timer ∈ recordingTimers (iv w)) then
    let w :=
      onIv (fun s => set_timers (filter (fun t => t <> timer) (recordingTimers s))
                       (nextTimer s) s) w in
    if isRecording (iv w) then clickStopButton w else w
  else w.

(** The timer of the stop click: [setTimeout(() => sendAudio(), 100)]. *)
Definition sendAudioTimerFired (w : World) : World :=
  match sendAudioTimers (iv w) with
  | O => w
  | S n => sendAudio (onIv (set_sendAudioTimers n) w)
  end.

Fixpoint repeatedly (n : nat) (f : World -> World) (w : World) : World :=
  match n with
  | O => w
  | S n' => repeatedly n' f (f w)
  end.

(** The stop event of recorder [r], seen from the whole page: the
    Capture Buffer reacts, then every start click suspended on this
    event goes on. *)
Definition recorderStopped (r : nat) (w : World) : World :=
  match Audio.recorders (capture w) !! r with
  | Some Audio.Recording | Some Audio.Stopping =>
      let resumed := filter (fun x => x = r) (clickAwaitingStop (iv w)) in
      let w := with_capture (Audio.recorderStopped r (capture w)) w in
      let w :=
        onIv (fun s => set_clicks (filter (fun x => x <> r) (clickAwaitingStop s))
                         (requestedAfter r (clickAwaitingStart s)) s) w in
      repeatedly (length resumed) startClickAfterStop w
  | _ => w
  end.

(** [getUserMedia] settles for the oldest request: that
    [startRecording] call returns, and the start click that made it
    goes on. *)
Definition microphoneSettled (granted : bool) (w : World) : World :=
  match Audio.microphoneSettled granted (capture w) (ui w) with
  | (None, _, _) => w
  | (Some recordingStarted, c, u) =>
      let w := with_ui u (with_capture c w) in
      match oldestRequest (clickAwaitingStart (iv w)) with
      | None => w
      | Some (timer, rest) =>
          startClickAfterStart timer recordingStarted
            (onIv (fun s => set_clicks (clickAwaitingStop s) rest s) w)
      end
  end.

(** What can happen to the page: user actions, socket, recorder,
    recognizer and player events, timers, and the completion of
    suspended calls. *)
Inductive Event :=
| StartNewInterview (id : option string)
| SocketOpen
| SocketError (current : bool)
| SocketClose (current : bool) (code : nat) (reason : string)
| SocketMessage (p : Payload) (decodes : bool)
| TypeTextInput (t : string)
| SelectVoice (v : string)
| SubmitText                         (* click on send-text, or Enter *)
| ClickStart
| ClickStop
| RecordingTimer (timer : nat)
| SendAudioTimer
| CallSendAudio
| AudioEncoded (blobToBase64 : option string)
| RecorderStopped (r : nat)
| DataAvailable (r : nat) (data : Audio.Chunk)
| MicrophoneSettled (granted : bool)
| Recognizer (e : Speech.Event)
| PlaybackError
| PlaybackEnded.

Definition step (e : Event) (w : World) : World :=
  match e with
  | StartNewInterview id => startNewInterview id w
  | SocketOpen => socketOpen w
  | SocketError cur => socketError cur w
  | SocketClose cur c r => socketClose cur c r w
  | SocketMessage p d => handleWebSocketMessage p d w
  | TypeTextInput t => onIv (set_textResponseInput t) w
  | SelectVoice v => onIv (set_voiceStyle v) w
  | SubmitText => handleTextSubmission w
  | ClickStart => clickStartButton w
  | ClickStop => clickStopButton w
  | RecordingTimer t => recordingTimerFired t w
  | SendAudioTimer => sendAudioTimerFired w
  | CallSendAudio => sendAudio w
  | AudioEncoded b => audioEncoded b w
  | RecorderStopped r => recorderStopped r w
  | DataAvailable r d => with_capture (Audio.dataAvailable r d (capture w)) w
  | MicrophoneSettled g => microphoneSettled g w
  | Recognizer e =>
      let (s, u) := Speech.step e (speech w, ui w) in
      with_ui u (with_speech s w)
  | PlaybackError =>
      let (p, u) := Audio.playbackError (playback w) (ui w) in
      with_ui u (with_playback p w)
  | PlaybackEnded =>
      let (p, u) := Audio.playbackEnded (playback w) (ui w) in
      with_ui u (with_playback p w)
  end.

Definition run (es : list Event) (w : World) : World :=
  fold_left (fun w e => step e w) es w.

(** The Turns in flight in [w], counted from a state [w0] with nothing
    in flight, as long as no inbound message has arrived after the
    first send: the [sendAudio] calls accepted and not yet through
    their encoding (Submitting), and the messages sent since [w0], none
    of which has been answered (AwaitingReply). *)
Definition inFlight (w0 w : World) : nat :=
  length (suspendedSendAudio (iv w)) +
  (length (sent (iv w)) - length (sent (iv w0))).

Definition isStartNewInterview (e : Event) : bool :=
  match e with
  | StartNewInterview _ => true
  | _ => false
  end.

(** The insights button is shown and no [startNewInterview] is about to
    hide it. *)
Definition insightsShown (w : World) : Prop :=
  viewInsightsVisible (iv w) = true /\ awaitingOpen (iv w) = 0.

(** Neither recording nor waiting for a reply. *)
Definition idle (w : World) : Prop :=
  isRecording (iv w) = false /\ isProcessingResponse (iv w) = false.

(** The submission attempts: calls of [sendAudio] (directly or by the
    timer of the stop click) with the completion of their encoding, and
    text submissions with the typing that precedes them. *)
Definition isSubmission (e : Event) : bool :=
  match e with
  | TypeTextInput _ | SelectVoice _ | SubmitText
  | SendAudioTimer | CallSendAudio | AudioEncoded _ => true
  | _ => false
  end.

(** A transcript that says nothing: empty, white space only, or the
    sentinel placeholder. *)
Definition saysNothing (transcript : string) : Prop :=
  transcript = "" \/ Js.whitespaceOnly transcript = true \/ transcript = LISTENING.

(** The guard is set exactly while one Turn is in flight, and never
    more than one is. *)
Definition guarded (w0 w : World) : Prop :=
  exists extra,
    sent (iv w) = (sent (iv w0) ++ extra)%list /\
    ((isProcessingResponse (iv w) = false /\
      suspendedSendAudio (iv w) = [] /\ extra = []) \/
     (isProcessingResponse (iv w) = true /\
      length (suspendedSendAudio (iv w)) + length extra = 1)).

End Interview.

(** ** Vocabulary of the further properties *)

(** The transcripts of the results that are final ([final = true]) or
    interim ([final = false]), joined in order. *)
Fixpoint joinSegments (final : bool) (rs : list Speech.Result) : string :=
  match rs with
  | [] => ""
  | (b, t) :: rs' =>
      if Bool.eqb b final then t +:+ joinSegments final rs'
      else joinSegments final rs'
  end.

(** The recognizer errors that [handleRecognitionError] does not show. *)
Definition benignError (code : string) : bool :=
  String.eqb code "no-speech" || String.eqb code "aborted".

(** [n] times: the recognizer ends, is restarted, and reports its start. *)
Fixpoint restartRounds (n : nat) : list Speech.Event :=
  match n with
  | O => []
  | S n' => Speech.RecognitionEnded false :: Speech.RecognitionStarted :: restartRounds n'
  end.

(** The events of the accumulator that are neither a recognizer start
    or result nor a call of [startRecognition] or [resetTranscription]. *)
Definition stopsOnly (e : Speech.Event) : bool :=
  match e with
  | Speech.RecognitionError _ | Speech.RecognitionEnded _
  | Speech.CeilingTimer | Speech.CallStopRecognition _ => true
  | _ => false
  end.

(** What a chat entry shows: its class and its text. *)
Definition face (d : Ui.Div) : Ui.Cls * string := (Ui.div_class d, Ui.div_text d).

(** The entry [d] with its text replaced. *)
Definition retext (t : string) (d : Ui.Div) : Ui.Div :=
  {| Ui.div_id := Ui.div_id d; Ui.div_class := Ui.div_class d;
     Ui.div_text := t; Ui.div_speaking := Ui.div_speaking d |}.

(** How far a recorder is through its life. *)
Definition stage (r : Audio.Recorder) : nat :=
  match r with
  | Audio.Recording => 0
  | Audio.Stopping => 1
  | Audio.Released => 2
  end.

(** The two events of the audio element that [playAudio] handles. *)
Inductive PlayerEvent := Errored | Ended.

Definition playerStep (e : PlayerEvent) (pu : Audio.Playback * Ui.State)
    : Audio.Playback * Ui.State :=
  match e with
  | Errored => Audio.playbackError (fst pu) (snd pu)
  | Ended => Audio.playbackEnded (fst pu) (snd pu)
  end.

Definition playerRun (es : list PlayerEvent) (pu : Audio.Playback * Ui.State)
    : Audio.Playback * Ui.State :=
  fold_left (fun pu e => playerStep e pu) es pu.

(** The first of the candidate formats. *)
Definition mp3 : Audio.Format := {| Audio.mime := "audio/mp3"; Audio.ext := "mp3" |}.

(** A payload [playAudio] can work with: present and not blank. *)
Definition hasPayload (audioBase64 : option string) : bool :=
  match audioBase64 with
  | Some a => negb (String.eqb a "") && negb (String.eqb (Js.trim a) "")
  | None => false
  end.

(** The objects [handleWebSocketMessage] passes over: the role is
    neither missing, [assistant] nor [system], and there is no
    content. *)
Definition passedOver (p : Interview.Payload) : bool :=
  match p with
  | Interview.Object m =>
      negb (String.eqb (Interview.roleOf m) "assistant") &&
      negb (String.eqb (Interview.roleOf m) "system") &&
      negb (Js.truthy (content m))
  | _ => false
  end.

(** White space beyond ASCII: a no-break space (U+00A0) followed by an
    ideographic space (U+3000). *)
Definition wideBlank : string :=
  Eval vm_compute in String.string_of_list_ascii (Js.utf8 [194; 160; 227; 128; 128]).

(** The 30 s safety timer [t] is pending and the start click that
    armed it is past its [await startRecording()]. *)
Definition armed (t : nat) (w : Interview.World) : Prop :=
  t ∈ Interview.recordingTimers (Interview.iv w) /\
  (t ∉ map fst (Interview.clickAwaitingStart (Interview.iv w))) /\
  t < Interview.nextTimer (Interview.iv w).

(** The recording controls can no longer be used: the page believes it
    is recording, the stop button is disabled, and no timer or suspended
    click handler is left that would change either. *)
Definition controlsDead (w : Interview.World) : Prop :=
  Interview.isRecording (Interview.iv w) = true /\
  Interview.stopBtnDisabled (Interview.iv w) = true /\
  Interview.sendAudioTimers (Interview.iv w) = 0 /\
  Interview.clickAwaitingStop (Interview.iv w) = [] /\
  Interview.clickAwaitingStart (Interview.iv w) = [].

(** * Properties *)

(** ** Strings *)

Lemma append_cons x (a b : string) : String x a +:+ b = String x (a +:+ b).
Proof. reflexivity. Qed.

Lemma append_assoc (a b c : string) : (a +:+ b) +:+ c = a +:+ (b +:+ c).
Proof.
  induction a as [|x a IH]; [reflexivity|].
  now rewrite !append_cons, IH.
Qed.

Lemma append_empty_r (a : string) : a +:+ "" = a.
Proof.
  induction a as [|x a IH]; [reflexivity|].
  now rewrite append_cons, IH.
Qed.

Lemma extends_refl a : extends a a.
Proof. exists "". now rewrite append_empty_r. Qed.

Lemma extends_trans a b c : extends a b -> extends b c -> extends a c.
Proof.
  intros [x ->] [y ->]. exists (x +:+ y). apply append_assoc.
Qed.

(** ** Transcription Accumulator *)

Section SpeechFacts.
Import Speech.

Lemma accumulate_extends rs : forall final interim,
  extends final (fst (accumulate rs final interim)).
Proof.
  induction rs as [|[[] t] rs IH]; intros final interim; simpl.
  - apply extends_refl.
  - eapply extends_trans; [|apply IH]. now exists t.
  - apply IH.
Qed.

Lemma handleRecognitionResult_fields i rs s u :
  let s' := fst (handleRecognitionResult i rs s u) in
  recognitionRestartCount s' = recognitionRestartCount s /\
  isRecognizing s' = isRecognizing s /\
  extends (finalTranscript s) (finalTranscript s').
Proof.
  unfold handleRecognitionResult.
  pose proof (accumulate_extends (drop i rs) (finalTranscript s) "") as H.
  destruct (accumulate (drop i rs) (finalTranscript s) "") as [f im].
  simpl in *. auto.
Qed.

(** The restart handling never touches the transcript. *)
Lemma handleRecognitionEnd_finalTranscript t s u :
  finalTranscript (fst (handleRecognitionEnd t s u)) = finalTranscript s.
Proof.
  unfold handleRecognitionEnd.
  destruct (restarts s); [destruct t|]; reflexivity.
Qed.

Lemma step_count_bounded e su :
  recognitionRestartCount (fst su) <= MAX_RESTART_ATTEMPTS ->
  recognitionRestartCount (fst (step e su)) <= MAX_RESTART_ATTEMPTS.
Proof.
  destruct su as [s u]. unfold MAX_RESTART_ATTEMPTS. simpl. intros H.
  destruct e as [|i rs|c|t| | |t| |]; simpl; try lia.
  - now destruct (handleRecognitionResult_fields i rs s u) as (-> & _).
  - unfold handleRecognitionEnd, restarts, MAX_RESTART_ATTEMPTS.
    destruct (isRecognizing s); simpl; [|lia].
    destruct (Nat.ltb_spec (recognitionRestartCount s) 3); [|simpl; lia].
    destruct t; simpl; lia.
  - unfold ceilingTimerFired.
    destruct (recognitionTimeout s); [destruct (isRecognizing s)|]; simpl; lia.
  - unfold startRecognition. destruct (speechApi s); simpl; lia.
  - unfold setupSpeechRecognition. destruct (speechApi s); simpl; lia.
Qed.

Lemma run_count_bounded es : forall su,
  recognitionRestartCount (fst su) <= MAX_RESTART_ATTEMPTS ->
  recognitionRestartCount (fst (run es su)) <= MAX_RESTART_ATTEMPTS.
Proof.
  induction es as [|e es IH]; intros su H; simpl; [exact H|].
  apply IH, step_count_bounded, H.
Qed.

(** Between two restart attempts the counter either was reset to zero
    or it kept its value and the transcript only grew. *)
Lemma step_quiet e su t0 n0 :
  isCallback e = true ->
  isRestartAttempt e (fst su) = false ->
  (recognitionRestartCount (fst su) = 0 \/
   (recognitionRestartCount (fst su) = n0 /\ extends t0 (finalTranscript (fst su)))) ->
  (recognitionRestartCount (fst (step e su)) = 0 \/
   (recognitionRestartCount (fst (step e su)) = n0 /\
    extends t0 (finalTranscript (fst (step e su))))).
Proof.
  destruct su as [s u]. simpl. intros Hc Hq H.
  destruct e as [|i rs|c|t| | |t| |]; simpl in *; try discriminate.
  - now left.
  - destruct (handleRecognitionResult_fields i rs s u) as (-> & _ & Hx).
    destruct H as [H|[H1 H2]]; [now left|right]. split; [exact H1|].
    eapply extends_trans; eauto.
  - exact H.
  - unfold handleRecognitionEnd. rewrite Hq. exact H.
  - unfold ceilingTimerFired.
    destruct (recognitionTimeout s); [destruct (isRecognizing s)|]; exact H.
Qed.

Lemma run_quiet es : forall su t0 n0,
  forallb isCallback es = true ->
  noRestart es su = true ->
  (recognitionRestartCount (fst su) = 0 \/
   (recognitionRestartCount (fst su) = n0 /\ extends t0 (finalTranscript (fst su)))) ->
  (recognitionRestartCount (fst (run es su)) = 0 \/
   (recognitionRestartCount (fst (run es su)) = n0 /\
    extends t0 (finalTranscript (fst (run es su))))).
Proof.
  induction es as [|e es IH]; intros su t0 n0 Hc Hq H; simpl in *; [exact H|].
  apply andb_prop in Hc as [Hc1 Hc2]. apply andb_prop in Hq as [Hq1 Hq2].
  apply IH; [exact Hc2|exact Hq2|].
  apply step_quiet; [exact Hc1| |exact H].
  now destruct (isRestartAttempt e (fst su)).
Qed.

Lemma cap_step t s u :
  capExceeded s ->
  let s' := fst (handleRecognitionEnd t s u) in
  isRecognizing s' = false /\
  finalTranscript s' = finalTranscript s /\
  interimTranscript s' = interimTranscript s /\
  recognitionRestartCount s' = recognitionRestartCount s /\
  snd (handleRecognitionEnd t s u) = u.
Proof.
  intros [Ha Hc]. unfold handleRecognitionEnd, restarts. rewrite Ha. simpl.
  destruct (Nat.ltb_spec (recognitionRestartCount s) MAX_RESTART_ATTEMPTS); [lia|].
  simpl. auto.
Qed.

(** C1. For every sequence of events of the Transcription Accumulator,
    started from its initial state: (1) the restart counter never
    exceeds 3; (2) when the recognizer ends in an active state whose
    counter has reached the cap, the accumulator becomes idle, nothing
    is reported to the user, and the transcript is exactly what it was;
    (3) the [finalTranscript] held when the last restart attempt was
    made is still there, unchanged, at the start of the transcript left
    after the cap, whatever the recognizer delivered in between. *)
Theorem restart_cap (api : bool) (u0 : Ui.State) (es : list Event) :
  let su := run es (initial api, u0) in
  recognitionRestartCount (fst su) <= 3 /\
  (forall t, capExceeded (fst su) ->
     let su' := step (RecognitionEnded t) su in
     isRecognizing (fst su') = false /\
     finalTranscript (fst su') = finalTranscript (fst su) /\
     Ui.errors (snd su') = Ui.errors (snd su)) /\
  (forall t1 es2 t2,
     isRestartAttempt (RecognitionEnded t1) (fst su) = true ->
     let su1 := step (RecognitionEnded t1) su in
     forallb isCallback es2 = true ->
     noRestart es2 su1 = true ->
     let su2 := run es2 su1 in
     capExceeded (fst su2) ->
     let su3 := step (RecognitionEnded t2) su2 in
     isRecognizing (fst su3) = false /\
     recognitionRestartCount (fst su3) = 3 /\
     extends (finalTranscript (fst su)) (finalTranscript (fst su3))).
Proof.
  intros su.
  assert (Hb : recognitionRestartCount (fst su) <= 3)
    by (apply run_count_bounded; simpl; unfold MAX_RESTART_ATTEMPTS; lia).
  split; [exact Hb|split].
  - intros t Hcap su'. subst su'. destruct su as [s u]. simpl in *.
    destruct (cap_step t s u Hcap) as (H1 & H2 & _ & _ & H5).
    rewrite H5. auto.
  - intros t1 es2 t2 Hr su1 Hc Hq su2 Hcap su3.
    assert (Hb2 : recognitionRestartCount (fst su2) <= 3).
    { apply run_count_bounded, step_count_bounded. exact Hb. }
    pose proof (run_quiet es2 su1 (finalTranscript (fst su))
                  (recognitionRestartCount (fst su1)) Hc Hq) as Hrun.
    fold su2 in Hrun.
    destruct Hrun as [H0|[Hn Hx]].
    + right. split; [reflexivity|]. subst su1. destruct su as [s u]. simpl.
      rewrite handleRecognitionEnd_finalTranscript. apply extends_refl.
    + destruct Hcap as [_ Hcap]. unfold MAX_RESTART_ATTEMPTS in Hcap. lia.
    + subst su3. destruct su2 as [s2 u2]. simpl in *.
      destruct (cap_step t2 s2 u2 Hcap) as (H1 & H2 & _ & H4 & _).
      rewrite H1, H2, H4. destruct Hcap as [_ Hcap].
      unfold MAX_RESTART_ATTEMPTS in Hcap. repeat split; [lia|exact Hx].
Qed.

(** The scenario in which the cap is reached: the recognizer starts,
    confirms [hello], ends three times in a row (three restart
    attempts), confirms [ world], and ends a fourth time. *)
Lemma restart_cap_witness :
  let su := run [RecognitionStarted; RecognitionResult 0 [(true, "hello")];
                 RecognitionEnded false; RecognitionEnded false]
              (initial true, Ui.initial) in
  let su1 := step (RecognitionEnded false) su in
  let su2 := run [RecognitionResult 1 [(true, "hello"); (true, " world")]] su1 in
  let su3 := step (RecognitionEnded false) su2 in
  recognitionRestartCount (fst su) = 2 /\
  finalTranscript (fst su) = "hello" /\
  capExceeded (fst su2) /\
  isRecognizing (fst su3) = false /\
  recognitionRestartCount (fst su3) = 3 /\
  finalTranscript (fst su3) = finalTranscript (fst su2) /\
  finalTranscript (fst su3) = "hello world" /\
  extends (finalTranscript (fst su)) (finalTranscript (fst su3)).
Proof.
  assert (Hcap : capExceeded
            (fst (run [RecognitionStarted; RecognitionResult 0 [(true, "hello")];
                       RecognitionEnded false; RecognitionEnded false;
                       RecognitionEnded false;
                       RecognitionResult 1 [(true, "hello"); (true, " world")]]
                    (initial true, Ui.initial)))).
  { split; [reflexivity|]. vm_compute. lia. }
  pose proof (restart_cap true Ui.initial
                [RecognitionStarted; RecognitionResult 0 [(true, "hello")];
                 RecognitionEnded false; RecognitionEnded false]) as (_ & _ & H).
  specialize (H false [RecognitionResult 1 [(true, "hello"); (true, " world")]] false
                eq_refl eq_refl eq_refl Hcap).
  destruct H as (H1 & H2 & H3).
  pose proof (restart_cap true Ui.initial
                [RecognitionStarted; RecognitionResult 0 [(true, "hello")];
                 RecognitionEnded false; RecognitionEnded false;
                 RecognitionEnded false;
                 RecognitionResult 1 [(true, "hello"); (true, " world")]]) as (_ & G & _).
  destruct (G false Hcap) as (_ & G2 & _).
  split; [reflexivity|]. split; [reflexivity|]. split; [exact Hcap|].
  split; [exact H1|]. split; [exact H2|]. split; [exact G2|].
  split; [reflexivity|exact H3].
Defined.

End SpeechFacts.

(** ** Capture Buffer *)

Section CaptureFacts.
Import Audio.

Lemma CaptureInv_not_twoActive c : CaptureInv c -> ~ twoActive c.
Proof.
  intros H (i & j & Hne & (a & Ha & Ha') & (b & Hb & Hb')).
  pose proof (inv_current c H i a Ha Ha') as E1.
  pose proof (inv_current c H j b Hb Hb') as E2.
  congruence.
Qed.

Lemma CaptureInv_initial : CaptureInv initialCapture.
Proof.
  split; simpl; intros; try lia; try discriminate;
    try (match goal with H : _ ∈ [] |- _ => inversion H end).
Qed.

Lemma settled_spec c :
  settled c = true ->
  awaitingStop c = [] /\ awaitingMic c = 0 /\
  forall i, recorders c !! i <> Some Stopping.
Proof.
  unfold settled. destruct (awaitingStop c); [|discriminate].
  destruct (awaitingMic c); [|discriminate].
  intros H. repeat split. intros i Hi.
  rewrite forallb_forall in H.
  apply list_elem_of_lookup_2, list_elem_of_In in Hi.
  specialize (H _ Hi). now rewrite bool_decide_eq_true_2 in H.
Qed.

(** In a settled state without a recording recorder nothing holds the
    hardware. *)
Lemma settled_all_released c :
  CaptureInv c -> settled c = true ->
  (forall r, mediaRecorder c = Some r -> recorders c !! r <> Some Recording) ->
  forall i a, recorders c !! i = Some a -> a = Released.
Proof.
  intros HI Hs Hno i a Hi. apply settled_spec in Hs as (_ & _ & Hs).
  destruct a; [| |reflexivity].
  - pose proof (inv_current c HI i Recording Hi eq_refl) as E.
    now destruct (Hno i E).
  - now destruct (Hs i).
Qed.

Lemma stopRecording_cases c :
  (exists r, mediaRecorder c = Some r /\ recorders c !! r = Some Recording /\
     snd (stopRecording c) = Some r /\
     recorders (fst (stopRecording c)) = <[r := Stopping]> (recorders c)) \/
  ((forall r, mediaRecorder c = Some r -> recorders c !! r <> Some Recording) /\
     snd (stopRecording c) = None /\
     recorders (fst (stopRecording c)) = recorders c).
Proof.
  unfold stopRecording. destruct (mediaRecorder c) as [r|] eqn:Em.
  - destruct (recorders c !! r) as [[]|] eqn:El; simpl.
    + left. exists r. auto.
    + right. repeat split; auto; intros r' [= <-]; congruence.
    + right. repeat split; auto; intros r' [= <-]; congruence.
    + right. repeat split; auto; intros r' [= <-]; congruence.
  - right. repeat split; auto; intros r' [=].
Qed.

Lemma stopRecording_frame c :
  mediaRecorder (fst (stopRecording c)) = mediaRecorder c /\
  audioChunks (fst (stopRecording c)) = audioChunks c /\
  awaitingStop (fst (stopRecording c)) = awaitingStop c /\
  awaitingMic (fst (stopRecording c)) = awaitingMic c.
Proof.
  unfold stopRecording. destruct (mediaRecorder c) as [r|]; simpl; auto.
  destruct (recorders c !! r) as [[]|]; simpl; auto.
Qed.

Lemma lookup_insert_holds (l : list Recorder) r i a x :
  <[r := x]> l !! i = Some a -> holdsHardware a = true ->
  (i = r /\ a = x) \/ (i <> r /\ l !! i = Some a).
Proof.
  intros H Ha. destruct (decide (i = r)) as [->|Hne].
  - left. split; [reflexivity|].
    destruct (decide (r < length l)) as [Hlt|Hge].
    + rewrite list_lookup_insert_eq in H by exact Hlt. congruence.
    + rewrite list_insert_ge in H by lia.
      apply lookup_lt_Some in H. lia.
  - right. split; [exact Hne|].
    now rewrite list_lookup_insert_ne in H by congruence.
Qed.

Lemma stopRecording_inv c :
  CaptureInv c -> settled c = true -> CaptureInv (fst (stopRecording c)).
Proof.
  intros HI Hs.
  destruct (stopRecording_frame c) as (Em & _ & Es & Ea).
  destruct (settled_spec c Hs) as (Hs1 & Hs2 & _).
  split; rewrite ?Em, ?Es, ?Ea, ?Hs1, ?Hs2; simpl; try lia.
  - intros i a Hi Ha.
    destruct (stopRecording_cases c) as [(r & Hm & Hl & _ & Hr)|(_ & _ & Hr)];
      rewrite Hr in Hi.
    + apply lookup_insert_holds in Hi as [[-> _]|[_ Hi]]; [exact Hm| |exact Ha].
      exact (inv_current c HI i a Hi Ha).
    + exact (inv_current c HI i a Hi Ha).
  - intros r Hr. inversion Hr.
Qed.

Lemma startRecording_inv c :
  CaptureInv c -> settled c = true -> CaptureInv (startRecording c).
Proof.
  intros HI Hs. unfold startRecording.
  pose proof (stopRecording_inv c HI Hs) as HI'.
  destruct (stopRecording_frame c) as (Em & _ & Es & Ea).
  destruct (settled_spec c Hs) as (Hs1 & Hs2 & _).
  destruct (stopRecording_cases c) as [(r & Hm & Hl & Hp & Hr)|(Hno & Hp & Hr)];
    destruct (stopRecording c) as [c' p]; simpl in *; subst p.
  - split; simpl.
    + apply (inv_current c' HI').
    + rewrite Ea, Es, Hs1, Hs2. simpl. lia.
    + rewrite Ea, Hs2. congruence.
    + rewrite Es, Hs1, Em. simpl. intros r' Hr'.
      apply list_elem_of_singleton in Hr'. congruence.
  - unfold requestMicrophone. split; simpl.
    + apply (inv_current c' HI').
    + rewrite Ea, Es, Hs1, Hs2. simpl. lia.
    + intros _ i a Hi. rewrite Hr in Hi.
      exact (settled_all_released c HI Hs Hno i a Hi).
    + rewrite Es, Hs1. intros r' Hr'. inversion Hr'.
Qed.

Lemma recorderStopped_inv r c : CaptureInv c -> CaptureInv (recorderStopped r c).
Proof.
  intros HI. unfold recorderStopped.
  assert (Hgo : forall a, recorders c !! r = Some a -> holdsHardware a = true ->
    CaptureInv
      {| recorders := <[r := Released]> (recorders c);
         mediaRecorder := mediaRecorder c;
         audioChunks := match filter (fun x => x = r) (awaitingStop c) with
                        | [] => audioChunks c | _ => [] end;
         recordingIndicator := false;
         awaitingStop := filter (fun x => x <> r) (awaitingStop c);
         awaitingMic := length (filter (fun x => x = r) (awaitingStop c)) + awaitingMic c |}).
  { intros a0 Hl Hh.
    pose proof (inv_current c HI r a0 Hl Hh) as Hm.
    pose proof (inv_single c HI) as Hsingle.
    split; simpl.
    - intros i a Hi Ha.
      apply lookup_insert_holds in Hi as [[_ ->]|[_ Hi]]; [discriminate| |exact Ha].
      exact (inv_current c HI i a Hi Ha).
    - destruct (awaitingStop c) as [|x [|y l]]; simpl in *; [lia| |lia].
      rewrite !filter_cons, !filter_nil.
      destruct (decide (x = r)), (decide (x <> r)); simpl; try lia; congruence.
    - intros _ i a Hi.
      destruct (decide (i = r)) as [->|Hne].
      + rewrite list_lookup_insert_eq in Hi by (eapply lookup_lt_Some; eauto).
        congruence.
      + rewrite list_lookup_insert_ne in Hi by congruence.
        destruct a; [| |reflexivity];
          pose proof (inv_current c HI i _ Hi eq_refl); congruence.
    - intros r' Hr'. apply list_elem_of_filter in Hr' as [_ Hr'].
      exact (inv_stop c HI r' Hr'). }
  destruct (recorders c !! r) as [[]|] eqn:El; try exact HI;
    eapply Hgo; eauto.
Qed.

Lemma dataAvailable_inv r d c : CaptureInv c -> CaptureInv (dataAvailable r d c).
Proof.
  intros HI. unfold dataAvailable, ondataavailable.
  destruct (recorders c !! r) as [[]|]; try exact HI;
    destruct (Nat.ltb 0 (String.length d)); try exact HI;
    destruct HI; split; simpl; assumption.
Qed.

Lemma microphoneSettled_inv g c u :
  CaptureInv c -> CaptureInv (snd (fst (microphoneSettled g c u))).
Proof.
  intros HI. unfold microphoneSettled.
  destruct (awaitingMic c) as [|n] eqn:Ea; [exact HI|].
  pose proof (inv_single c HI) as Hsingle. rewrite Ea in Hsingle.
  assert (n = 0) by lia. subst n.
  assert (Hs : awaitingStop c = []) by (destruct (awaitingStop c); [reflexivity|simpl in *; lia]).
  assert (Hrel : forall i a, recorders c !! i = Some a -> a = Released)
    by (apply (inv_mic c HI); lia).
  destruct g; simpl; split; simpl; rewrite ?Hs; simpl; try lia;
    try (intros r Hr; apply elem_of_nil in Hr; contradiction).
  - intros i a Hi Ha.
    destruct (decide (i < length (recorders c))) as [Hlt|Hge].
    + rewrite lookup_app_l in Hi by exact Hlt.
      apply Hrel in Hi. subst a. discriminate.
    + pose proof (lookup_lt_Some _ _ _ Hi) as Hlen.
      rewrite length_app in Hlen. simpl in Hlen.
      f_equal. lia.
  - apply (inv_current c HI).
Qed.

Lemma captureStep_inv e c :
  CaptureInv c -> (isCall e = true -> settled c = true) -> CaptureInv (captureStep e c).
Proof.
  intros HI Hs. destruct e; simpl in *.
  - apply startRecording_inv; auto.
  - apply stopRecording_inv; auto.
  - now apply recorderStopped_inv.
  - now apply dataAvailable_inv.
  - now apply microphoneSettled_inv.
Qed.

Lemma captureRun_inv es : forall c,
  CaptureInv c -> oneAtATime es c = true -> CaptureInv (captureRun es c).
Proof.
  induction es as [|e es IH]; intros c HI Hs; simpl in *; [exact HI|].
  apply andb_prop in Hs as [Hs1 Hs2].
  apply IH; [|exact Hs2].
  apply captureStep_inv; [exact HI|].
  intros Hc. now rewrite Hc in Hs1.
Qed.

End CaptureFacts.

Section CaptureClaims.
Import Audio.

(** C8 on the code. Two calls of [startRecording] that overlap: the
    first is suspended waiting for the microphone when the second is
    made; the second finds no recorder to stop and waits for the
    microphone too; both are granted, and the first recorder keeps
    recording after the variable was overwritten with the second.  The
    page reaches this through its own controls: start is clicked, then
    stop while the microphone request is pending (the submission that
    follows finds no speech and clears [isRecording]), then start
    again, and the microphone is granted.  The stop button then stops
    the second recorder only. *)
Theorem overlapping_starts_two_handles :
  (let c := captureRun [CallStartRecording; CallStartRecording;
                        MicrophoneSettled true; MicrophoneSettled true]
              initialCapture in
   recorders c = [Recording; Recording] /\ mediaRecorder c = Some 1 /\
   twoActive c) /\
  (let w := Interview.run
              [Interview.ClickStart; Interview.ClickStop;
               Interview.SendAudioTimer; Interview.ClickStart;
               Interview.MicrophoneSettled true;
               Interview.MicrophoneSettled true]
              (Interview.initialWorld true false) in
   let w' := Interview.run [Interview.ClickStop; Interview.RecorderStopped 1] w in
   recorders (Interview.capture w) = [Recording; Recording] /\
   twoActive (Interview.capture w) /\
   recorders (Interview.capture w') = [Recording; Released]).
Proof.
  assert (H : forall c, recorders c = [Recording; Recording] -> twoActive c).
  { intros c E. exists 0, 1. split; [discriminate|].
    rewrite E. split; exists Recording; split; reflexivity. }
  split; repeat split; try apply H; reflexivity.
Qed.

(** What awaiting the stop does guarantee. (1) For every sequence of
    [startRecording] and [stopRecording] calls and recorder events in
    which each call is made after the promises of the earlier calls have
    settled, no two recorder handles ever hold the hardware at once. (2) A
    [startRecording] that finds a recording recorder calls its [stop()],
    creates no handle and does not request the microphone; it is
    suspended until that recorder's stop event, which releases the
    hardware before the call goes on. *)
Theorem capture_one_handle :
  (forall es, oneAtATime es initialCapture = true ->
     ~ twoActive (captureRun es initialCapture)) /\
  (forall c r, mediaRecorder c = Some r -> recorders c !! r = Some Recording ->
     let c' := startRecording c in
     recorders c' = <[r := Stopping]> (recorders c) /\
     awaitingStop c' = (awaitingStop c ++ [r])%list /\
     awaitingMic c' = awaitingMic c /\
     recorders (recorderStopped r c') !! r = Some Released /\
     S (awaitingMic c) <= awaitingMic (recorderStopped r c')).
Proof.
  split.
  - intros es H. apply CaptureInv_not_twoActive, captureRun_inv;
      [apply CaptureInv_initial|exact H].
  - intros c r Hm Hl c'. subst c'. unfold startRecording, stopRecording.
    rewrite Hm, Hl. simpl. repeat split.
    + unfold recorderStopped. simpl.
      rewrite list_lookup_insert_eq by (eapply lookup_lt_Some; eauto).
      simpl. apply list_lookup_insert_eq.
      rewrite length_insert. eapply lookup_lt_Some; eauto.
    + unfold recorderStopped. simpl.
      rewrite list_lookup_insert_eq by (eapply lookup_lt_Some; eauto).
      simpl. rewrite filter_app, length_app, filter_cons, filter_nil.
      destruct (decide (r = r)); [simpl; lia|congruence].
Qed.

(** A run in which the calls do not overlap: record, receive data,
    stop, and record again. *)
Lemma capture_one_handle_witness :
  let es := [CallStartRecording; MicrophoneSettled true; DataAvailable 0 "abc";
             CallStopRecording; RecorderStopped 0;
             CallStartRecording; MicrophoneSettled true] in
  let c := captureRun es initialCapture in
  oneAtATime es initialCapture = true /\
  recorders c = [Released; Recording] /\
  ~ twoActive c /\
  recorders (startRecording c) = [Released; Stopping] /\
  awaitingMic (startRecording c) = 0 /\
  recorders (recorderStopped 1 (startRecording c)) !! 1 = Some Released.
Proof.
  split; [reflexivity|]. split; [reflexivity|].
  split; [apply (proj1 capture_one_handle); reflexivity|].
  pose proof (proj2 capture_one_handle
                (captureRun [CallStartRecording; MicrophoneSettled true;
                             DataAvailable 0 "abc"; CallStopRecording;
                             RecorderStopped 0; CallStartRecording;
                             MicrophoneSettled true] initialCapture)
                1 eq_refl eq_refl) as (H1 & _ & H3 & H4 & _).
  split; [exact H1|]. split; [exact H3|exact H4].
Defined.

End CaptureClaims.

(** ** Playback Negotiator *)

Section PlaybackFacts.
Import Audio Interview.

Lemma tryFormats_attempts p u :
  attempts (snd (fst (tryFormats formats p u))) =
  (attempts p ++ [{| mime := "audio/mp3"; ext := "mp3" |}])%list.
Proof.
  unfold tryFormats, formats, tryFormat, callAnimation, playAudioCatch, callAnimation.
  simpl. destruct (animationInScope p); reflexivity.
Qed.

(** The [onerror] handler starts no further attempt and leaves the chat,
    with its animation classes, as it is. *)
Lemma playbackError_no_retry p u :
  handlerFormat p = Some {| mime := "audio/mp3"; ext := "mp3" |} ->
  attempts (fst (playbackError p u)) = attempts p /\
  Ui.chat (snd (playbackError p u)) = Ui.chat u /\
  Ui.currentAssistantMessageDiv (snd (playbackError p u)) =
    Ui.currentAssistantMessageDiv u.
Proof.
  intros H. unfold playbackError. rewrite H. simpl. auto.
Qed.

(** C6 on the code. An assistant message with an audio payload that
    [atob] accepts arrives, and playback of the first candidate fails.
    Whether or not the animation functions resolve in audio.js, only
    [audio/mp3] was ever handed to [play()], and the message keeps its
    speaking animation. *)
Theorem playback_first_candidate_only (speechApi inScope : bool) :
  let m := {| role := Some "assistant"; content := Some "Hello";
              audio := Some "SGVsbG8="; interviewComplete := false |} in
  let w := run [SocketMessage (Object m) true; PlaybackError]
             (initialWorld speechApi inScope) in
  attempts (playback w) = [{| mime := "audio/mp3"; ext := "mp3" |}] /\
  Ui.chat (ui w) = [{| Ui.div_id := 0; Ui.div_class := Ui.ClsAssistant;
                       Ui.div_text := "Hello"; Ui.div_speaking := true |}] /\
  Ui.currentAssistantMessageDiv (ui w) = Some 0.
Proof.
  destruct speechApi, inScope; vm_compute; auto.
Qed.

End PlaybackFacts.

(** ** Session Connection and Turn Coordinator *)

Section InterviewFacts.
Import Interview.

Lemma whitespaceOnly_trimStart s : Js.whitespaceOnly s = true -> Js.trimStart s = "".
Proof. unfold Js.whitespaceOnly. apply String.eqb_eq. Qed.

Lemma whitespaceOnly_trim s : Js.whitespaceOnly s = true -> Js.trim s = "".
Proof. intros H. unfold Js.trim. now rewrite whitespaceOnly_trimStart. Qed.

Lemma saysNothing_noSpeech t : saysNothing t -> noSpeech t = true.
Proof.
  unfold noSpeech. intros [->|[H| ->]]; [reflexivity| |reflexivity].
  rewrite (whitespaceOnly_trim t H). simpl.
  now rewrite orb_true_r.
Qed.

(** C4. Whatever the state, an inbound payload that does not parse is
    logged on the console, shown to the user neither as an error nor as
    a message, and leaves the coordinator unblocked:
    [isProcessingResponse] is false and the loading indicator is
    hidden; the connection and the rest of the coordinator's state are
    untouched.  The same holds for a payload that parses to a value
    that is no object. *)
Theorem parse_failure_clears_guard (decodes : bool) (w : World) :
  let w' := handleWebSocketMessage Malformed decodes w in
  isProcessingResponse (iv w') = false /\
  Ui.loadingVisible (ui w') = false /\
  Ui.console (ui w') =
    (Ui.console (ui w) ++ ["Error handling WebSocket message:"; "Raw message data:"])%list /\
  Ui.errors (ui w') = Ui.errors (ui w) /\
  Ui.chat (ui w') = Ui.chat (ui w) /\
  iv w' = set_isProcessingResponse false (iv w) /\
  handleWebSocketMessage NotAnObject decodes w = w'.
Proof.
  simpl. unfold catchMessageError, onIv, onUi. simpl.
  rewrite <- app_assoc. simpl. repeat split.
Qed.

Lemma orElse_truthy v : Js.truthy (Some (Js.orElse v "System message")) = true.
Proof.
  unfold Js.truthy, Js.orElse. destruct v as [c|]; [|reflexivity].
  destruct (String.eqb c "") eqn:E; [reflexivity|]. now rewrite E.
Qed.

Lemma displayMessage_system c u :
  Js.truthy (Some c) = true ->
  Ui.displayMessage (Some "system") (Some c) u = Ui.displaySystemMessage c u.
Proof.
  intros H. unfold Ui.displayMessage. rewrite H.
  change (Js.truthy (Some "system")) with true. cbv iota.
  change (Js.orElse (Some "system") "system") with "system".
  change (String.eqb "system" "assistant") with false.
  change (String.eqb "system" "user") with false. cbv iota.
  unfold Js.truthy in H. unfold Js.orElse.
  destruct (String.eqb c ""); [discriminate|reflexivity].
Qed.

(** C9. A parsed message without a role tag (absent or empty) is given
    the role [system], shown in the chat as a system message with its
    content (or with the text [System message] when it has none), and
    completes the turn in flight; it is not reported as an error. *)
Theorem missing_role_defaults_to_system (m : Message) (decodes : bool) (w : World) :
  Js.truthy (role m) = false ->
  let w' := handleWebSocketMessage (Object m) decodes w in
  roleOf m = "system" /\
  Ui.chat (ui w') =
    (Ui.chat (ui w) ++
     [{| Ui.div_id := Ui.nextDiv (ui w); Ui.div_class := Ui.ClsSystem;
         Ui.div_text := Js.orElse (content m) "System message";
         Ui.div_speaking := false |}])%list /\
  Ui.errors (ui w') = Ui.errors (ui w) /\
  Ui.console (ui w') = Ui.console (ui w) /\
  isProcessingResponse (iv w') = false /\
  Ui.loadingVisible (ui w') = false.
Proof.
  intros Hr w'.
  assert (E : w' = checkComplete m (processingComplete
                (with_ui (Ui.displaySystemMessage
                            (Js.orElse (content m) "System message") (ui w)) w))).
  { subst w'. unfold handleWebSocketMessage, roleOf. rewrite Hr.
    change (String.eqb "system" "assistant") with false.
    change (String.eqb "system" "system") with true. cbv iota.
    unfold onUi. now rewrite displayMessage_system by apply orElse_truthy. }
  rewrite E. unfold roleOf. rewrite Hr.
  unfold checkComplete, processingComplete, onIv, onUi, Ui.displaySystemMessage.
  destruct (interviewComplete m); simpl; repeat split.
Qed.

Lemma missing_role_defaults_to_system_witness :
  let m := {| role := None; content := Some "Welcome"; audio := None;
              interviewComplete := false |} in
  let w' := handleWebSocketMessage (Object m) true (initialWorld true false) in
  Js.truthy (role m) = false /\
  Ui.chat (ui w') =
    [{| Ui.div_id := 0; Ui.div_class := Ui.ClsSystem;
        Ui.div_text := "Welcome"; Ui.div_speaking := false |}] /\
  isProcessingResponse (iv w') = false.
Proof.
  pose proof (missing_role_defaults_to_system
                {| role := None; content := Some "Welcome"; audio := None;
                   interviewComplete := false |} true (initialWorld true false)
                eq_refl) as (_ & H2 & _ & _ & H5 & _).
  split; [reflexivity|]. split; [exact H2|exact H5].
Defined.

(** Each module reads the others' state unchanged. *)
Lemma iv_onUi f w : iv (onUi f w) = iv w.
Proof. reflexivity. Qed.
Lemma ui_onUi f w : ui (onUi f w) = f (ui w).
Proof. reflexivity. Qed.
Lemma speech_onUi f w : speech (onUi f w) = speech w.
Proof. reflexivity. Qed.
Lemma capture_onUi f w : capture (onUi f w) = capture w.
Proof. reflexivity. Qed.
Lemma playback_onUi f w : playback (onUi f w) = playback w.
Proof. reflexivity. Qed.
Lemma iv_onIv f w : iv (onIv f w) = f (iv w).
Proof. reflexivity. Qed.
Lemma ui_onIv f w : ui (onIv f w) = ui w.
Proof. reflexivity. Qed.
Lemma speech_onIv f w : speech (onIv f w) = speech w.
Proof. reflexivity. Qed.
Lemma capture_onIv f w : capture (onIv f w) = capture w.
Proof. reflexivity. Qed.
Lemma playback_onIv f w : playback (onIv f w) = playback w.
Proof. reflexivity. Qed.

Lemma iv_logEncodingFailure c b w : iv (logEncodingFailure c b w) = iv w.
Proof. now destruct c, b. Qed.
Lemma speech_logEncodingFailure c b w : speech (logEncodingFailure c b w) = speech w.
Proof. now destruct c, b. Qed.
Lemma capture_logEncodingFailure c b w : capture (logEncodingFailure c b w) = capture w.
Proof. now destruct c, b. Qed.
Lemma playback_logEncodingFailure c b w : playback (logEncodingFailure c b w) = playback w.
Proof. now destruct c, b. Qed.
Lemma errors_logEncodingFailure c b w :
  Ui.errors (ui (logEncodingFailure c b w)) = Ui.errors (ui w).
Proof. now destruct c, b. Qed.
Lemma chat_logEncodingFailure c b w :
  Ui.chat (ui (logEncodingFailure c b w)) = Ui.chat (ui w).
Proof. now destruct c, b. Qed.
Lemma nextDiv_logEncodingFailure c b w :
  Ui.nextDiv (ui (logEncodingFailure c b w)) = Ui.nextDiv (ui w).
Proof. now destruct c, b. Qed.
Lemma loading_logEncodingFailure c b w :
  Ui.loadingVisible (ui (logEncodingFailure c b w)) = Ui.loadingVisible (ui w).
Proof. now destruct c, b. Qed.

Ltac world :=
  repeat (progress
            rewrite ?iv_onUi, ?ui_onUi, ?speech_onUi, ?capture_onUi,
              ?playback_onUi, ?iv_onIv, ?ui_onIv, ?speech_onIv,
              ?capture_onIv, ?playback_onIv, ?iv_logEncodingFailure,
              ?speech_logEncodingFailure, ?capture_logEncodingFailure,
              ?playback_logEncodingFailure);
  cbv beta.

Lemma displayMessage_user c u :
  Ui.errors (Ui.displayMessage (Some "user") c u) = Ui.errors u.
Proof.
  unfold Ui.displayMessage.
  change (Js.truthy (Some "user")) with true. cbv iota.
  change (Js.orElse (Some "user") "system") with "user".
  change (String.eqb "user" "assistant") with false.
  change (String.eqb "user" "user") with true. cbv iota.
  destruct (Js.truthy c); reflexivity.
Qed.

(** What [sendAudioResume] does in each of its three branches. *)
Lemma sendAudioResume_noSpeech a w :
  noSpeech (Speech.getTranscription (speech w)) = true ->
  sendAudioResume a w =
  onIv (set_isProcessingResponse false)
    (onUi (fun u => Ui.showError "No speech detected. Please try again."
                      (Ui.hideLoading u)) w).
Proof. intros H. unfold sendAudioResume. now rewrite H. Qed.

Lemma sendAudioResume_open a w :
  noSpeech (Speech.getTranscription (speech w)) = false ->
  isOpen (iv w) = true ->
  let transcript := Speech.getTranscription (speech w) in
  iv (sendAudioResume a w) =
    send {| out_type := TypeAudio; out_content := Js.orElse a "";
            out_transcription := Some transcript;
            out_voiceStyle := voiceStyle (iv w) |} (iv w) /\
  speech (sendAudioResume a w) = Speech.resetTranscription (speech w) /\
  Ui.errors (ui (sendAudioResume a w)) = Ui.errors (ui w).
Proof.
  intros H Ho. unfold sendAudioResume. rewrite H. cbv zeta.
  rewrite iv_onUi, Ho. cbn [iv ui speech with_speech].
  world. repeat split. now rewrite displayMessage_user.
Qed.

Lemma sendAudioResume_closed a w :
  noSpeech (Speech.getTranscription (speech w)) = false ->
  isOpen (iv w) = false ->
  let w' := sendAudioResume a w in
  isProcessingResponse (iv w') = false /\
  sent (iv w') = sent (iv w) /\
  suspendedSendAudio (iv w') = suspendedSendAudio (iv w) /\
  isRecording (iv w') = isRecording (iv w) /\
  connectCalls (iv w') = S (connectCalls (iv w)) /\
  Ui.loadingVisible (ui w') = false /\
  exists shown,
    Ui.errors (ui w') =
    (Ui.errors (ui w) ++
     "Connection lost. Please reload the page to reconnect." :: shown)%list.
Proof.
  intros H Hc. unfold sendAudioResume. rewrite H. cbv zeta.
  rewrite iv_onUi, Hc. unfold connectWebSocket.
  world.
  cbn [interviewId set_connect set_isProcessingResponse].
  destruct (Js.truthy (interviewId (iv w))); world;
    cbn -[Ui.displayMessage]; rewrite displayMessage_user; repeat split; eauto.
  exists ["No interview ID provided"]. now rewrite <- app_assoc.
Qed.

(** C5. An accepted [sendAudio] whose transcript is empty, consists of
    white space only, or is the sentinel placeholder sends nothing,
    clears the in-flight guard, leaves the coordinator idle with the
    loading indicator hidden, and reports that no speech was detected;
    no reconnect is attempted either.  The run is [sendAudio] followed
    by the completion of its encoding, which is where the transcript is
    read. *)
Theorem empty_transcript_not_submitted (blobToBase64 : option string) (w : World) :
  isProcessingResponse (iv w) = false ->
  suspendedSendAudio (iv w) = [] ->
  saysNothing (Speech.getTranscription (speech w)) ->
  let w' := audioEncoded blobToBase64 (sendAudio w) in
  sent (iv w') = sent (iv w) /\
  idle w' /\
  Ui.loadingVisible (ui w') = false /\
  Ui.errors (ui w') =
    (Ui.errors (ui w) ++ ["No speech detected. Please try again."])%list /\
  suspendedSendAudio (iv w') = [] /\
  connectCalls (iv w') = connectCalls (iv w).
Proof.
  intros Hf Hs Hn w'. subst w'. apply saysNothing_noSpeech in Hn.
  unfold sendAudio, idle. rewrite Hf. cbv zeta. world.
  destruct (Audio.audioChunks (capture w)) as [|c l].
  - rewrite sendAudioResume_noSpeech by (world; exact Hn).
    unfold audioEncoded. world.
    cbn [suspendedSendAudio set_isProcessingResponse set_isRecording].
    rewrite Hs. world. cbn. rewrite Hs. repeat split.
  - unfold audioEncoded. world.
    cbn [suspendedSendAudio set_isProcessingResponse set_isRecording
           set_suspendedSendAudio].
    rewrite Hs. cbn [app].
    rewrite sendAudioResume_noSpeech by (world; exact Hn).
    world. cbn. rewrite errors_logEncodingFailure. repeat split.
Qed.

Lemma empty_transcript_not_submitted_witness :
  let w := run [StartNewInterview (Some "42"); SocketOpen; ClickStart;
                MicrophoneSettled true; Recognizer Speech.RecognitionStarted;
                DataAvailable 0 "pcm"; ClickStop]
             (initialWorld true false) in
  let w' := audioEncoded (Some "cGNt") (sendAudio w) in
  let v := run [StartNewInterview (Some "42"); SocketOpen; ClickStart;
                MicrophoneSettled true; Recognizer Speech.RecognitionStarted;
                Recognizer (Speech.RecognitionResult 0 [(true, wideBlank)]);
                DataAvailable 0 "pcm"; ClickStop]
             (initialWorld true false) in
  let v' := audioEncoded (Some "cGNt") (sendAudio v) in
  Speech.getTranscription (speech w) = "" /\
  sent (iv w') = [] /\ idle w' /\ Ui.loadingVisible (ui w') = false /\
  Ui.errors (ui w') = ["No speech detected. Please try again."] /\
  Speech.getTranscription (speech v) = wideBlank /\
  sent (iv v') = [] /\
  Ui.errors (ui v') = ["No speech detected. Please try again."].
Proof.
  pose proof (empty_transcript_not_submitted (Some "cGNt")
                (run [StartNewInterview (Some "42"); SocketOpen; ClickStart;
                      MicrophoneSettled true; Recognizer Speech.RecognitionStarted;
                      DataAvailable 0 "pcm"; ClickStop]
                   (initialWorld true false))
                eq_refl eq_refl (or_introl eq_refl)) as (H1 & H2 & H3 & H4 & _).
  pose proof (empty_transcript_not_submitted (Some "cGNt")
                (run [StartNewInterview (Some "42"); SocketOpen; ClickStart;
                      MicrophoneSettled true; Recognizer Speech.RecognitionStarted;
                      Recognizer (Speech.RecognitionResult 0 [(true, wideBlank)]);
                      DataAvailable 0 "pcm"; ClickStop]
                   (initialWorld true false))
                eq_refl eq_refl (or_intror (or_introl eq_refl)))
    as (G1 & _ & _ & G4 & _).
  split; [reflexivity|]. split; [exact H1|]. split; [exact H2|].
  split; [exact H3|]. split; [exact H4|].
  split; [reflexivity|]. split; [exact G1|exact G4].
Defined.

(** C10. An audio submission goes out also when nothing was captured.
    An accepted [sendAudio] made while the connection is open, with a
    transcript that passes the no-speech test (it is not empty and,
    once trimmed, neither empty nor the placeholder) and with no
    captured fragment -- so that [getRecordedAudioBase64] yields [null]
    whatever the encoder would do -- sends exactly one message of type
    [audio], whose content is the empty string and whose transcription
    is the transcript; the guard stays set and no error is shown. *)
Theorem audio_turn_without_fragments (w : World) :
  isProcessingResponse (iv w) = false ->
  Audio.audioChunks (capture w) = [] ->
  noSpeech (Speech.getTranscription (speech w)) = false ->
  isOpen (iv w) = true ->
  let w' := sendAudio w in
  (forall blobToBase64,
     Audio.getRecordedAudioBase64 (Audio.audioChunks (capture w)) blobToBase64 = None) /\
  sent (iv w') =
    (sent (iv w) ++
     [{| out_type := TypeAudio; out_content := "";
         out_transcription := Some (Speech.getTranscription (speech w));
         out_voiceStyle := voiceStyle (iv w) |}])%list /\
  isProcessingResponse (iv w') = true /\
  Ui.errors (ui w') = Ui.errors (ui w).
Proof.
  intros Hf Hc Hn Ho w'. subst w'. rewrite Hc. split; [reflexivity|].
  unfold sendAudio. rewrite Hf. cbv zeta. world. rewrite Hc.
  set (w1 := onUi Ui.showLoading
               (onIv (fun s => set_isRecording false (set_isProcessingResponse true s)) w)).
  destruct (sendAudioResume_open (Audio.getRecordedAudioBase64 [] None) w1 Hn Ho)
    as (E1 & _ & E3).
  rewrite E1, E3. subst w1. world. cbn. repeat split.
Qed.

Lemma audio_turn_without_fragments_witness :
  let w := run [StartNewInterview (Some "42"); SocketOpen; ClickStart;
                MicrophoneSettled true; Recognizer Speech.RecognitionStarted;
                Recognizer (Speech.RecognitionResult 0 [(true, "hello world")]);
                ClickStop]
             (initialWorld true false) in
  Audio.audioChunks (capture w) = [] /\
  sent (iv (sendAudio w)) =
    [{| out_type := TypeAudio; out_content := "";
        out_transcription := Some "hello world"; out_voiceStyle := "Nova" |}].
Proof.
  pose proof (audio_turn_without_fragments
                (run [StartNewInterview (Some "42"); SocketOpen; ClickStart;
                      MicrophoneSettled true; Recognizer Speech.RecognitionStarted;
                      Recognizer (Speech.RecognitionResult 0 [(true, "hello world")]);
                      ClickStop]
                   (initialWorld true false))
                eq_refl eq_refl eq_refl eq_refl) as (_ & H & _).
  split; [reflexivity|exact H].
Defined.

(** C7 on the code. [handleTextSubmission] never calls
    [connectWebSocket], whatever the state; in particular a text typed
    after the connection closed abnormally is answered by the
    connection-lost report alone, with no reconnect, while [sendAudio]
    in the same situation reconnects once. *)
Theorem text_submission_makes_no_reconnect :
  (forall w, connectCalls (iv (handleTextSubmission w)) = connectCalls (iv w)) /\
  (let w := run [StartNewInterview (Some "42"); SocketOpen;
                 SocketClose true 1006 ""; TypeTextInput "hello"]
              (initialWorld true false) in
   let w' := handleTextSubmission w in
   isOpen (iv w) = false /\
   connectCalls (iv w) = 1 /\ connectCalls (iv w') = 1 /\
   websocket (iv w') = Some CLOSED /\
   isProcessingResponse (iv w') = false /\
   sent (iv w') = [] /\
   Ui.errors (ui w') =
     ["Connection closed: Unknown reason";
      "Connection lost. Please reload the page to reconnect."]) /\
  (let w := run [StartNewInterview (Some "42"); SocketOpen; ClickStart;
                 MicrophoneSettled true; Recognizer Speech.RecognitionStarted;
                 Recognizer (Speech.RecognitionResult 0 [(true, "hello")]);
                 SocketClose true 1006 ""; ClickStop]
              (initialWorld true false) in
   let w' := sendAudio w in
   isOpen (iv w) = false /\
   connectCalls (iv w) = 1 /\ connectCalls (iv w') = 2 /\
   websocket (iv w') = Some CONNECTING /\
   isProcessingResponse (iv w') = false /\
   sent (iv w') = []).
Proof.
  split; [|split; vm_compute; repeat split].
  intros w. unfold handleTextSubmission.
  destruct (String.eqb _ ""); [reflexivity|].
  destruct (isProcessingResponse (iv w)); [reflexivity|].
  cbv zeta. cbn [iv with_playback]. world.
  destruct (isOpen _); world; reflexivity.
Qed.

(** *** The insights button *)

(** Reading a field of interview.js after assignments to its fields. *)
Ltac fields :=
  cbn [iv ui speech capture playback with_ui with_speech
       with_capture with_playback with_iv onUi onIv
       websocket interviewId textResponseInput voiceStyle
       isProcessingResponse isRecording viewInsightsVisible
       startBtnDisabled stopBtnDisabled sent connectCalls awaitingOpen
       suspendedSendAudio sendAudioTimers recordingTimers nextTimer
       clickAwaitingStop clickAwaitingStart
       set_websocket set_interviewId set_textResponseInput
       set_voiceStyle set_isProcessingResponse set_isRecording
       set_viewInsightsVisible set_buttons send set_connect
       set_suspendedSendAudio set_sendAudioTimers set_timers
       set_clicks] in *.

Ltac latch :=
  unfold insightsShown in *; intros;
  repeat (first [ progress world | progress fields | case_match ]);
  try (intuition congruence).

Lemma connectWebSocket_shown w : insightsShown w -> insightsShown (connectWebSocket w).
Proof. unfold connectWebSocket. latch. Qed.

Lemma sendAudioResume_shown a w : insightsShown w -> insightsShown (sendAudioResume a w).
Proof.
  intros H. unfold sendAudioResume. cbv zeta.
  destruct (noSpeech _); [latch|]. world.
  destruct (isOpen _); [latch|].
  apply connectWebSocket_shown. latch.
Qed.

Lemma sendAudio_shown w : insightsShown w -> insightsShown (sendAudio w).
Proof.
  intros H. unfold sendAudio. destruct (isProcessingResponse _); [exact H|].
  cbv zeta. world. destruct (Audio.audioChunks _).
  - apply sendAudioResume_shown. latch.
  - latch.
Qed.

Lemma audioEncoded_shown b w : insightsShown w -> insightsShown (audioEncoded b w).
Proof.
  intros H. unfold audioEncoded. destruct (suspendedSendAudio _); [exact H|].
  apply sendAudioResume_shown. latch.
Qed.

Lemma handleTextSubmission_shown w :
  insightsShown w -> insightsShown (handleTextSubmission w).
Proof.
  intros H. unfold handleTextSubmission.
  destruct (String.eqb _ ""); [exact H|].
  destruct (isProcessingResponse _); [exact H|].
  cbv zeta. cbn [iv with_playback]. world. destruct (isOpen _); latch.
Qed.

Lemma handleWebSocketMessage_shown p d w :
  insightsShown w -> insightsShown (handleWebSocketMessage p d w).
Proof.
  intros H. unfold handleWebSocketMessage, catchMessageError, checkComplete,
    processingComplete.
  destruct p as [| |m]; [latch|latch|].
  destruct (String.eqb (roleOf m) "assistant").
  - destruct (Js.truthy (audio m)).
    + destruct (Audio.playAudio _ _ _ _) as [[[] p'] u']; [latch|].
      destruct (interviewComplete m); latch.
    + destruct (interviewComplete m); latch.
  - destruct (String.eqb (roleOf m) "system"); [destruct (interviewComplete m); latch|].
    destruct (Js.truthy (content m)); destruct (interviewComplete m); latch.
Qed.

Lemma stopRecognition_iv w : iv (stopRecognition w) = iv w.
Proof. unfold stopRecognition. now destruct (Speech.stopRecognition _ _ _). Qed.

Lemma startClickAfterStop_shown w : insightsShown w -> insightsShown (startClickAfterStop w).
Proof.
  unfold insightsShown, startClickAfterStop. cbv zeta. world.
  cbn [iv with_capture]. world. rewrite stopRecognition_iv. cbn. auto.
Qed.

Lemma startClickAfterStart_shown t r w :
  insightsShown w -> insightsShown (startClickAfterStart t r w).
Proof.
  unfold insightsShown, startClickAfterStart.
  destruct (Speech.startRecognition _ _) as [[b s] u].
  destruct (r && b); world; cbn; auto.
Qed.

Lemma startClick_shown w : insightsShown w -> insightsShown (startClick w).
Proof.
  intros H. unfold startClick. destruct (_ || _); [exact H|].
  destruct (Audio.stopRecording _) as [c [r|]].
  - latch.
  - apply startClickAfterStop_shown. latch.
Qed.

Lemma stopClick_shown w : insightsShown w -> insightsShown (stopClick w).
Proof.
  unfold insightsShown, stopClick. destruct (isRecording _); [|auto].
  cbv zeta. world. cbn [iv with_capture]. rewrite stopRecognition_iv. world.
  cbn. auto.
Qed.

Lemma repeatedly_shown n f :
  (forall w, insightsShown w -> insightsShown (f w)) ->
  forall w, insightsShown w -> insightsShown (repeatedly n f w).
Proof. intros Hf. induction n as [|n IH]; simpl; auto. Qed.

Lemma step_shown e w :
  isStartNewInterview e = false -> insightsShown w -> insightsShown (step e w).
Proof.
  intros He H. destruct e; try discriminate; cbn [step].
  - unfold socketOpen. latch.
  - unfold socketError. latch.
  - unfold socketClose. latch.
  - now apply handleWebSocketMessage_shown.
  - latch.
  - latch.
  - now apply handleTextSubmission_shown.
  - unfold clickStartButton. destruct (startBtnDisabled _); [exact H|].
    now apply startClick_shown.
  - unfold clickStopButton. destruct (stopBtnDisabled _); [exact H|].
    now apply stopClick_shown.
  - unfold recordingTimerFired. destruct (bool_decide _); [|exact H].
    cbv zeta. world. destruct (isRecording _); [|latch].
    unfold clickStopButton. world. destruct (stopBtnDisabled _); [latch|].
    apply stopClick_shown. latch.
  - unfold sendAudioTimerFired. destruct (sendAudioTimers _) eqn:E; [exact H|].
    apply sendAudio_shown. latch.
  - now apply sendAudio_shown.
  - now apply audioEncoded_shown.
  - unfold recorderStopped.
    destruct (Audio.recorders (capture w) !! r) as [[]|]; try exact H;
      cbv zeta; (apply repeatedly_shown; [apply startClickAfterStop_shown|]);
      latch.
  - latch.
  - unfold microphoneSettled.
    destruct (Audio.microphoneSettled _ _ _) as [[[r|] c] u]; [|exact H].
    cbv zeta. cbn [iv with_ui with_capture].
    destruct (oldestRequest _) as [[timer rest]|]; [|latch].
    apply startClickAfterStart_shown. latch.
  - destruct (Speech.step e (speech w, ui w)). latch.
  - destruct (Audio.playbackError _ _). latch.
  - destruct (Audio.playbackEnded _ _). latch.
Qed.

Lemma run_shown es : forall w,
  forallb (fun e => negb (isStartNewInterview e)) es = true ->
  insightsShown w -> insightsShown (run es w).
Proof.
  induction es as [|e es IH]; intros w He H; simpl in *; [exact H|].
  apply andb_prop in He as [He1 He2]. apply IH; [exact He2|].
  apply step_shown; [|exact H]. now destruct (isStartNewInterview e).
Qed.

Lemma playAudio_inScope d a p u :
  Audio.animationInScope p = true -> fst (fst (Audio.playAudio d a p u)) = false.
Proof.
  intros H. unfold Audio.playAudio.
  destruct a as [a|]; [|reflexivity].
  destruct (String.eqb a ""); [reflexivity|].
  destruct (String.eqb (Js.trim a) ""); [reflexivity|].
  destruct d; unfold Audio.tryFormats, Audio.formats, Audio.tryFormat,
    Audio.playAudioCatch, Audio.callAnimation; simpl; now rewrite H.
Qed.

Lemma startClickAfterStop_isRecording w :
  isRecording (iv (startClickAfterStop w)) = true.
Proof. unfold startClickAfterStop. cbv zeta. world. reflexivity. Qed.

(** C2, as stated, fails: the coordinator keeps no completion latch.
    After a completion-flagged message has shown the insights button,
    a click on the start button is accepted, and the recording that
    follows is submitted as an audio turn. *)
Lemma recording_accepted_after_completion :
  let finished := {| role := Some "system"; content := Some "Interview complete";
                     audio := None; interviewComplete := true |} in
  let w1 := run [StartNewInterview (Some "42"); SocketOpen;
                 SocketMessage (Object finished) true]
              (initialWorld true false) in
  let w2 := run [ClickStart; MicrophoneSettled true;
                 Recognizer Speech.RecognitionStarted;
                 Recognizer (Speech.RecognitionResult 0 [(true, "one more thing")]);
                 ClickStop; SendAudioTimer] w1 in
  viewInsightsVisible (iv w1) = true /\
  isRecording (iv (step ClickStart w1)) = true /\
  sent (iv w1) = [] /\
  sent (iv w2) =
    [{| out_type := TypeAudio; out_content := "";
        out_transcription := Some "one more thing"; out_voiceStyle := "Nova" |}].
Proof. vm_compute. repeat split. Qed.

(** C2, amended. (1) A completion-flagged message whose handling
    reaches the completion check shows the insights button. (2) Once
    shown, the button stays shown under every later event -- inbound
    messages with or without the flag, the recording controls, text
    submissions, timers, recorder, recognizer and playback events --
    except the start of a new interview. (3) The start-button handler
    refuses exactly when [isRecording] or [isProcessingResponse] is
    set, and otherwise goes on to record, whether or not the interview
    is complete. *)
Theorem insights_button_stays_shown :
  (forall m d w,
     interviewComplete m = true -> awaitingOpen (iv w) = 0 ->
     String.eqb (roleOf m) "assistant" && Js.truthy (audio m) &&
       negb (Audio.animationInScope (playback w)) = false ->
     insightsShown (handleWebSocketMessage (Object m) d w)) /\
  (forall es w,
     insightsShown w ->
     forallb (fun e => negb (isStartNewInterview e)) es = true ->
     insightsShown (run es w)) /\
  (forall w,
     (isRecording (iv w) || isProcessingResponse (iv w) = true ->
      startClick w = w) /\
     (isRecording (iv w) || isProcessingResponse (iv w) = false ->
      isRecording (iv (startClick w)) = true \/
      exists r, clickAwaitingStop (iv (startClick w)) =
                (clickAwaitingStop (iv w) ++ [r])%list)).
Proof.
  split; [|split].
  - intros m d w Hc Ha Hx.
    unfold handleWebSocketMessage, catchMessageError, checkComplete,
      processingComplete. rewrite Hc.
    destruct (String.eqb (roleOf m) "assistant").
    + destruct (Js.truthy (audio m)); [|latch].
      simpl in Hx. apply negb_false_iff in Hx.
      pose proof (playAudio_inScope d (audio m) (playback w)
                    (ui (onUi (Ui.displayMessage (Some "assistant") (content m)) w)))
        as Hp.
      world.
      destruct (Audio.playAudio _ _ _ _) as [[t p'] u']. simpl in Hp.
      rewrite (Hp Hx). latch.
    + destruct (String.eqb (roleOf m) "system"); [latch|].
      destruct (Js.truthy (content m)); latch.
  - intros es w H He. now apply run_shown.
  - intros w. split; intros H; unfold startClick; rewrite H; [reflexivity|].
    destruct (Audio.stopRecording _) as [c [r|]].
    + right. exists r. reflexivity.
    + left. apply startClickAfterStop_isRecording.
Qed.

Lemma insights_button_stays_shown_witness :
  let finished := {| role := Some "system"; content := Some "Interview complete";
                     audio := None; interviewComplete := true |} in
  let w0 := run [StartNewInterview (Some "42"); SocketOpen] (initialWorld true false) in
  let w1 := handleWebSocketMessage (Object finished) true w0 in
  let es := [SocketMessage (Object finished) true; ClickStart;
             MicrophoneSettled true; ClickStop; SendAudioTimer;
             TypeTextInput "thanks"; SubmitText] in
  insightsShown w1 /\ insightsShown (run es w1) /\
  isRecording (iv (startClick w1)) = true.
Proof.
  destruct insights_button_stays_shown as (H1 & H2 & H3).
  pose proof (H1 {| role := Some "system"; content := Some "Interview complete";
                    audio := None; interviewComplete := true |} true
                (run [StartNewInterview (Some "42"); SocketOpen] (initialWorld true false))
                eq_refl eq_refl eq_refl) as Hs.
  split; [exact Hs|]. split; [apply H2; [exact Hs|reflexivity]|].
  destruct (proj2 (H3 (handleWebSocketMessage
                         (Object {| role := Some "system";
                                    content := Some "Interview complete";
                                    audio := None; interviewComplete := true |})
                         true
                         (run [StartNewInterview (Some "42"); SocketOpen]
                            (initialWorld true false)))) eq_refl) as [E|[r E]].
  - exact E.
  - reflexivity.
Defined.

(** *** Mutual exclusion of submissions *)

Lemma sendAudioResume_cases a w :
  let w' := sendAudioResume a w in
  suspendedSendAudio (iv w') = suspendedSendAudio (iv w) /\
  ((isProcessingResponse (iv w') = false /\ sent (iv w') = sent (iv w)) \/
   (isProcessingResponse (iv w') = isProcessingResponse (iv w) /\
    exists m, sent (iv w') = (sent (iv w) ++ [m])%list)).
Proof.
  cbv zeta. destruct (noSpeech (Speech.getTranscription (speech w))) eqn:Hn.
  - rewrite sendAudioResume_noSpeech by exact Hn. world. cbn. auto.
  - destruct (isOpen (iv w)) eqn:Ho.
    + destruct (sendAudioResume_open a w Hn Ho) as (E & _). rewrite E. cbn.
      split; [reflexivity|]. right. eauto.
    + destruct (sendAudioResume_closed a w Hn Ho) as (E1 & E2 & E3 & _). auto.
Qed.

(** The guard with which both submission paths start. *)
Lemma rejected_while_processing w :
  isProcessingResponse (iv w) = true ->
  sendAudio w = w /\ handleTextSubmission w = w.
Proof.
  intros H. unfold sendAudio, handleTextSubmission. rewrite H.
  split; [reflexivity|]. now destruct (String.eqb _ "").
Qed.

Lemma guarded_inFlight w0 w :
  guarded w0 w ->
  inFlight w0 w <= 1 /\
  (inFlight w0 w = 1 <-> isProcessingResponse (iv w) = true).
Proof.
  intros (extra & E & H). unfold inFlight. rewrite E, length_app.
  replace (length (sent (iv w0)) + length extra - length (sent (iv w0)))
    with (length extra) by lia.
  destruct H as [(Hf & Hs & ->)|(Hf & Hl)].
  - rewrite Hs, Hf. simpl. split; [lia|]. split; [lia|discriminate].
  - rewrite Hl, Hf. split; [lia|]. split; auto.
Qed.

Lemma sendAudioResume_guarded a w0 w :
  (exists extra, sent (iv w) = (sent (iv w0) ++ extra)%list /\ extra = []) ->
  isProcessingResponse (iv w) = true ->
  suspendedSendAudio (iv w) = [] ->
  guarded w0 (sendAudioResume a w).
Proof.
  intros (extra & E & ->) Hf Hs.
  destruct (sendAudioResume_cases a w) as (E1 & [(E2 & E3)|(E2 & m & E3)]).
  - exists []. rewrite E3, E. split; [reflexivity|]. left. rewrite E1, Hs. auto.
  - exists [m]. rewrite E3, E, app_nil_r. split; [reflexivity|]. right.
    rewrite E1, Hs, E2, Hf. auto.
Qed.

Lemma sendAudio_guarded w0 w : guarded w0 w -> guarded w0 (sendAudio w).
Proof.
  intros H. destruct (isProcessingResponse (iv w)) eqn:Hf.
  - now rewrite (proj1 (rejected_while_processing w Hf)).
  - destruct H as (extra & E & [(_ & Hs & ->)|(Hf' & _)]); [|congruence].
    unfold sendAudio. rewrite Hf. cbv zeta. world.
    destruct (Audio.audioChunks (capture w)) as [|c l].
    + apply sendAudioResume_guarded; world; cbn; eauto.
    + exists []. world. cbn. rewrite Hs. split; [exact E|]. right. auto.
Qed.

Lemma audioEncoded_guarded b w0 w : guarded w0 w -> guarded w0 (audioEncoded b w).
Proof.
  intros H. unfold audioEncoded.
  destruct (suspendedSendAudio (iv w)) as [|c l] eqn:Hs; [exact H|].
  destruct H as (extra & E & [(_ & Hs' & _)|(Hf & Hl)]); [congruence|].
  rewrite Hs in Hl. simpl in Hl.
  assert (l = []) by (destruct l; [reflexivity|simpl in Hl; lia]). subst l.
  assert (extra = []) by (destruct extra; [reflexivity|simpl in Hl; lia]). subst extra.
  apply sendAudioResume_guarded; world; cbn; eauto.
Qed.

Lemma handleTextSubmission_guarded w0 w :
  guarded w0 w -> guarded w0 (handleTextSubmission w).
Proof.
  intros H. unfold handleTextSubmission.
  destruct (String.eqb _ ""); [exact H|].
  destruct (isProcessingResponse (iv w)) eqn:Hf; [exact H|].
  destruct H as (extra & E & [(_ & Hs & ->)|(Hf' & _)]); [|congruence].
  cbv zeta. cbn [iv with_playback]. world.
  destruct (isOpen _); unfold guarded; world; fields; rewrite E, Hs, ?app_nil_r.
  - eexists [_]. split; [reflexivity|]. right. auto.
  - exists []. rewrite app_nil_r. split; [reflexivity|]. left. auto.
Qed.

Lemma step_guarded e w0 w :
  isSubmission e = true -> guarded w0 w -> guarded w0 (step e w).
Proof.
  intros He H. destruct e; try discriminate; cbn [step].
  - exact H.
  - exact H.
  - now apply handleTextSubmission_guarded.
  - unfold sendAudioTimerFired. destruct (sendAudioTimers _); [exact H|].
    apply sendAudio_guarded. exact H.
  - now apply sendAudio_guarded.
  - now apply audioEncoded_guarded.
Qed.

Lemma run_guarded es : forall w0 w,
  forallb isSubmission es = true -> guarded w0 w -> guarded w0 (run es w).
Proof.
  induction es as [|e es IH]; intros w0 w He H; simpl in *; [exact H|].
  apply andb_prop in He as [He1 He2]. apply IH; [exact He2|].
  now apply step_guarded.
Qed.

(** X29. Among submissions alone the guard does what it is there for.
    From any state with nothing in flight, every interleaving of
    audio submissions ([sendAudio] called directly or by the timer of
    the stop button, and the completion of its encoding) and text
    submissions -- with no inbound message in between -- keeps at most
    one Turn in flight, and the guard [isProcessingResponse] is set
    exactly while one is.  A submission attempted while the guard is
    set returns at once and leaves the whole state as it was: nothing
    is sent, suspended or queued. *)
Theorem one_turn_in_flight :
  (forall w es,
     isProcessingResponse (iv w) = false ->
     suspendedSendAudio (iv w) = [] ->
     forallb isSubmission es = true ->
     inFlight w (run es w) <= 1 /\
     (inFlight w (run es w) = 1 <-> isProcessingResponse (iv (run es w)) = true)) /\
  (forall w,
     isProcessingResponse (iv w) = true ->
     sendAudio w = w /\ handleTextSubmission w = w).
Proof.
  split.
  - intros w es Hf Hs He. apply guarded_inFlight, run_guarded; [exact He|].
    exists []. rewrite app_nil_r. split; [reflexivity|]. left. auto.
  - exact rejected_while_processing.
Qed.

(** A voice turn is being encoded when a text is submitted, then a
    second voice turn is attempted; the text and the second voice turn
    are rejected and only the first turn goes out. *)
Lemma one_turn_in_flight_witness :
  let w := run [StartNewInterview (Some "42"); SocketOpen; ClickStart;
                MicrophoneSettled true; Recognizer Speech.RecognitionStarted;
                Recognizer (Speech.RecognitionResult 0 [(true, "hello")]);
                DataAvailable 0 "pcm"; ClickStop]
             (initialWorld true false) in
  let es := [SendAudioTimer; TypeTextInput "typed"; SubmitText; CallSendAudio;
             AudioEncoded (Some "cGNt"); SubmitText] in
  inFlight w (run es w) = 1 /\
  isProcessingResponse (iv (run es w)) = true /\
  sent (iv (run es w)) =
    [{| out_type := TypeAudio; out_content := "cGNt";
        out_transcription := Some "hello"; out_voiceStyle := "Nova" |}] /\
  handleTextSubmission (run es w) = run es w.
Proof.
  destruct one_turn_in_flight as (H1 & H2).
  pose proof (H1 (run [StartNewInterview (Some "42"); SocketOpen; ClickStart;
                       MicrophoneSettled true; Recognizer Speech.RecognitionStarted;
                       Recognizer (Speech.RecognitionResult 0 [(true, "hello")]);
                       DataAvailable 0 "pcm"; ClickStop]
                    (initialWorld true false))
                [SendAudioTimer; TypeTextInput "typed"; SubmitText; CallSendAudio;
                 AudioEncoded (Some "cGNt"); SubmitText]
                eq_refl eq_refl eq_refl) as (_ & Hi).
  split; [apply Hi; reflexivity|]. split; [reflexivity|]. split; [reflexivity|].
  apply H2. reflexivity.
Defined.

(** C3 on the code.  The guard is cleared by every inbound message,
    also while an accepted [sendAudio] is still waiting for its
    recording to be encoded.  A voice answer is recorded and submitted;
    while it is encoded a message of the interviewer arrives; a text
    typed then is accepted and sent although the voice Turn is still
    Submitting, and the voice Turn follows once its encoding completes:
    two Turns are in flight, and neither attempt was rejected.  The
    message that cleared the guard arrived before either was sent and
    answers neither. *)
Theorem second_turn_admitted_during_encoding :
  let question := {| role := Some "assistant"; content := Some "Tell me about yourself";
                     audio := None; interviewComplete := false |} in
  let text := {| out_type := TypeText; out_content := "typed";
                 out_transcription := None; out_voiceStyle := "Nova" |} in
  let voice := {| out_type := TypeAudio; out_content := "cGNt";
                  out_transcription := Some "hello"; out_voiceStyle := "Nova" |} in
  let w0 := run [StartNewInterview (Some "42"); SocketOpen; ClickStart;
                 MicrophoneSettled true; Recognizer Speech.RecognitionStarted;
                 Recognizer (Speech.RecognitionResult 0 [(true, "hello")]);
                 DataAvailable 0 "pcm"; ClickStop]
              (initialWorld true false) in
  let w1 := step SendAudioTimer w0 in
  let w2 := step (SocketMessage (Object question) true) w1 in
  let w3 := run [TypeTextInput "typed"; SubmitText] w2 in
  let w4 := step (AudioEncoded (Some "cGNt")) w3 in
  (isProcessingResponse (iv w0) = false /\ suspendedSendAudio (iv w0) = [] /\
   sent (iv w0) = []) /\
  (isProcessingResponse (iv w1) = true /\ suspendedSendAudio (iv w1) = [["pcm"]] /\
   inFlight w0 w1 = 1) /\
  (isProcessingResponse (iv w2) = false /\ suspendedSendAudio (iv w2) = [["pcm"]]) /\
  (sent (iv w3) = [text] /\ suspendedSendAudio (iv w3) = [["pcm"]] /\
   inFlight w0 w3 = 2) /\
  (sent (iv w4) = [text; voice] /\ inFlight w0 w4 = 2 /\
   Ui.errors (ui w4) = []).
Proof. vm_compute. repeat split. Qed.

End InterviewFacts.

(** * Further properties of the code *)

(** ** speech.js *)

Section MoreSpeech.
Import Speech.

Lemma accumulate_joins rs : forall final interim,
  accumulate rs final interim =
  (final +:+ joinSegments true rs, interim +:+ joinSegments false rs).
Proof.
  induction rs as [|[[] t] rs IH]; intros final interim; simpl.
  - now rewrite !append_empty_r.
  - rewrite IH. now rewrite append_assoc.
  - rewrite IH. now rewrite append_assoc.
Qed.


(** X1. One recognizer update appends to [finalTranscript] the final
    segments from [resultIndex] on and replaces [interimTranscript] by
    the interim segments from there on, whatever it held before; an
    index at or beyond the end of the results leaves the final text as
    it is and empties the interim text.  Activity, timer and restart
    counter are untouched, and the text written into the chat is the
    whole transcript, or the sentinel when that is empty. *)
Theorem result_accumulates (i : nat) (rs : list Result) (s : State) (u : Ui.State) :
  let s' := fst (handleRecognitionResult i rs s u) in
  finalTranscript s' = finalTranscript s +:+ joinSegments true (drop i rs) /\
  interimTranscript s' = joinSegments false (drop i rs) /\
  (length rs <= i ->
   finalTranscript s' = finalTranscript s /\ interimTranscript s' = "") /\
  isRecognizing s' = isRecognizing s /\
  recognitionTimeout s' = recognitionTimeout s /\
  recognitionRestartCount s' = recognitionRestartCount s /\
  snd (handleRecognitionResult i rs s u) =
    Ui.displayUserTranscription
      (Js.orElse (Some (getTranscription s')) LISTENING) u.
Proof.
  unfold handleRecognitionResult. rewrite accumulate_joins. simpl.
  split; [reflexivity|]. split; [reflexivity|]. split; [|repeat split].
  intros Hle. rewrite drop_ge by exact Hle. simpl.
  now rewrite append_empty_r.
Qed.

Lemma result_accumulates_witness :
  let s := fst (run [RecognitionStarted;
                     RecognitionResult 0 [(true, "hello"); (false, " wor")]]
                  (initial true, Ui.initial)) in
  let s1 := fst (handleRecognitionResult 1 [(true, "hello"); (true, " world"); (false, " to")]
                   s Ui.initial) in
  let s2 := fst (handleRecognitionResult 3 [(true, "hello"); (true, " world"); (true, " to")]
                   s1 Ui.initial) in
  finalTranscript s = "hello" /\ interimTranscript s = " wor" /\
  finalTranscript s1 = "hello world" /\ interimTranscript s1 = " to" /\
  finalTranscript s2 = "hello world" /\ interimTranscript s2 = "".
Proof.
  split; [reflexivity|]. split; [reflexivity|].
  split; [reflexivity|]. split; [reflexivity|].
  apply (result_accumulates 3 [(true, "hello"); (true, " world"); (true, " to")]).
  simpl. lia.
Defined.

(** X2. Every recognizer error, whatever its code, leaves the
    accumulator inactive with its ceiling timer cleared and its
    indicator off, and keeps transcript and restart counter.  The codes
    [no-speech] and [aborted] show nothing to the user; every other
    code shows exactly one error. *)
Theorem recognition_error_deactivates (code : string) (s : State) (u : Ui.State) :
  let s' := fst (handleRecognitionError code s u) in
  let u' := snd (handleRecognitionError code s u) in
  isRecognizing s' = false /\ recognitionTimeout s' = false /\
  listening s' = false /\
  getTranscription s' = getTranscription s /\
  recognitionRestartCount s' = recognitionRestartCount s /\
  Ui.chat u' = Ui.chat u /\
  (if benignError code then Ui.errors u' = Ui.errors u
   else exists m, Ui.errors u' = (Ui.errors u ++ [m])%list).
Proof.
  unfold handleRecognitionError, benignError, getTranscription. simpl.
  repeat split.
  - unfold listening, deactivate, setOpacity. simpl.
    now destruct (listeningIndicator s).
  - destruct (String.eqb code "no-speech"); [reflexivity|].
    destruct (String.eqb code "aborted"); [reflexivity|].
    destruct (String.eqb code "network");
      [|destruct (_ || _)]; reflexivity.
  - destruct (String.eqb code "no-speech"); [reflexivity|].
    destruct (String.eqb code "aborted"); [reflexivity|]. simpl.
    destruct (String.eqb code "network");
      [|destruct (_ || _)]; eexists; reflexivity.
Qed.

(** The accumulator is active only with its ceiling timer pending. *)
Lemma step_active_timer e su :
  (isRecognizing (fst su) = true -> recognitionTimeout (fst su) = true) ->
  isRecognizing (fst (step e su)) = true ->
  recognitionTimeout (fst (step e su)) = true.
Proof.
  destruct su as [s u]. simpl. intros H.
  destruct e as [|i rs|c|t| | |t| |]; simpl; try discriminate; auto.
  - unfold handleRecognitionResult.
    destruct (accumulate _ _ _). simpl. exact H.
  - unfold handleRecognitionEnd.
    destruct (restarts s); [destruct t|]; simpl; try discriminate. exact H.
  - unfold ceilingTimerFired.
    destruct (recognitionTimeout s) eqn:Et.
    + destruct (isRecognizing s) eqn:Er; simpl; discriminate.
    + simpl. intros Hr. specialize (H Hr). discriminate.
  - unfold startRecognition. destruct (speechApi s); simpl; [discriminate|exact H].
  - unfold setupSpeechRecognition. destruct (speechApi s); simpl; exact H.
Qed.

(** X3. In every state the accumulator can reach from its initial
    state -- by recognizer events, its timer, and calls of its exported
    functions, [setupSpeechRecognition] among them -- an active
    accumulator has its 60 s ceiling timer pending: it is never active
    without the timer that will stop it. *)
Theorem active_has_ceiling_timer (api : bool) (u0 : Ui.State) (es : list Event) :
  let s := fst (run es (initial api, u0)) in
  isRecognizing s = true -> recognitionTimeout s = true.
Proof.
  cbv zeta.
  assert (G : forall es su,
             (isRecognizing (fst su) = true -> recognitionTimeout (fst su) = true) ->
             isRecognizing (fst (run es su)) = true ->
             recognitionTimeout (fst (run es su)) = true).
  { clear. induction es as [|e es IH]; intros su H; [exact H|].
    simpl. apply IH. now apply step_active_timer. }
  apply G. simpl. discriminate.
Qed.

Lemma active_has_ceiling_timer_witness :
  let s := fst (run [CallStartRecognition; RecognitionStarted;
                     RecognitionResult 0 [(true, "hello")];
                     CallSetupSpeechRecognition; RecognitionEnded false]
                  (initial true, Ui.initial)) in
  isRecognizing s = true /\ recognitionTimeout s = true /\ listening s = false.
Proof.
  split; [reflexivity|]. split; [|reflexivity].
  apply (active_has_ceiling_timer true Ui.initial
           [CallStartRecognition; RecognitionStarted;
            RecognitionResult 0 [(true, "hello")];
            CallSetupSpeechRecognition; RecognitionEnded false]).
  reflexivity.
Defined.

Lemma restart_round s u :
  isRecognizing s = true -> recognitionRestartCount s < MAX_RESTART_ATTEMPTS ->
  let su' := run [RecognitionEnded false; RecognitionStarted] (s, u) in
  isRecognizing (fst su') = true /\ recognitionRestartCount (fst su') = 0 /\
  getTranscription (fst su') = "" /\ snd su' = u.
Proof.
  intros Ha Hc. simpl. unfold handleRecognitionEnd, restarts. rewrite Ha.
  destruct (Nat.ltb_spec (recognitionRestartCount s) MAX_RESTART_ATTEMPTS); [|lia].
  simpl. repeat split.
Qed.

(** X4. A restart that succeeds and is followed by the recognizer's
    start event empties the transcript and sets the restart counter back
    to zero.  So from an active state below the cap any number of such
    restarts can follow one another: after each the accumulator is
    active again with counter 0, and what had been transcribed before is
    gone. *)
Theorem restart_resets_counter_and_transcript (n : nat) (s : State) (u : Ui.State) :
  isRecognizing s = true ->
  recognitionRestartCount s < MAX_RESTART_ATTEMPTS ->
  0 < n ->
  let su' := run (restartRounds n) (s, u) in
  isRecognizing (fst su') = true /\
  recognitionRestartCount (fst su') = 0 /\
  getTranscription (fst su') = "" /\
  snd su' = u.
Proof.
  revert s. induction n as [|n IH]; intros s Ha Hc Hn; [lia|].
  destruct (restart_round s u Ha Hc) as (H1 & H2 & H3 & H4).
  change (restartRounds (S n))
    with ([RecognitionEnded false; RecognitionStarted] ++ restartRounds n)%list.
  unfold run in *. rewrite fold_left_app.
  destruct (fold_left (fun su e => step e su)
              [RecognitionEnded false; RecognitionStarted] (s, u)) as [s1 u1] eqn:E.
  simpl in H1, H2, H3, H4. subst u1.
  destruct n as [|n]; [simpl; auto|].
  apply IH; [exact H1| |lia]. rewrite H2. unfold MAX_RESTART_ATTEMPTS. lia.
Qed.

Lemma restart_resets_counter_and_transcript_witness :
  let su := run [RecognitionStarted; RecognitionResult 0 [(true, "hello world")]]
              (initial true, Ui.initial) in
  let su' := run (restartRounds 5) su in
  getTranscription (fst su) = "hello world" /\
  isRecognizing (fst su') = true /\
  recognitionRestartCount (fst su') = 0 /\
  getTranscription (fst su') = "".
Proof.
  split; [reflexivity|].
  destruct (restart_resets_counter_and_transcript 5
              (fst (run [RecognitionStarted; RecognitionResult 0 [(true, "hello world")]]
                      (initial true, Ui.initial)))
              (snd (run [RecognitionStarted; RecognitionResult 0 [(true, "hello world")]]
                      (initial true, Ui.initial))))
    as (H1 & H2 & H3 & _);
    [reflexivity|unfold MAX_RESTART_ATTEMPTS; simpl; lia|lia|].
  split; [exact H1|]. split; [exact H2|exact H3].
Defined.

Lemma step_stopsOnly e su :
  stopsOnly e = true ->
  getTranscription (fst (step e su)) = getTranscription (fst su) /\
  (isRecognizing (fst su) = false -> isRecognizing (fst (step e su)) = false).
Proof.
  destruct su as [s u]. unfold getTranscription.
  destruct e as [|i rs|c|t| | |t| |]; try discriminate; intros _; simpl.
  - auto.
  - unfold handleRecognitionEnd, restarts.
    destruct (isRecognizing s); simpl; [|auto].
    destruct (Nat.ltb _ _); [destruct t|]; simpl; auto; split; auto; discriminate.
  - unfold ceilingTimerFired.
    destruct (recognitionTimeout s); [destruct (isRecognizing s)|]; simpl; auto.
  - auto.
Qed.

(** X5. Stopping never costs text: recognizer errors, recognizer ends
    (restarted or not), the ceiling timer and [stopRecognition], in any
    number and order, leave [getTranscription] exactly as it was, and
    they never make an inactive accumulator active. *)
Theorem stopping_keeps_transcript (es : list Event) (s : State) (u : Ui.State) :
  forallb stopsOnly es = true ->
  getTranscription (fst (run es (s, u))) = getTranscription s /\
  (isRecognizing s = false -> isRecognizing (fst (run es (s, u))) = false).
Proof.
  change s with (fst (s, u)) at 2 3. generalize (s, u). clear.
  induction es as [|e es IH]; intros su H; simpl in *; [auto|].
  apply andb_prop in H as [H1 H2].
  destruct (IH (step e su) H2) as (E1 & E2).
  destruct (step_stopsOnly e su H1) as (F1 & F2).
  rewrite E1, F1. auto.
Qed.

Lemma stopping_keeps_transcript_witness :
  let su := run [RecognitionStarted;
                 RecognitionResult 0 [(true, "hello"); (false, " wor")]]
              (initial true, Ui.initial) in
  let es := [RecognitionError "network"; RecognitionEnded false; CeilingTimer;
             CallStopRecognition true] in
  getTranscription (fst (run es su)) = "hello wor".
Proof.
  exact (proj1 (stopping_keeps_transcript
                  [RecognitionError "network"; RecognitionEnded false; CeilingTimer;
                   CallStopRecognition true]
                  (fst (run [RecognitionStarted;
                             RecognitionResult 0 [(true, "hello"); (false, " wor")]]
                          (initial true, Ui.initial)))
                  (snd (run [RecognitionStarted;
                             RecognitionResult 0 [(true, "hello"); (false, " wor")]]
                          (initial true, Ui.initial)))
                  eq_refl)).
Defined.

End MoreSpeech.

(** ** ui.js *)

Section MoreUi.
Import Ui.

Lemma truthy_orElse (c : option string) (d : string) :
  Js.truthy c = true -> c = Some (Js.orElse c d).
Proof.
  unfold Js.truthy, Js.orElse. destruct c as [x|]; [|discriminate].
  destruct (String.eqb x ""); [discriminate|reflexivity].
Qed.

Lemma falsy_orElse (c : option string) (d : string) :
  Js.truthy c = false -> Js.orElse c d = d.
Proof.
  unfold Js.truthy, Js.orElse. destruct c as [x|]; [|reflexivity].
  destruct (String.eqb x ""); [reflexivity|discriminate].
Qed.

Lemma face_setSpeaking i b d : face (setSpeaking i b d) = face d.
Proof. unfold setSpeaking. now destruct (Nat.eqb _ _). Qed.

Lemma map_face_setSpeaking i b l : map face (map (setSpeaking i b) l) = map face l.
Proof.
  induction l as [|d l IH]; simpl; [reflexivity|].
  now rewrite face_setSpeaking, IH.
Qed.

(** The class under which [displayMessage] shows a role. *)
Lemma displayAssistantMessage_faces (c : string) (u : State) :
  String.eqb c "" = false ->
  map face (chat (displayAssistantMessage (Some c) u)) =
    (map face (chat u) ++ [(ClsAssistant, Js.trim c)])%list /\
  errors (displayAssistantMessage (Some c) u) = errors u /\
  console (displayAssistantMessage (Some c) u) = console u /\
  nextDiv (displayAssistantMessage (Some c) u) = S (nextDiv u) /\
  currentAssistantMessageDiv (displayAssistantMessage (Some c) u) = Some (nextDiv u) /\
  loadingVisible (displayAssistantMessage (Some c) u) = false.
Proof.
  intros Hc. unfold displayAssistantMessage, Js.truthy, Js.orElse. rewrite Hc.
  simpl. unfold startSpeakingAnimation. simpl.
  rewrite map_face_setSpeaking, map_app. repeat split.
Qed.

Lemma displayMessage_assistant_faces (c : option string) (u : State) :
  map face (chat (displayMessage (Some "assistant") c u)) =
    (map face (chat u) ++
     [(ClsAssistant, Js.trim (Js.orElse c "Empty message"))])%list.
Proof.
  unfold displayMessage.
  change (Js.truthy (Some "assistant")) with true. cbv iota.
  change (Js.orElse (Some "assistant") "system") with "assistant".
  destruct (Js.truthy c) eqn:E.
  - change (String.eqb "assistant" "assistant") with true. cbv iota.
    rewrite (truthy_orElse c "Empty message" E) at 1.
    apply displayAssistantMessage_faces.
    unfold Js.truthy, Js.orElse in *. destruct c as [x|]; [|discriminate].
    destruct (String.eqb x "") eqn:Ex; [discriminate|exact Ex].
  - change (String.eqb "assistant" "assistant") with true. cbv iota.
    rewrite (falsy_orElse c "Empty message" E).
    now destruct (displayAssistantMessage_faces "Empty message"
                    (consoleError "Message missing content:" u) eq_refl) as (G & _).
Qed.

(** X6. [displayMessage] never drops a message: whatever the role and
    content, it appends exactly one entry and changes the class and text
    of no earlier one.  The role [assistant] (text trimmed) and [user]
    keep their class, every other role and a missing role are shown as
    a system message, and missing content is shown as [Empty message].
    Nothing is reported to the user as an error. *)
Theorem displayMessage_appends_one (r c : option string) (u : State) :
  let u' := displayMessage r c u in
  let role := Js.orElse r "system" in
  let text := Js.orElse c "Empty message" in
  map face (chat u') =
    (map face (chat u) ++
     [if String.eqb role "assistant" then (ClsAssistant, Js.trim text)
      else if String.eqb role "user" then (ClsUser, text)
      else (ClsSystem, text)])%list /\
  nextDiv u' = S (nextDiv u) /\
  errors u' = errors u.
Proof.
  cbv zeta. unfold displayMessage.
  assert (Ht : String.eqb (Js.orElse c "Empty message") "" = false).
  { unfold Js.orElse. destruct c as [x|]; [|reflexivity].
    destruct (String.eqb x "") eqn:E; [reflexivity|exact E]. }
  assert (Hr : (if Js.truthy r then Js.orElse r "system" else "system") =
               Js.orElse r "system").
  { destruct (Js.truthy r) eqn:E; [reflexivity|]. now rewrite falsy_orElse. }
  set (u1 := if Js.truthy r then u else consoleError "Message missing role:" u).
  assert (E1 : (if Js.truthy r then (Js.orElse r "system", u)
                else ("system", consoleError "Message missing role:" u)) =
               (Js.orElse r "system", u1)).
  { subst u1. destruct (Js.truthy r) eqn:E; [reflexivity|]. now rewrite falsy_orElse. }
  rewrite E1.
  set (u2 := if Js.truthy c then u1 else consoleError "Message missing content:" u1).
  assert (E2 : (if Js.truthy c then (c, u1)
                else (Some "Empty message", consoleError "Message missing content:" u1)) =
               (Some (Js.orElse c "Empty message"), u2)).
  { subst u2. destruct (Js.truthy c) eqn:E.
    - now rewrite <- truthy_orElse.
    - now rewrite falsy_orElse. }
  rewrite E2.
  assert (F : chat u2 = chat u /\ nextDiv u2 = nextDiv u /\ errors u2 = errors u).
  { subst u2 u1. destruct (Js.truthy c), (Js.truthy r); repeat split. }
  destruct F as (F1 & F2 & F3).
  assert (Ho : Js.orElse (Some (Js.orElse c "Empty message")) "" =
               Js.orElse c "Empty message").
  { unfold Js.orElse at 1. now rewrite Ht. }
  destruct (String.eqb (Js.orElse r "system") "assistant").
  - destruct (displayAssistantMessage_faces _ u2 Ht) as (G1 & G2 & _ & G4 & _).
    rewrite G1, G2, G4, F1, F2, F3. auto.
  - destruct (String.eqb (Js.orElse r "system") "user");
      unfold displayUserMessage, displaySystemMessage, appendDiv; simpl;
      rewrite map_app, Ht, F1, F2, F3; auto.
Qed.

Lemma filter_placeholder_none (l : list Div) :
  Forall (fun d => isPlaceholder d = false) (filter (fun d => isPlaceholder d = false) l).
Proof.
  apply Forall_forall. intros d Hd. now apply list_elem_of_filter in Hd as [Hd _].
Qed.

Lemma updateLastPlaceholder_none t l :
  Forall (fun d => isPlaceholder d = false) l -> updateLastPlaceholder t l = None.
Proof.
  induction 1 as [|d l Hd _ IH]; simpl; [reflexivity|]. now rewrite IH, Hd.
Qed.

Lemma updateLastPlaceholder_last t pre d post :
  isPlaceholder d = true ->
  Forall (fun x => isPlaceholder x = false) post ->
  updateLastPlaceholder t (pre ++ d :: post) = Some (pre ++ retext t d :: post)%list.
Proof.
  intros Hd Hpost. induction pre as [|x pre IH]; simpl.
  - now rewrite updateLastPlaceholder_none, Hd.
  - now rewrite IH.
Qed.

Lemma displayUserTranscription_last (t : string) (u : State) pre d post :
  chat u = (pre ++ d :: post)%list ->
  isPlaceholder d = true ->
  Forall (fun x => isPlaceholder x = false) post ->
  chat (displayUserTranscription t u) = (pre ++ retext t d :: post)%list /\
  errors (displayUserTranscription t u) = errors u.
Proof.
  intros E Hd Hpost. unfold displayUserTranscription.
  rewrite E, (updateLastPlaceholder_last t pre d post Hd Hpost). auto.
Qed.

(** X7. [displayUserTranscription] rewrites one entry at most: the last
    user entry that still shows the sentinel gets the new text and
    every other entry stays as it is, in place; when no entry shows the
    sentinel the chat is left unchanged. *)
Theorem transcription_updates_last_placeholder (t : string) (u : State) :
  (Forall (fun d => isPlaceholder d = false) (chat u) ->
   displayUserTranscription t u = u) /\
  (forall pre d post,
     chat u = (pre ++ d :: post)%list ->
     isPlaceholder d = true ->
     Forall (fun x => isPlaceholder x = false) post ->
     chat (displayUserTranscription t u) = (pre ++ retext t d :: post)%list /\
     errors (displayUserTranscription t u) = errors u).
Proof.
  split.
  - intros H. unfold displayUserTranscription.
    now rewrite updateLastPlaceholder_none.
  - intros pre d post E Hd Hpost. unfold displayUserTranscription.
    rewrite E, (updateLastPlaceholder_last t pre d post Hd Hpost). auto.
Qed.

Lemma transcription_updates_last_placeholder_witness :
  let u := displayUserPlaceholder LISTENING
             (displayMessage (Some "assistant") (Some "Tell me about yourself")
                (displayUserMessage "[ Listening... ] no" initial)) in
  map face (chat u) =
    [(ClsAssistant, "Tell me about yourself"); (ClsUser, "[ Listening... ]")] /\
  map face (chat (displayUserTranscription "I am" u)) =
    [(ClsAssistant, "Tell me about yourself"); (ClsUser, "I am")] /\
  displayUserTranscription "I am too" (displayUserTranscription "I am" u) =
    displayUserTranscription "I am" u.
Proof.
  split; [reflexivity|]. split.
  - set (u := displayUserPlaceholder LISTENING
             (displayMessage (Some "assistant") (Some "Tell me about yourself")
                (displayUserMessage "[ Listening... ] no" initial))).
    destruct (proj2 (transcription_updates_last_placeholder "I am" u)
                [ {| div_id := 1; div_class := ClsAssistant;
                     div_text := "Tell me about yourself"; div_speaking := true |} ]
                {| div_id := 2; div_class := ClsUser;
                   div_text := LISTENING; div_speaking := false |}
                [] eq_refl eq_refl ltac:(constructor)) as (E & _).
    rewrite E. reflexivity.
  - apply (proj1 (transcription_updates_last_placeholder "I am too" _)).
    repeat constructor.
Defined.

(** X8. For a placeholder text without markup characters,
    [displayUserPlaceholder] leaves at most one placeholder, and it is
    the last entry: every earlier user entry that shows the sentinel is
    removed, every other entry is kept in order, and the new entry is
    appended.  A transcription written next therefore lands in the
    entry just created. *)
Theorem placeholder_replaces_earlier (p : string) (u : State) :
  Js.plain p = true ->
  let u' := displayUserPlaceholder p u in
  let kept := filter (fun d => isPlaceholder d = false) (chat u) in
  let new := {| div_id := nextDiv u; div_class := ClsUser;
                div_text := p; div_speaking := false |} in
  chat u' = (kept ++ [new])%list /\
  Forall (fun d => isPlaceholder d = false) kept /\
  (Js.includes LISTENING p = true ->
   forall t, chat (displayUserTranscription t u') = (kept ++ [retext t new])%list).
Proof.
  intros _. cbv zeta. split; [reflexivity|]. split; [apply filter_placeholder_none|].
  intros Hp t.
  apply (displayUserTranscription_last t (displayUserPlaceholder p u)
           _ _ [] eq_refl); [exact Hp|constructor].
Qed.

Lemma placeholder_replaces_earlier_witness :
  let u := displayUserPlaceholder LISTENING
             (displayUserMessage "hello"
                (displayUserPlaceholder LISTENING initial)) in
  Js.plain LISTENING = true /\
  Js.includes LISTENING LISTENING = true /\
  map face (chat u) = [(ClsUser, "hello"); (ClsUser, LISTENING)] /\
  map face (chat (displayUserTranscription "again" u)) =
    [(ClsUser, "hello"); (ClsUser, "again")].
Proof.
  split; [reflexivity|]. split; [reflexivity|]. split; [reflexivity|].
  destruct (placeholder_replaces_earlier LISTENING
              (displayUserMessage "hello" (displayUserPlaceholder LISTENING initial))
              eq_refl)
    as (_ & _ & H).
  rewrite (H eq_refl "again"). reflexivity.
Defined.

End MoreUi.

(** ** audio.js *)

Section MoreAudio.
Import Audio.

Lemma captureStep_chunks_positive e c :
  Forall (fun d => 0 < String.length d) (audioChunks c) ->
  Forall (fun d => 0 < String.length d) (audioChunks (captureStep e c)).
Proof.
  intros H. destruct e as [| |r|r d|g]; simpl.
  - unfold startRecording, stopRecording.
    destruct (mediaRecorder c) as [r|]; [destruct (recorders c !! r) as [[]|]|];
      simpl; auto.
  - unfold stopRecording.
    destruct (mediaRecorder c) as [r|]; [destruct (recorders c !! r) as [[]|]|];
      simpl; auto.
  - unfold recorderStopped.
    destruct (recorders c !! r) as [[]|]; simpl; auto;
      destruct (filter _ _); auto.
  - unfold dataAvailable, ondataavailable.
    destruct (recorders c !! r) as [[]|]; auto;
      destruct (Nat.ltb_spec 0 (String.length d)); simpl; auto;
      apply Forall_app; split; auto.
  - unfold microphoneSettled. destruct (awaitingMic c); [exact H|].
    destruct g; simpl; exact H.
Qed.

(** X9. Whatever calls and recorder events occur, in any order and
    overlapping or not, the chunk buffer never holds an empty fragment:
    the [ondataavailable] handler appends data of positive size only,
    and nothing else appends to the buffer. *)
Theorem buffer_holds_no_empty_fragment (es : list CaptureEvent) :
  Forall (fun d => 0 < String.length d)
    (audioChunks (captureRun es initialCapture)).
Proof.
  assert (G : forall es c,
             Forall (fun d => 0 < String.length d) (audioChunks c) ->
             Forall (fun d => 0 < String.length d) (audioChunks (captureRun es c))).
  { clear. induction es as [|e es IH]; intros c H; simpl; [exact H|].
    apply IH, captureStep_chunks_positive, H. }
  apply G. constructor.
Qed.

(** X10. A second [stopRecording] changes nothing and its promise is
    resolved at once -- also when the first call's recorder has not yet
    delivered its stop event and still holds the hardware: only the
    first call waits for the release. *)
Theorem second_stop_resolves_at_once (c : Capture) :
  stopRecording (fst (stopRecording c)) = (fst (stopRecording c), None) /\
  (forall r, snd (stopRecording c) = Some r ->
     recorders (fst (stopRecording c)) !! r = Some Stopping).
Proof.
  unfold stopRecording.
  destruct (mediaRecorder c) as [r|] eqn:Em; simpl.
  - destruct (recorders c !! r) as [[]|] eqn:El; simpl; rewrite ?Em.
    + rewrite list_lookup_insert_eq by (eapply lookup_lt_Some; eauto).
      split; [reflexivity|]. intros r' [= <-].
      apply list_lookup_insert_eq. eapply lookup_lt_Some; eauto.
    + rewrite El. split; [reflexivity|discriminate].
    + rewrite El. split; [reflexivity|discriminate].
    + rewrite El. split; [reflexivity|discriminate].
  - split; [reflexivity|discriminate].
Qed.

Lemma second_stop_resolves_at_once_witness :
  let c := captureRun [CallStartRecording; MicrophoneSettled true] initialCapture in
  snd (stopRecording c) = Some 0 /\
  recorders (fst (stopRecording c)) !! 0 = Some Stopping /\
  snd (stopRecording (fst (stopRecording c))) = None.
Proof.
  destruct (second_stop_resolves_at_once
              (captureRun [CallStartRecording; MicrophoneSettled true] initialCapture))
    as (H1 & H2).
  split; [reflexivity|]. split; [exact (H2 0 eq_refl)|].
  cbv zeta. now rewrite H1.
Defined.

Lemma insert_stage (l : list Recorder) r x i a :
  l !! i = Some a ->
  (forall b, l !! r = Some b -> stage b <= stage x) ->
  exists b, <[r := x]> l !! i = Some b /\ stage a <= stage b.
Proof.
  intros Hi Hr. destruct (decide (i = r)) as [->|Hne].
  - exists x. split; [|now apply Hr].
    apply list_lookup_insert_eq. eapply lookup_lt_Some; eauto.
  - exists a. split; [|lia]. rewrite list_lookup_insert_ne by congruence. exact Hi.
Qed.

Lemma captureStep_stage e c i a :
  recorders c !! i = Some a ->
  exists b, recorders (captureStep e c) !! i = Some b /\ stage a <= stage b.
Proof.
  intros Hi. destruct e as [| |r|r d|g]; simpl.
  - unfold startRecording, stopRecording.
    destruct (mediaRecorder c) as [r|]; [destruct (recorders c !! r) as [[]|] eqn:El|];
      simpl; try (exists a; split; [exact Hi|lia]).
    apply insert_stage; [exact Hi|]. intros b Hb. rewrite El in Hb.
    injection Hb as <-. simpl. lia.
  - unfold stopRecording.
    destruct (mediaRecorder c) as [r|]; [destruct (recorders c !! r) as [[]|] eqn:El|];
      simpl; try (exists a; split; [exact Hi|lia]).
    apply insert_stage; [exact Hi|]. intros b Hb. rewrite El in Hb.
    injection Hb as <-. simpl. lia.
  - unfold recorderStopped.
    destruct (recorders c !! r) as [[]|] eqn:El; simpl;
      try (exists a; split; [exact Hi|lia]);
      (apply insert_stage; [exact Hi|]); intros b Hb; destruct b; simpl; lia.
  - unfold dataAvailable, ondataavailable.
    destruct (recorders c !! r) as [[]|]; try destruct (Nat.ltb _ _); simpl;
      exists a; split; auto.
  - unfold microphoneSettled. destruct (awaitingMic c); [exists a; split; auto|].
    destruct g; simpl; exists a; split; auto.
    apply lookup_app_l_Some. exact Hi.
Qed.

(** X11. A recorder's life only moves forward, whatever calls and
    events follow: from recording to stopping to released.  A handle
    once created is never forgotten, and a released recorder never
    records again; every new recording uses a new handle. *)
Theorem recorder_life_moves_forward (es : list CaptureEvent) (c : Capture) (i : nat)
    (a : Recorder) :
  recorders c !! i = Some a ->
  exists b, recorders (captureRun es c) !! i = Some b /\ stage a <= stage b.
Proof.
  revert c a. induction es as [|e es IH]; intros c a Hi; simpl.
  - exists a. split; [exact Hi|lia].
  - destruct (captureStep_stage e c i a Hi) as (b & Hb & Hab).
    destruct (IH _ _ Hb) as (b' & Hb' & Hbb'). exists b'. split; [exact Hb'|lia].
Qed.

Lemma recorder_life_moves_forward_witness :
  let c := captureRun [CallStartRecording; MicrophoneSettled true;
                       CallStopRecording; RecorderStopped 0] initialCapture in
  let es := [CallStartRecording; MicrophoneSettled true; DataAvailable 0 "late";
             CallStopRecording; CallStartRecording] in
  recorders c !! 0 = Some Released /\
  recorders (captureRun es c) !! 0 = Some Released /\
  audioChunks (captureRun es c) = [].
Proof.
  split; [reflexivity|]. split; [|reflexivity].
  destruct (recorder_life_moves_forward
              [CallStartRecording; MicrophoneSettled true; DataAvailable 0 "late";
               CallStopRecording; CallStartRecording]
              (captureRun [CallStartRecording; MicrophoneSettled true;
                           CallStopRecording; RecorderStopped 0] initialCapture)
              0 Released eq_refl) as (b & Hb & Hs).
  destruct b; simpl in Hs; try lia. exact Hb.
Defined.

(** While a call waits for the microphone the buffer is empty. *)
Lemma captureStep_fresh e c :
  CaptureInv c -> (isCall e = true -> settled c = true) ->
  (awaitingMic c <> 0 -> audioChunks c = []) ->
  awaitingMic (captureStep e c) <> 0 -> audioChunks (captureStep e c) = [].
Proof.
  intros HI Hs H. destruct e as [| |r|r d|g]; simpl in *.
  - destruct (settled_spec c (Hs eq_refl)) as (Hs1 & Hs2 & _).
    destruct (stopRecording_frame c) as (_ & _ & _ & Ea).
    unfold startRecording.
    destruct (stopRecording c) as [c' [r|]]; simpl in *; [|reflexivity].
    intros Hn. congruence.
  - destruct (settled_spec c (Hs eq_refl)) as (_ & Hs2 & _).
    destruct (stopRecording_frame c) as (_ & _ & _ & Ea). congruence.
  - unfold recorderStopped.
    destruct (recorders c !! r) as [[]|]; simpl; auto;
      destruct (filter _ _); simpl; auto.
  - unfold dataAvailable, ondataavailable. intros Hn.
    destruct (recorders c !! r) as [[]|] eqn:El; auto;
      try (destruct (Nat.ltb _ _); simpl in *; auto);
      pose proof (inv_mic c HI Hn r _ El); discriminate.
  - unfold microphoneSettled.
    destruct (awaitingMic c) as [|n] eqn:Ea; [simpl; congruence|].
    destruct g; simpl; intros _; apply H; discriminate.
Qed.

Lemma captureRun_fresh es : forall c,
  CaptureInv c -> oneAtATime es c = true ->
  (awaitingMic c <> 0 -> audioChunks c = []) ->
  awaitingMic (captureRun es c) <> 0 -> audioChunks (captureRun es c) = [].
Proof.
  induction es as [|e es IH]; intros c HI Hs H; simpl in *; [exact H|].
  apply andb_prop in Hs as [Hs1 Hs2].
  assert (Hg : isCall e = true -> settled c = true).
  { intros Hc. now rewrite Hc in Hs1. }
  apply IH; [now apply captureStep_inv|exact Hs2|now apply captureStep_fresh].
Qed.

(** X12. When calls do not overlap, every recording starts on an empty
    buffer with no other recorder alive: at the moment the microphone
    is granted to a waiting [startRecording], the chunk buffer is empty,
    every earlier recorder is released, and the recorder created then is
    the one [mediaRecorder] refers to. *)
Theorem recording_starts_on_empty_buffer (es : list CaptureEvent) :
  oneAtATime es initialCapture = true ->
  let c := captureRun es initialCapture in
  awaitingMic c <> 0 ->
  let c' := captureStep (MicrophoneSettled true) c in
  audioChunks c' = [] /\
  recorders c' = (recorders c ++ [Recording])%list /\
  mediaRecorder c' = Some (length (recorders c)) /\
  Forall (fun a => a = Released) (recorders c).
Proof.
  intros Hs c Hn c'.
  pose proof (captureRun_inv es initialCapture CaptureInv_initial Hs) as HI.
  pose proof (captureRun_fresh es initialCapture CaptureInv_initial Hs
                ltac:(simpl; congruence) Hn) as Hc.
  fold c in HI, Hc. subst c'. simpl. unfold microphoneSettled.
  destruct (awaitingMic c) as [|n] eqn:Ea; [congruence|]. simpl.
  repeat split; [exact Hc|].
  apply Forall_forall. intros a Ha.
  apply list_elem_of_lookup in Ha as [i Hi].
  apply (inv_mic c HI ltac:(congruence) i a Hi).
Qed.

Lemma recording_starts_on_empty_buffer_witness :
  let es := [CallStartRecording; MicrophoneSettled true; DataAvailable 0 "first";
             CallStopRecording; DataAvailable 0 "tail"; RecorderStopped 0;
             CallStartRecording] in
  let c := captureRun es initialCapture in
  awaitingMic c = 1 /\
  audioChunks (captureStep (MicrophoneSettled true) c) = [] /\
  recorders (captureStep (MicrophoneSettled true) c) = [Released; Recording].
Proof.
  split; [reflexivity|].
  destruct (recording_starts_on_empty_buffer
              [CallStartRecording; MicrophoneSettled true; DataAvailable 0 "first";
               CallStopRecording; DataAvailable 0 "tail"; RecorderStopped 0;
               CallStartRecording] eq_refl ltac:(simpl; congruence))
    as (H1 & H2 & _).
  split; [exact H1|exact H2].
Defined.

End MoreAudio.

Section MorePlayback.
Import Audio.

Lemma stopSpeakingAnimation_faces v :
  map face (Ui.chat (Ui.stopSpeakingAnimation v)) = map face (Ui.chat v) /\
  Ui.errors (Ui.stopSpeakingAnimation v) = Ui.errors v.
Proof.
  unfold Ui.stopSpeakingAnimation.
  destruct (Ui.currentAssistantMessageDiv v); simpl; [|auto].
  now rewrite map_face_setSpeaking.
Qed.

Lemma startSpeakingAnimation_faces v :
  map face (Ui.chat (Ui.startSpeakingAnimation v)) = map face (Ui.chat v) /\
  Ui.errors (Ui.startSpeakingAnimation v) = Ui.errors v.
Proof.
  unfold Ui.startSpeakingAnimation.
  destruct (Ui.currentAssistantMessageDiv v); simpl; [|auto].
  now rewrite map_face_setSpeaking.
Qed.

(** [playAudio] changes the class and text of no chat entry. *)
Lemma playAudio_faces (decodes : bool) (a : option string) (p : Playback) (u : Ui.State) :
  map face (Ui.chat (snd (playAudio decodes a p u))) = map face (Ui.chat u).
Proof.
  unfold playAudio. destruct a as [a|]; [|reflexivity].
  destruct (String.eqb a ""); [reflexivity|].
  destruct (String.eqb (Js.trim a) ""); [reflexivity|].
  destruct decodes;
    unfold tryFormats, formats, tryFormat, playAudioCatch, callAnimation; simpl;
    destruct (animationInScope p); simpl; try reflexivity.
  - apply startSpeakingAnimation_faces.
  - apply (stopSpeakingAnimation_faces (Ui.consoleError "Error in audio playback:" u)).
Qed.

(** A payload that decodes is loaded under a newly created URL. *)
Lemma playAudio_loads (a : option string) (p : Playback) (u : Ui.State) :
  hasPayload a = true ->
  src (snd (fst (playAudio true a p u))) = Some (nextUrl p) /\
  revoked (snd (fst (playAudio true a p u))) = revoked p.
Proof.
  unfold playAudio, hasPayload. destruct a as [a|]; [|discriminate].
  destruct (String.eqb a ""); [discriminate|].
  destruct (String.eqb (Js.trim a) ""); [discriminate|]. intros _.
  unfold tryFormats, formats, tryFormat, callAnimation. simpl.
  destruct (animationInScope p); simpl; auto.
Qed.

(** X13. [playAudio] hands something to the player exactly when the
    payload is present, not blank, and accepted by [atob]; then it
    loads one newly created object URL and starts one attempt, as
    [audio/mp3].  In every other case the player is left untouched: no
    URL is created and nothing is played, and nothing is reported to the
    user in either case. *)
Theorem playAudio_plays_iff_payload_decodes (decodes : bool) (a : option string)
    (p : Playback) (u : Ui.State) :
  let p' := snd (fst (playAudio decodes a p u)) in
  let u' := snd (playAudio decodes a p u) in
  (if hasPayload a && decodes
   then attempts p' = (attempts p ++ [mp3])%list /\
        src p' = Some (nextUrl p) /\ nextUrl p' = S (nextUrl p) /\
        paused p' = false /\ revoked p' = revoked p
   else p' = p) /\
  Ui.errors u' = Ui.errors u /\
  map face (Ui.chat u') = map face (Ui.chat u).
Proof.
  cbv zeta. unfold playAudio, hasPayload.
  destruct a as [a|]; [|simpl; auto].
  destruct (String.eqb a ""); [simpl; auto|].
  destruct (String.eqb (Js.trim a) ""); [simpl; auto|]. simpl.
  assert (S1 : forall v, map face (Ui.chat (Ui.stopSpeakingAnimation v)) = map face (Ui.chat v)
                         /\ Ui.errors (Ui.stopSpeakingAnimation v) = Ui.errors v).
  { intros v. unfold Ui.stopSpeakingAnimation.
    destruct (Ui.currentAssistantMessageDiv v); simpl; [|auto].
    now rewrite map_face_setSpeaking. }
  assert (S2 : forall v, map face (Ui.chat (Ui.startSpeakingAnimation v)) = map face (Ui.chat v)
                         /\ Ui.errors (Ui.startSpeakingAnimation v) = Ui.errors v).
  { intros v. unfold Ui.startSpeakingAnimation.
    destruct (Ui.currentAssistantMessageDiv v); simpl; [|auto].
    now rewrite map_face_setSpeaking. }
  destruct decodes.
  - unfold tryFormats, formats, tryFormat, playAudioCatch, callAnimation. simpl.
    destruct (animationInScope p); simpl.
    + destruct (S2 u) as [E1 E2]. rewrite E1, E2. repeat split.
    + repeat split.
  - unfold playAudioCatch, callAnimation.
    destruct (animationInScope p); simpl.
    + destruct (S1 (Ui.consoleError "Error in audio playback:" u)) as [E1 E2].
      rewrite E1, E2. repeat split.
    + repeat split.
Qed.

Lemma playerStep_revokes_src e pu x :
  x ∈ revoked (fst (playerStep e pu)) ->
  x ∈ revoked (fst pu) \/ src (fst pu) = Some x.
Proof.
  destruct pu as [p u]. unfold playerStep. simpl.
  assert (R : x ∈ revoked (revokeSrc p) -> x ∈ revoked p \/ src p = Some x).
  { unfold revokeSrc. simpl. destruct (src p) as [y|]; [|auto].
    intros H. apply elem_of_app in H as [H|H]; [auto|].
    apply list_elem_of_singleton in H. subst. auto. }
  destruct e.
  - unfold playbackError. destruct (handlerFormat p); [|auto].
    destruct (match last formats with Some l => sameFormat _ l | None => false end).
    + destruct (callAnimation _ _ _) as [[] u']; simpl; auto.
    + simpl. exact R.
  - unfold playbackEnded. simpl. destruct (handlerFormat p); [|auto].
    destruct (callAnimation _ _ _) as [[] u']; simpl; auto.
Qed.

Lemma playerStep_src e pu : src (fst (playerStep e pu)) = src (fst pu).
Proof.
  destruct pu as [p u]. unfold playerStep. simpl. destruct e.
  - unfold playbackError. destruct (handlerFormat p); [|reflexivity].
    destruct (match last formats with Some l => sameFormat _ l | None => false end);
      [destruct (callAnimation _ _ _) as [[] u']|]; reflexivity.
  - unfold playbackEnded. simpl. destruct (handlerFormat p); [|reflexivity].
    destruct (callAnimation _ _ _) as [[] u']; reflexivity.
Qed.

Lemma playerRun_revokes_src es : forall pu x,
  x ∈ revoked (fst (playerRun es pu)) ->
  x ∈ revoked (fst pu) \/ src (fst pu) = Some x.
Proof.
  induction es as [|e es IH]; intros pu x H; simpl in *; [auto|].
  apply IH in H as [H|H].
  - exact (playerStep_revokes_src e pu x H).
  - right. now rewrite (playerStep_src e pu) in H.
Qed.

(** X14. The [onended] and [onerror] handlers release only the object
    URL the player holds at that moment.  So when [playAudio] loads a
    new payload while an earlier one is still loaded, the earlier URL is
    never released, whatever player events follow. *)
Theorem replaced_url_is_never_revoked (a : option string) (p : Playback)
    (u : Ui.State) (es : list PlayerEvent) (x : nat) :
  hasPayload a = true ->
  src p = Some x -> x <> nextUrl p -> x ∉ revoked p ->
  let pu := playAudio true a p u in
  src (snd (fst pu)) = Some (nextUrl p) /\
  x ∉ revoked (fst (playerRun es (snd (fst pu), snd pu))).
Proof.
  intros Ha Hs Hx Hr pu.
  destruct (playAudio_loads a p u Ha) as (H2 & H5).
  fold pu in H2, H5. split; [exact H2|].
  intros Hin. apply playerRun_revokes_src in Hin. simpl in Hin.
  rewrite H5, H2 in Hin. destruct Hin as [Hin|Hin]; [contradiction|congruence].
Qed.

Lemma replaced_url_is_never_revoked_witness :
  let p := snd (fst (playAudio true (Some "Zmlyc3Q=") (initialPlayback true) Ui.initial)) in
  let pu := playAudio true (Some "c2Vjb25k") p Ui.initial in
  src p = Some 0 /\
  src (snd (fst pu)) = Some 1 /\
  revoked (fst (playerRun [Ended; Errored] (snd (fst pu), snd pu))) = [1; 1] /\
  0 ∉ revoked (fst (playerRun [Ended; Errored] (snd (fst pu), snd pu))).
Proof.
  split; [reflexivity|].
  destruct (replaced_url_is_never_revoked (Some "c2Vjb25k")
              (snd (fst (playAudio true (Some "Zmlyc3Q=") (initialPlayback true) Ui.initial)))
              Ui.initial [Ended; Errored] 0 eq_refl eq_refl
              ltac:(discriminate) ltac:(apply not_elem_of_nil)) as (H1 & H2).
  split; [exact H1|]. split; [reflexivity|exact H2].
Defined.

End MorePlayback.

(** ** interview.js *)

Section MoreInterview.
Import Interview.

Ltac world :=
  repeat (progress
            rewrite ?iv_onUi, ?ui_onUi, ?speech_onUi, ?capture_onUi,
              ?playback_onUi, ?iv_onIv, ?ui_onIv, ?speech_onIv,
              ?capture_onIv, ?playback_onIv, ?iv_logEncodingFailure,
              ?speech_logEncodingFailure, ?capture_logEncodingFailure,
              ?playback_logEncodingFailure);
  cbv beta.

Ltac fields :=
  cbn [iv ui speech capture playback with_ui with_speech
       with_capture with_playback with_iv onUi onIv
       websocket interviewId textResponseInput voiceStyle
       isProcessingResponse isRecording viewInsightsVisible
       startBtnDisabled stopBtnDisabled sent connectCalls awaitingOpen
       suspendedSendAudio sendAudioTimers recordingTimers nextTimer
       clickAwaitingStop clickAwaitingStart
       set_websocket set_interviewId set_textResponseInput
       set_voiceStyle set_isProcessingResponse set_isRecording
       set_viewInsightsVisible set_buttons send set_connect
       set_suspendedSendAudio set_sendAudioTimers set_timers
       set_clicks] in *.

(** X15. A text submission whose input is empty or consists of white
    space only does nothing at all, whether or not a turn is in flight:
    no message, no loading indicator, no error, and the input keeps its
    content. *)
Theorem blank_text_is_ignored (w : World) :
  Js.whitespaceOnly (textResponseInput (iv w)) = true ->
  handleTextSubmission w = w.
Proof.
  intros H. unfold handleTextSubmission.
  now rewrite (whitespaceOnly_trim _ H).
Qed.

Lemma blank_text_is_ignored_witness :
  let w := step (TypeTextInput ("  " +:+ wideBlank))
             (run [StartNewInterview (Some "42"); SocketOpen] (initialWorld true false)) in
  textResponseInput (iv w) <> "" /\ handleTextSubmission w = w.
Proof.
  split; [discriminate|].
  apply (blank_text_is_ignored
           (step (TypeTextInput ("  " +:+ wideBlank))
              (run [StartNewInterview (Some "42"); SocketOpen] (initialWorld true false)))).
  reflexivity.
Defined.

(** X16. A text submitted while no turn is in flight and the
    connection is open sends exactly one message of type [text] whose
    content is the trimmed input and which carries the selected voice
    and no transcription.  The input is cleared, the guard is set, the
    loading indicator is shown and playback is paused.  For a text
    without markup characters, the text is shown as a user entry in
    place of any placeholder. *)
Theorem text_turn_is_sent (w : World) :
  Js.trim (textResponseInput (iv w)) <> "" ->
  isProcessingResponse (iv w) = false ->
  isOpen (iv w) = true ->
  let text := Js.trim (textResponseInput (iv w)) in
  let w' := handleTextSubmission w in
  sent (iv w') =
    (sent (iv w) ++
     [{| out_type := TypeText; out_content := text;
         out_transcription := None; out_voiceStyle := voiceStyle (iv w) |}])%list /\
  textResponseInput (iv w') = "" /\
  isProcessingResponse (iv w') = true /\
  Ui.loadingVisible (ui w') = true /\
  (Js.plain text = true ->
   Ui.chat (ui w') =
     (filter (fun d => Ui.isPlaceholder d = false) (Ui.chat (ui w)) ++
      [{| Ui.div_id := Ui.nextDiv (ui w); Ui.div_class := Ui.ClsUser;
          Ui.div_text := text; Ui.div_speaking := false |}])%list) /\
  (Audio.audioPlayer (playback w) = true -> Audio.paused (playback w') = true) /\
  Ui.errors (ui w') = Ui.errors (ui w) /\
  isRecording (iv w') = isRecording (iv w) /\
  speech w' = speech w.
Proof.
  intros Ht Hf Ho. cbv zeta. unfold handleTextSubmission.
  apply String.eqb_neq in Ht. rewrite Ht, Hf. cbv zeta.
  cbn [iv with_playback]. world. unfold isOpen in *. fields. rewrite Ho. fields.
  repeat split.
  intros Hp. unfold Audio.stopCurrentAudio. rewrite Hp. simpl.
  now destruct (Audio.paused (playback w)) eqn:E.
Qed.

Lemma text_turn_is_sent_witness :
  let w := run [StartNewInterview (Some "42"); SocketOpen; ClickStart;
                SelectVoice "Orion";
                TypeTextInput (wideBlank +:+ " my answer " +:+ wideBlank)]
             (initialWorld true false) in
  sent (iv (handleTextSubmission w)) =
    [{| out_type := TypeText; out_content := "my answer";
        out_transcription := None; out_voiceStyle := "Orion" |}] /\
  map face (Ui.chat (ui w)) = [(Ui.ClsUser, LISTENING)] /\
  map face (Ui.chat (ui (handleTextSubmission w))) = [(Ui.ClsUser, "my answer")].
Proof.
  destruct (text_turn_is_sent
              (run [StartNewInterview (Some "42"); SocketOpen; ClickStart;
                    SelectVoice "Orion";
                    TypeTextInput (wideBlank +:+ " my answer " +:+ wideBlank)]
                 (initialWorld true false))
              ltac:(vm_compute; discriminate) eq_refl eq_refl)
    as (H1 & _ & _ & _ & H5 & _).
  split; [exact H1|]. split; [reflexivity|]. rewrite (H5 eq_refl). reflexivity.
Defined.

Lemma playAudio_scope d a p u :
  Audio.animationInScope (snd (fst (Audio.playAudio d a p u))) = Audio.animationInScope p.
Proof.
  unfold Audio.playAudio. destruct a as [a|]; [|reflexivity].
  destruct (String.eqb a ""); [reflexivity|].
  destruct (String.eqb (Js.trim a) ""); [reflexivity|].
  destruct d; unfold Audio.tryFormats, Audio.formats, Audio.tryFormat,
    Audio.playAudioCatch, Audio.callAnimation; simpl;
    destruct (Audio.animationInScope p) eqn:E; simpl; auto.
Qed.

(** Without the animation functions in scope, [playAudio] ends by an
    exception whenever it gets as far as the payload. *)
Lemma playAudio_throws d a p u :
  Audio.animationInScope p = false -> hasPayload a = true ->
  fst (fst (Audio.playAudio d a p u)) = true.
Proof.
  intros Hs Ha. unfold Audio.playAudio, hasPayload in *.
  destruct a as [a|]; [|discriminate].
  destruct (String.eqb a ""); [discriminate|].
  destruct (String.eqb (Js.trim a) ""); [discriminate|].
  destruct d; unfold Audio.tryFormats, Audio.formats, Audio.tryFormat,
    Audio.playAudioCatch, Audio.callAnimation; simpl; now rewrite Hs.
Qed.

Lemma hasPayload_truthy a : hasPayload a = true -> Js.truthy a = true.
Proof.
  unfold hasPayload, Js.truthy. destruct a as [a|]; [|discriminate].
  now destruct (String.eqb a "").
Qed.

Ltac inbound :=
  unfold handleWebSocketMessage, catchMessageError, checkComplete,
    processingComplete, passedOver;
  repeat match goal with
         | |- context [Audio.playAudio ?d ?a ?p ?u] =>
             destruct (Audio.playAudio d a p u) as [[[] ?] ?]
         | |- context [if ?b then _ else _] => destruct b
         | |- context [match ?p with Malformed => _ | _ => _ end] => destruct p
         end;
  fields; repeat split; try reflexivity; try discriminate.

(** X17. Every inbound payload clears the in-flight guard and hides the
    loading indicator -- assistant and system messages, messages of any
    other role that have content, payloads that do not parse, and
    messages whose audio makes [playAudio] fail -- with one exception:
    an object of another role without content is passed over, and
    leaves guard, chat and player as they were. *)
Theorem inbound_clears_guard_unless_passed_over (p : Payload) (d : bool) (w : World) :
  let w' := handleWebSocketMessage p d w in
  if passedOver p
  then isProcessingResponse (iv w') = isProcessingResponse (iv w) /\
       ui w' = ui w /\ playback w' = playback w
  else isProcessingResponse (iv w') = false /\ Ui.loadingVisible (ui w') = false.
Proof.
  cbv zeta. destruct p as [| |m]; [split; reflexivity|split; reflexivity|].
  unfold passedOver, handleWebSocketMessage. cbv zeta.
  destruct (String.eqb (roleOf m) "assistant"); cbn [negb andb].
  - destruct (Js.truthy (audio m)).
    + destruct (Audio.playAudio _ _ _ _) as [[[] ?] ?];
        unfold catchMessageError, checkComplete, processingComplete;
        destruct (interviewComplete m); split; reflexivity.
    + unfold checkComplete, processingComplete;
        destruct (interviewComplete m); split; reflexivity.
  - destruct (String.eqb (roleOf m) "system"); cbn [negb andb].
    + unfold checkComplete, processingComplete;
        destruct (interviewComplete m); split; reflexivity.
    + destruct (Js.truthy (content m)); cbn [negb];
        unfold checkComplete, processingComplete;
        destruct (interviewComplete m); repeat split; reflexivity.
Qed.

Lemma inbound_frame (p : Payload) (d : bool) (w : World) :
  let w' := handleWebSocketMessage p d w in
  sent (iv w') = sent (iv w) /\
  websocket (iv w') = websocket (iv w) /\
  connectCalls (iv w') = connectCalls (iv w) /\
  interviewId (iv w') = interviewId (iv w) /\
  isRecording (iv w') = isRecording (iv w) /\
  startBtnDisabled (iv w') = startBtnDisabled (iv w) /\
  stopBtnDisabled (iv w') = stopBtnDisabled (iv w) /\
  suspendedSendAudio (iv w') = suspendedSendAudio (iv w) /\
  sendAudioTimers (iv w') = sendAudioTimers (iv w) /\
  recordingTimers (iv w') = recordingTimers (iv w) /\
  textResponseInput (iv w') = textResponseInput (iv w) /\
  speech w' = speech w /\
  capture w' = capture w.
Proof. cbv zeta. inbound. Qed.

(** X18. No inbound payload, whatever it contains, touches the
    connection, the outbound messages, the recording state and its
    controls, the pending submissions, the text input, the transcript
    or the capture buffer: handling a message changes the guard, the
    insights button, the chat and the player only. *)
Theorem inbound_leaves_connection_and_recording (p : Payload) (d : bool) (w : World) :
  let w' := handleWebSocketMessage p d w in
  sent (iv w') = sent (iv w) /\
  websocket (iv w') = websocket (iv w) /\
  connectCalls (iv w') = connectCalls (iv w) /\
  interviewId (iv w') = interviewId (iv w) /\
  isRecording (iv w') = isRecording (iv w) /\
  startBtnDisabled (iv w') = startBtnDisabled (iv w) /\
  stopBtnDisabled (iv w') = stopBtnDisabled (iv w) /\
  suspendedSendAudio (iv w') = suspendedSendAudio (iv w) /\
  sendAudioTimers (iv w') = sendAudioTimers (iv w) /\
  recordingTimers (iv w') = recordingTimers (iv w) /\
  textResponseInput (iv w') = textResponseInput (iv w) /\
  speech w' = speech w /\
  capture w' = capture w.
Proof. cbv zeta. inbound. Qed.

(** X19. audio.js imports only [showError] from ui.js.  With the
    animation functions unresolved there, an assistant message that
    carries an audio payload is displayed and clears the guard, but its
    handling ends in the [catch] block: the completion check is never
    reached, and the insights button stays as it was even when the
    message is flagged [interviewComplete]. *)
Theorem audio_message_skips_completion_check (m : Message) (d : bool) (w : World) :
  Audio.animationInScope (playback w) = false ->
  String.eqb (roleOf m) "assistant" = true ->
  hasPayload (audio m) = true ->
  let w' := handleWebSocketMessage (Object m) d w in
  viewInsightsVisible (iv w') = viewInsightsVisible (iv w) /\
  isProcessingResponse (iv w') = false /\
  Ui.loadingVisible (ui w') = false /\
  map face (Ui.chat (ui w')) =
    (map face (Ui.chat (ui w)) ++
     [(Ui.ClsAssistant, Js.trim (Js.orElse (content m) "Empty message"))])%list.
Proof.
  intros Hs Hr Ha. cbv zeta. unfold handleWebSocketMessage.
  rewrite Hr, (hasPayload_truthy _ Ha). cbv zeta.
  pose proof (playAudio_throws d (audio m)
                (playback (onUi (Ui.displayMessage (Some "assistant") (content m)) w))
                (ui (onUi (Ui.displayMessage (Some "assistant") (content m)) w))
                Hs Ha) as Ht.
  pose proof (playAudio_faces d (audio m)
                (playback (onUi (Ui.displayMessage (Some "assistant") (content m)) w))
                (ui (onUi (Ui.displayMessage (Some "assistant") (content m)) w)))
    as Hc.
  destruct (Audio.playAudio _ _ _ _) as [[t p'] u']. simpl in Ht, Hc. subst t.
  unfold catchMessageError. fields. repeat split.
  change (map face (Ui.chat u') =
          (map face (Ui.chat (ui w)) ++
           [(Ui.ClsAssistant, Js.trim (Js.orElse (content m) "Empty message"))])%list).
  rewrite Hc.
  apply displayMessage_assistant_faces.
Qed.

Lemma audio_message_skips_completion_check_witness :
  let m := {| role := Some "assistant"; content := Some "That was the last question.";
              audio := Some "SGVsbG8="; interviewComplete := true |} in
  let w := run [StartNewInterview (Some "42"); SocketOpen] (initialWorld true false) in
  viewInsightsVisible (iv (handleWebSocketMessage (Object m) true w)) = false /\
  viewInsightsVisible
    (iv (handleWebSocketMessage
           (Object {| role := role m; content := content m; audio := None;
                      interviewComplete := true |}) true w)) = true.
Proof.
  split; [|reflexivity].
  destruct (audio_message_skips_completion_check
              {| role := Some "assistant"; content := Some "That was the last question.";
                 audio := Some "SGVsbG8="; interviewComplete := true |} true
              (run [StartNewInterview (Some "42"); SocketOpen] (initialWorld true false))
              eq_refl eq_refl eq_refl) as (H & _).
  exact H.
Defined.

Lemma noSpeech_nonempty t : noSpeech t = false -> String.eqb t "" = false.
Proof. unfold noSpeech. now destruct (String.eqb t ""). Qed.

Lemma displayMessage_user_chat t u :
  String.eqb t "" = false ->
  Ui.displayMessage (Some "user") (Some t) u = Ui.appendDiv Ui.ClsUser t u.
Proof.
  intros Ht. unfold Ui.displayMessage, Ui.displayUserMessage, Js.truthy, Js.orElse.
  change (String.eqb "user" "") with false. cbn [negb].
  change (String.eqb "user" "assistant") with false.
  change (String.eqb "user" "user") with true.
  rewrite Ht. cbn [negb]. now rewrite Ht.
Qed.

(** The chat after a [sendAudio] that found speech, whatever the state
    of the connection: the placeholders are gone and the transcript is
    the newest entry. *)
Lemma sendAudioResume_chat a w :
  noSpeech (Speech.getTranscription (speech w)) = false ->
  Ui.chat (ui (sendAudioResume a w)) =
    (filter (fun d => Ui.isPlaceholder d = false) (Ui.chat (ui w)) ++
     [{| Ui.div_id := Ui.nextDiv (ui w); Ui.div_class := Ui.ClsUser;
         Ui.div_text := Speech.getTranscription (speech w);
         Ui.div_speaking := false |}])%list.
Proof.
  intros H. unfold sendAudioResume. rewrite H. cbv zeta.
  rewrite iv_onUi. unfold connectWebSocket.
  destruct (isOpen (iv w)); [|destruct (Js.truthy (interviewId (iv w))) eqn:E];
    fields; try rewrite E; fields; world;
    rewrite (displayMessage_user_chat _ _ (noSpeech_nonempty _ H)); reflexivity.
Qed.

Lemma sendAudioResume_suspended a w :
  suspendedSendAudio (iv (sendAudioResume a w)) = suspendedSendAudio (iv w).
Proof.
  unfold sendAudioResume, connectWebSocket.
  destruct (noSpeech _); fields; [reflexivity|].
  destruct (isOpen _); fields; [reflexivity|].
  destruct (Js.truthy _); reflexivity.
Qed.

Lemma sendAudio_accepted w :
  isProcessingResponse (iv w) = false ->
  suspendedSendAudio (iv w) = [] ->
  forall b, exists a w1,
    audioEncoded b (sendAudio w) = sendAudioResume a w1 /\
    a = Audio.getRecordedAudioBase64 (Audio.audioChunks (capture w)) b /\
    iv w1 = set_isRecording false (set_isProcessingResponse true (iv w)) /\
    (Ui.chat (ui w1) = Ui.chat (ui w) /\ Ui.nextDiv (ui w1) = Ui.nextDiv (ui w) /\
     Ui.errors (ui w1) = Ui.errors (ui w) /\ Ui.loadingVisible (ui w1) = true) /\
    speech w1 = speech w /\ capture w1 = capture w /\ playback w1 = playback w.
Proof.
  intros Hf Hs b. unfold sendAudio. rewrite Hf. cbv zeta.
  rewrite capture_onUi, capture_onIv.
  destruct (Audio.audioChunks (capture w)) as [|c cs] eqn:E.
  - exists None,
      (onUi Ui.showLoading
         (onIv (fun s => set_isRecording false (set_isProcessingResponse true s)) w)).
    split; [|repeat split].
    unfold audioEncoded. rewrite sendAudioResume_suspended. fields.
    now rewrite Hs.
  - unfold audioEncoded. fields. rewrite Hs. cbn [app].
    eexists _, _. split; [reflexivity|].
    rewrite iv_logEncodingFailure, chat_logEncodingFailure,
      nextDiv_logEncodingFailure, errors_logEncodingFailure,
      loading_logEncodingFailure, speech_logEncodingFailure,
      capture_logEncodingFailure, playback_logEncodingFailure.
    fields.
    destruct w as [u sp c0 pl [ ]]. fields. simpl in Hs. subst.
    repeat split.
Qed.

(** X20. A voice turn that goes through: [sendAudio] accepted with a
    transcript that says something and the connection open sends one
    message of type [audio] carrying the encoded recording (the empty
    string when nothing was captured or the encoding failed), the
    transcript and the selected voice; the transcript is then reset,
    the guard stays set with the loading indicator shown and recording
    is over.  For a transcript without markup characters, every
    placeholder has left the chat and the transcript is its newest
    entry. *)
Theorem voice_turn_is_sent (blobToBase64 : option string) (w : World) :
  isProcessingResponse (iv w) = false ->
  suspendedSendAudio (iv w) = [] ->
  noSpeech (Speech.getTranscription (speech w)) = false ->
  isOpen (iv w) = true ->
  let transcript := Speech.getTranscription (speech w) in
  let w' := audioEncoded blobToBase64 (sendAudio w) in
  sent (iv w') =
    (sent (iv w) ++
     [{| out_type := TypeAudio;
         out_content :=
           Js.orElse (Audio.getRecordedAudioBase64
                        (Audio.audioChunks (capture w)) blobToBase64) "";
         out_transcription := Some transcript;
         out_voiceStyle := voiceStyle (iv w) |}])%list /\
  Speech.getTranscription (speech w') = "" /\
  isProcessingResponse (iv w') = true /\
  isRecording (iv w') = false /\
  Ui.loadingVisible (ui w') = true /\
  (Js.plain transcript = true ->
   Ui.chat (ui w') =
     (filter (fun d => Ui.isPlaceholder d = false) (Ui.chat (ui w)) ++
      [{| Ui.div_id := Ui.nextDiv (ui w); Ui.div_class := Ui.ClsUser;
          Ui.div_text := transcript; Ui.div_speaking := false |}])%list) /\
  Ui.errors (ui w') = Ui.errors (ui w) /\
  connectCalls (iv w') = connectCalls (iv w).
Proof.
  intros Hf Hs Hn Ho. cbv zeta.
  destruct (sendAudio_accepted w Hf Hs blobToBase64)
    as (a & w1 & E & Ea & Ei & (Eu1 & Eu2 & Eu3 & Eu4) & Esp & Ec & Ep).
  rewrite E.
  assert (Hn1 : noSpeech (Speech.getTranscription (speech w1)) = false)
    by now rewrite Esp.
  assert (Ho1 : isOpen (iv w1) = true)
    by (rewrite Ei; unfold isOpen in *; fields; exact Ho).
  destruct (sendAudioResume_open a w1 Hn1 Ho1) as (Hi & Hsp & He).
  pose proof (sendAudioResume_chat a w1 Hn1) as Hc.
  rewrite Hi, Hsp, He, Hc, Ei, Eu1, Eu2, Eu3, Esp, <- Ea. fields.
  repeat split.
  unfold sendAudioResume. rewrite Hn1. cbv zeta. rewrite iv_onUi, Ho1.
  fields. rewrite (displayMessage_user_chat _ _ (noSpeech_nonempty _ Hn1)).
  exact Eu4.
Qed.

Lemma voice_turn_is_sent_witness :
  let w := run [StartNewInterview (Some "42"); SocketOpen; ClickStart;
                MicrophoneSettled true; Recognizer Speech.RecognitionStarted;
                Recognizer (Speech.RecognitionResult 0 [(true, "I led a team")]);
                DataAvailable 0 "pcm"; ClickStop]
             (initialWorld true false) in
  sent (iv (audioEncoded (Some "UklGRg==") (sendAudio w))) =
    [{| out_type := TypeAudio; out_content := "UklGRg==";
        out_transcription := Some "I led a team"; out_voiceStyle := "Nova" |}] /\
  length (Ui.chat (ui (audioEncoded (Some "UklGRg==") (sendAudio w)))) = 2 /\
  sent (iv (audioEncoded None (sendAudio w))) =
    [{| out_type := TypeAudio; out_content := "";
        out_transcription := Some "I led a team"; out_voiceStyle := "Nova" |}].
Proof.
  destruct (voice_turn_is_sent (Some "UklGRg==")
              (run [StartNewInterview (Some "42"); SocketOpen; ClickStart;
                    MicrophoneSettled true; Recognizer Speech.RecognitionStarted;
                    Recognizer (Speech.RecognitionResult 0 [(true, "I led a team")]);
                    DataAvailable 0 "pcm"; ClickStop]
                 (initialWorld true false))
              eq_refl eq_refl eq_refl eq_refl) as (H & _ & _ & _ & _ & Hc & _).
  split; [exact H|]. split; [|reflexivity].
  cbv zeta. rewrite (Hc eq_refl). reflexivity.
Defined.

Lemma sendAudioResume_closed_speech a w :
  isOpen (iv w) = false -> speech (sendAudioResume a w) = speech w.
Proof.
  intros Hc. unfold sendAudioResume, connectWebSocket.
  destruct (noSpeech _); fields; [reflexivity|]. rewrite Hc.
  destruct (Js.truthy _); reflexivity.
Qed.

(** X21. A voice turn that cannot be sent: with the connection not open,
    an accepted [sendAudio] whose transcript says something sends
    nothing, keeps the transcript (it is reset only after a send),
    clears the guard, hides the loading indicator, reports the lost
    connection and makes one reconnect attempt.  For a transcript
    without markup characters, the transcript is shown all the same as
    the user's newest message. *)
Theorem unsent_voice_turn_is_shown_and_kept (blobToBase64 : option string) (w : World) :
  isProcessingResponse (iv w) = false ->
  suspendedSendAudio (iv w) = [] ->
  noSpeech (Speech.getTranscription (speech w)) = false ->
  isOpen (iv w) = false ->
  let w' := audioEncoded blobToBase64 (sendAudio w) in
  sent (iv w') = sent (iv w) /\
  speech w' = speech w /\
  (Js.plain (Speech.getTranscription (speech w)) = true ->
   Ui.chat (ui w') =
     (filter (fun d => Ui.isPlaceholder d = false) (Ui.chat (ui w)) ++
      [{| Ui.div_id := Ui.nextDiv (ui w); Ui.div_class := Ui.ClsUser;
          Ui.div_text := Speech.getTranscription (speech w);
          Ui.div_speaking := false |}])%list) /\
  isProcessingResponse (iv w') = false /\
  isRecording (iv w') = false /\
  Ui.loadingVisible (ui w') = false /\
  connectCalls (iv w') = S (connectCalls (iv w)) /\
  exists shown,
    Ui.errors (ui w') =
    (Ui.errors (ui w) ++
     "Connection lost. Please reload the page to reconnect." :: shown)%list.
Proof.
  intros Hf Hs Hn Hc. cbv zeta.
  destruct (sendAudio_accepted w Hf Hs blobToBase64)
    as (a & w1 & E & Ea & Ei & (Eu1 & Eu2 & Eu3 & Eu4) & Esp & Ec & Ep).
  rewrite E.
  assert (Hn1 : noSpeech (Speech.getTranscription (speech w1)) = false)
    by now rewrite Esp.
  assert (Hc1 : isOpen (iv w1) = false)
    by (rewrite Ei; unfold isOpen in *; fields; exact Hc).
  destruct (sendAudioResume_closed a w1 Hn1 Hc1)
    as (H1 & H2 & _ & H4 & H5 & H6 & shown & H7).
  rewrite (sendAudioResume_closed_speech a w1 Hc1), (sendAudioResume_chat a w1 Hn1).
  rewrite H1, H2, H4, H5, H6, H7, Ei, Eu1, Eu2, Eu3, Esp. fields.
  repeat split. now exists shown.
Qed.

Lemma unsent_voice_turn_is_shown_and_kept_witness :
  let w := run [StartNewInterview (Some "42"); SocketOpen; ClickStart;
                MicrophoneSettled true; Recognizer Speech.RecognitionStarted;
                Recognizer (Speech.RecognitionResult 0 [(true, "I led a team")]);
                SocketClose true 1006 ""; ClickStop]
             (initialWorld true false) in
  let w' := audioEncoded None (sendAudio w) in
  sent (iv w') = [] /\
  Speech.getTranscription (speech w') = "I led a team" /\
  map face (Ui.chat (ui w')) = [(Ui.ClsUser, "I led a team"); (Ui.ClsUser, "I led a team")].
Proof.
  destruct (unsent_voice_turn_is_shown_and_kept None
              (run [StartNewInterview (Some "42"); SocketOpen; ClickStart;
                    MicrophoneSettled true; Recognizer Speech.RecognitionStarted;
                    Recognizer (Speech.RecognitionResult 0 [(true, "I led a team")]);
                    SocketClose true 1006 ""; ClickStop]
                 (initialWorld true false))
              eq_refl eq_refl eq_refl eq_refl) as (H1 & H2 & H3 & _).
  cbv zeta. rewrite H1, H2, (H3 eq_refl). repeat split.
Defined.

Lemma noSpeech_empty : noSpeech "" = true.
Proof. reflexivity. Qed.

Lemma audioEncoded_idle b w : suspendedSendAudio (iv w) = [] -> audioEncoded b w = w.
Proof. intros H. unfold audioEncoded. now rewrite H. Qed.

Lemma sendAudio_suspended_rejected w :
  isProcessingResponse (iv w) = true -> sendAudio w = w.
Proof. intros H. unfold sendAudio. now rewrite H. Qed.

(** X22. A transcript is sent once.  After a voice turn has gone out,
    whatever payload arrives next, another [sendAudio] sends nothing
    more: either the guard is still set and the call is rejected, or the
    call is accepted, finds the transcript reset by the first send, and
    ends in the no-speech branch. *)
Theorem sent_transcript_is_not_resent (b b' : option string) (p : Payload)
    (d : bool) (w : World) :
  isProcessingResponse (iv w) = false ->
  suspendedSendAudio (iv w) = [] ->
  noSpeech (Speech.getTranscription (speech w)) = false ->
  isOpen (iv w) = true ->
  let w1 := audioEncoded b (sendAudio w) in
  let w2 := handleWebSocketMessage p d w1 in
  let w3 := audioEncoded b' (sendAudio w2) in
  length (sent (iv w1)) = S (length (sent (iv w))) /\
  sent (iv w3) = sent (iv w1) /\
  isProcessingResponse (iv w3) = isProcessingResponse (iv w2) /\
  isOpen (iv w3) = true.
Proof.
  intros Hf Hs Hn Ho. cbv zeta.
  destruct (sendAudio_accepted w Hf Hs b)
    as (a & w1 & E & Ea & Ei & Eu & Esp & Ec & Ep).
  assert (Hn1 : noSpeech (Speech.getTranscription (speech w1)) = false)
    by now rewrite Esp.
  assert (Ho1 : isOpen (iv w1) = true)
    by (rewrite Ei; unfold isOpen in *; fields; exact Ho).
  destruct (sendAudioResume_open a w1 Hn1 Ho1) as (Hi & Hsp & _).
  pose proof (sendAudioResume_suspended a w1) as Hsu.
  rewrite E. set (v1 := sendAudioResume a w1) in *.
  assert (Hs1 : suspendedSendAudio (iv v1) = [])
    by (rewrite Hsu, Ei; fields; exact Hs).
  assert (Ho2 : isOpen (iv v1) = true)
    by (rewrite Hi, Ei; unfold isOpen in *; fields; exact Ho).
  destruct (inbound_frame p d v1)
    as (F1 & F2 & _ & _ & _ & _ & _ & F8 & _ & _ & _ & F12 & _).
  set (v2 := handleWebSocketMessage p d v1) in *.
  assert (Hs2 : suspendedSendAudio (iv v2) = []) by now rewrite F8.
  assert (Ho3 : isOpen (iv v2) = true) by (unfold isOpen in *; now rewrite F2).
  split; [rewrite Hi, Ei; fields; rewrite length_app; simpl; lia|].
  destruct (isProcessingResponse (iv v2)) eqn:Hf2.
  - rewrite (sendAudio_suspended_rejected v2 Hf2), (audioEncoded_idle b' v2 Hs2).
    auto.
  - destruct (sendAudio_accepted v2 Hf2 Hs2 b')
      as (a' & v3 & E' & _ & Ei' & _ & Esp' & _).
    rewrite E'.
    assert (Hq : noSpeech (Speech.getTranscription (speech v3)) = true).
    { rewrite Esp', F12, Hsp. reflexivity. }
    rewrite (sendAudioResume_noSpeech a' v3 Hq). fields. rewrite Ei'. fields.
    unfold isOpen in *. fields. auto.
Qed.

Lemma sent_transcript_is_not_resent_witness :
  let w := run [StartNewInterview (Some "42"); SocketOpen; ClickStart;
                MicrophoneSettled true; Recognizer Speech.RecognitionStarted;
                Recognizer (Speech.RecognitionResult 0 [(true, "I led a team")]);
                DataAvailable 0 "pcm"; ClickStop]
             (initialWorld true false) in
  let reply := Object {| role := Some "assistant"; content := Some "Tell me more.";
                         audio := None; interviewComplete := false |} in
  let w1 := audioEncoded (Some "UklGRg==") (sendAudio w) in
  let w3 := audioEncoded (Some "UklGRg==") (sendAudio (handleWebSocketMessage reply true w1)) in
  length (sent (iv w1)) = 1 /\ sent (iv w3) = sent (iv w1) /\
  Ui.errors (ui w3) = ["No speech detected. Please try again."].
Proof.
  destruct (sent_transcript_is_not_resent (Some "UklGRg==") (Some "UklGRg==")
              (Object {| role := Some "assistant"; content := Some "Tell me more.";
                         audio := None; interviewComplete := false |}) true
              (run [StartNewInterview (Some "42"); SocketOpen; ClickStart;
                    MicrophoneSettled true; Recognizer Speech.RecognitionStarted;
                    Recognizer (Speech.RecognitionResult 0 [(true, "I led a team")]);
                    DataAvailable 0 "pcm"; ClickStop]
                 (initialWorld true false))
              eq_refl eq_refl eq_refl eq_refl) as (H1 & H2 & _).
  split; [exact H1|]. split; [exact H2|reflexivity].
Defined.

Lemma sendAudioResume_controls a w :
  isRecording (iv (sendAudioResume a w)) = isRecording (iv w) /\
  stopBtnDisabled (iv (sendAudioResume a w)) = stopBtnDisabled (iv w) /\
  sendAudioTimers (iv (sendAudioResume a w)) = sendAudioTimers (iv w) /\
  clickAwaitingStop (iv (sendAudioResume a w)) = clickAwaitingStop (iv w) /\
  clickAwaitingStart (iv (sendAudioResume a w)) = clickAwaitingStart (iv w).
Proof.
  unfold sendAudioResume, connectWebSocket.
  destruct (noSpeech _); fields; [repeat split|].
  destruct (isOpen _); fields; [repeat split|].
  destruct (Js.truthy _); repeat split.
Qed.

Lemma step_controlsDead e w :
  e <> CallSendAudio -> controlsDead w -> controlsDead (step e w).
Proof.
  intros Hne (H1 & H2 & H3 & H4 & H5). unfold controlsDead.
  destruct e; cbn [step]; try congruence.
  - unfold startNewInterview, connectWebSocket. fields.
    destruct (Js.truthy id); fields; auto.
  - unfold socketOpen. destruct (websocket (iv w)) as [[]|]; fields; auto.
    destruct (awaitingOpen (iv w)); fields; auto.
  - unfold socketError. destruct current; fields; auto.
  - unfold socketClose.
    destruct current; destruct (Nat.eqb code 1000);
      destruct (websocket (iv w)) as [[]|]; fields; auto.
  - destruct (inbound_frame p decodes w)
      as (_ & _ & _ & _ & F5 & _ & F7 & _ & F9 & _).
    rewrite F5, F7, F9. repeat split; auto;
      unfold handleWebSocketMessage, catchMessageError, checkComplete,
        processingComplete;
      repeat match goal with
             | |- context [Audio.playAudio ?d ?a ?p ?u] =>
                 destruct (Audio.playAudio d a p u) as [[[] ?] ?]
             | |- context [if ?b then _ else _] => destruct b
             | |- context [match ?p with Malformed => _ | _ => _ end] => destruct p
             end; fields; assumption.
  - fields. auto.
  - fields. auto.
  - unfold handleTextSubmission.
    destruct (String.eqb _ ""); [auto|].
    destruct (isProcessingResponse (iv w)); [auto|]. cbv zeta.
    destruct (isOpen _); fields; auto.
  - unfold clickStartButton, startClick. rewrite H1.
    destruct (startBtnDisabled (iv w)); auto.
  - unfold clickStopButton. rewrite H2. auto.
  - unfold recordingTimerFired.
    destruct (bool_decide _); [|auto]. fields. rewrite H1.
    unfold clickStopButton. fields. rewrite H2. fields. auto.
  - unfold sendAudioTimerFired. rewrite H3. auto.
  - unfold audioEncoded.
    destruct (suspendedSendAudio (iv w)) as [|c rest]; [auto|].
    destruct (sendAudioResume_controls
                (Audio.getRecordedAudioBase64 c blobToBase64)
                (logEncodingFailure c blobToBase64
                   (onIv (set_suspendedSendAudio rest) w)))
      as (E1 & E2 & E3 & E4 & E5).
    rewrite E1, E2, E3, E4, E5, iv_logEncodingFailure. fields. auto.
  - unfold recorderStopped.
    destruct (Audio.recorders (capture w) !! r) as [[]|]; auto;
      rewrite H4, filter_nil; cbn [length repeatedly]; fields;
      rewrite ?H4, ?H5, ?filter_nil; auto.
  - fields. auto.
  - unfold microphoneSettled.
    destruct (Audio.microphoneSettled granted (capture w) (ui w)) as [[[b|] c] u];
      [|auto].
    fields. rewrite H5. fields. auto.
  - destruct (Speech.step e (speech w, ui w)). fields. auto.
  - destruct (Audio.playbackError (playback w) (ui w)). fields. auto.
  - destruct (Audio.playbackEnded (playback w) (ui w)). fields. auto.
Qed.

(** X23. The recording controls can be lost for good.  Once the page
    holds [isRecording] with the stop button disabled and no stop timer
    or suspended start click left -- the state a stop click leaves
    behind when its [sendAudio] is rejected because a text turn is in
    flight -- no user action, timer, socket, recorder, recognizer or
    player event changes that: the start handler returns at its first
    test, the stop button takes no click, and only the page's own
    [sendAudio] would reset [isRecording]. *)
Theorem dead_controls_stay_dead (es : list Event) (w : World) :
  controlsDead w ->
  Forall (fun e => e <> CallSendAudio) es ->
  controlsDead (run es w).
Proof.
  intros Hd Hes. revert w Hd. unfold run.
  induction Hes as [|e es He _ IH]; intros w Hd; [exact Hd|].
  simpl. apply IH. now apply step_controlsDead.
Qed.

Lemma dead_controls_stay_dead_witness :
  let w := run [StartNewInterview (Some "42"); SocketOpen; ClickStart;
                MicrophoneSettled true; TypeTextInput "typed instead";
                SubmitText; ClickStop; SendAudioTimer]
             (initialWorld true false) in
  let reply := Object {| role := Some "assistant"; content := Some "Next question.";
                         audio := None; interviewComplete := false |} in
  controlsDead w /\
  controlsDead (run [SocketMessage reply true; RecordingTimer 0; ClickStop;
                     ClickStart; MicrophoneSettled true; SendAudioTimer] w) /\
  startBtnDisabled (iv w) = false.
Proof.
  assert (Hd : controlsDead
                 (run [StartNewInterview (Some "42"); SocketOpen; ClickStart;
                       MicrophoneSettled true; TypeTextInput "typed instead";
                       SubmitText; ClickStop; SendAudioTimer]
                    (initialWorld true false)))
    by (repeat split; reflexivity).
  split; [exact Hd|]. split; [|reflexivity].
  apply (dead_controls_stay_dead
           [SocketMessage (Object {| role := Some "assistant";
                                     content := Some "Next question.";
                                     audio := None; interviewComplete := false |}) true;
            RecordingTimer 0; ClickStop; ClickStart; MicrophoneSettled true;
            SendAudioTimer]
           _ Hd).
  repeat constructor; discriminate.
Defined.

(** X24. A start click that fails -- the microphone is refused, or the
    browser has no speech recognition -- gives the controls back: the
    page is no longer recording, the start button is enabled, the stop
    button disabled, the click's own safety timer cleared, and the
    failure is the last error shown.  What was started on the way is
    not undone: the placeholder stays in the chat, a granted recorder
    keeps recording, and an available recognizer has been started.
    The click concerned is the one whose microphone request is the
    oldest, also when an earlier click is still suspended on a stop
    event. *)
Theorem failed_start_restores_controls (granted : bool) (timer : nat)
    (rest : list (nat * option nat)) (w : World) :
  Audio.awaitingMic (capture w) <> 0 ->
  oldestRequest (clickAwaitingStart (iv w)) = Some (timer, rest) ->
  granted = false \/ Speech.speechApi (speech w) = false ->
  let w' := microphoneSettled granted w in
  isRecording (iv w') = false /\
  startBtnDisabled (iv w') = false /\
  stopBtnDisabled (iv w') = true /\
  (timer ∉ recordingTimers (iv w')) /\
  clickAwaitingStart (iv w') = rest /\
  last (Ui.errors (ui w')) =
    Some "Failed to start recording. Please check microphone access and browser permissions." /\
  Ui.chat (ui w') = Ui.chat (ui w) /\
  (granted = true ->
   Audio.recorders (capture w') = (Audio.recorders (capture w) ++ [Audio.Recording])%list /\
   Audio.mediaRecorder (capture w') = Some (length (Audio.recorders (capture w)))) /\
  (Speech.speechApi (speech w) = true -> Speech.recognition (speech w') = true).
Proof.
  intros Hm Hc Hfail. cbv zeta. unfold microphoneSettled, Audio.microphoneSettled.
  destruct (Audio.awaitingMic (capture w)) as [|n] eqn:En; [congruence|].
  assert (Hnot : forall l : list nat, timer ∉ filter (fun t => t <> timer) l).
  { intros l Hin. apply list_elem_of_filter in Hin. destruct Hin as [Hin _].
    now apply Hin. }
  destruct granted.
  - destruct Hfail as [Hg|Ha]; [discriminate|].
    fields. rewrite Hc. unfold startClickAfterStart, Speech.startRecognition.
    fields. rewrite Ha. fields.
    repeat split; try apply Hnot; try congruence.
    unfold Ui.showError. cbn [Ui.errors]. apply last_snoc.
  - fields. rewrite Hc. unfold startClickAfterStart, Speech.startRecognition.
    fields.
    destruct (Speech.speechApi (speech w)) eqn:Ea; fields;
      repeat split; try apply Hnot; try congruence;
      unfold Ui.showError; cbn [Ui.errors]; apply last_snoc.
Qed.

Lemma failed_start_restores_controls_witness :
  let w := run [StartNewInterview (Some "42"); SocketOpen; ClickStart]
             (initialWorld true false) in
  let w' := microphoneSettled false w in
  isRecording (iv w) = true /\ isRecording (iv w') = false /\
  startBtnDisabled (iv w') = false /\
  Speech.recognition (speech w') = true /\
  map face (Ui.chat (ui w')) = [(Ui.ClsUser, LISTENING)] /\
  (let v := run [StartNewInterview (Some "42"); SocketOpen; ClickStart]
              (initialWorld false false) in
   isRecording (iv (microphoneSettled true v)) = false /\
   Audio.recorders (capture (microphoneSettled true v)) = [Audio.Recording]) /\
  (let x := run [StartNewInterview (Some "42"); SocketOpen;
                 ClickStart; ClickStop; SendAudioTimer;
                 ClickStart; ClickStop; SendAudioTimer; MicrophoneSettled true;
                 ClickStart; MicrophoneSettled true; RecorderStopped 0;
                 ClickStop; SendAudioTimer; ClickStart]
              (initialWorld true false) in
   clickAwaitingStart (iv x) = [(2, Some 1); (3, None)] /\
   clickAwaitingStart (iv (microphoneSettled false x)) = [(2, Some 1)] /\
   (3 ∉ recordingTimers (iv (microphoneSettled false x)))).
Proof.
  destruct (failed_start_restores_controls false 0 []
              (run [StartNewInterview (Some "42"); SocketOpen; ClickStart]
                 (initialWorld true false))
              ltac:(discriminate) eq_refl (or_introl eq_refl))
    as (H1 & H2 & _ & _ & _ & _ & H7 & _ & H9).
  destruct (failed_start_restores_controls true 0 []
              (run [StartNewInterview (Some "42"); SocketOpen; ClickStart]
                 (initialWorld false false))
              ltac:(discriminate) eq_refl (or_intror eq_refl))
    as (G1 & _ & _ & _ & _ & _ & _ & G8 & _).
  destruct (failed_start_restores_controls false 3 [(2, Some 1)]
              (run [StartNewInterview (Some "42"); SocketOpen;
                    ClickStart; ClickStop; SendAudioTimer;
                    ClickStart; ClickStop; SendAudioTimer; MicrophoneSettled true;
                    ClickStart; MicrophoneSettled true; RecorderStopped 0;
                    ClickStop; SendAudioTimer; ClickStart]
                 (initialWorld true false))
              ltac:(vm_compute; discriminate) ltac:(vm_compute; reflexivity)
              (or_introl eq_refl))
    as (_ & _ & _ & F4 & F5 & _).
  split; [reflexivity|]. split; [exact H1|]. split; [exact H2|].
  split; [exact (H9 eq_refl)|].
  split; [cbv zeta; rewrite H7; reflexivity|].
  split; [split; [exact G1|exact (proj1 (G8 eq_refl))]|].
  split; [vm_compute; reflexivity|]. split; [exact F5|exact F4].
Defined.

Lemma requestedAfter_timers r l x :
  x ∈ map fst (requestedAfter r l) -> x ∈ map fst l.
Proof.
  unfold requestedAfter. rewrite map_app, map_map. cbn [fst].
  intros H. apply elem_of_app in H. destruct H as [H|H];
    apply list_elem_of_fmap in H; destruct H as (y & -> & Hy);
    apply list_elem_of_filter in Hy; destruct Hy as [_ Hy];
    apply list_elem_of_fmap; now exists y.
Qed.

Lemma oldestRequest_timers l timer rest :
  oldestRequest l = Some (timer, rest) ->
  timer ∈ map fst l /\ forall x, x ∈ map fst rest -> x ∈ map fst l.
Proof.
  revert timer rest. induction l as [|[t [r|]] l IH]; intros timer rest H;
    cbn [oldestRequest] in H; [discriminate| |].
  - destruct (oldestRequest l) as [[t' rest']|]; [|discriminate].
    injection H as <- <-. destruct (IH t' rest' eq_refl) as [H1 H2].
    cbn [map fst]. split; [now right|].
    intros x Hx. apply elem_of_cons in Hx. destruct Hx as [->|Hx]; [now left|].
    right. now apply H2.
  - injection H as <- <-. cbn [map fst]. split; [now left|].
    intros x Hx. now right.
Qed.

Lemma startClickAfterStop_armed t w : armed t w -> armed t (startClickAfterStop w).
Proof.
  intros (H1 & H2 & H3). unfold armed, startClickAfterStop, stopRecognition.
  destruct (Speech.stopRecognition false (speech w) (ui w)) as [s u]. fields.
  split; [|split].
  - apply elem_of_app. now left.
  - intros Hin. rewrite map_app in Hin. apply elem_of_app in Hin.
    destruct Hin as [Hin|Hin]; [now apply H2|].
    cbn [map fst] in Hin. apply list_elem_of_singleton in Hin. lia.
  - lia.
Qed.

Lemma repeatedly_armed t n w :
  armed t w -> armed t (repeatedly n startClickAfterStop w).
Proof.
  revert w. induction n as [|n IH]; intros w H; [exact H|].
  simpl. apply IH. now apply startClickAfterStop_armed.
Qed.

Lemma sendAudioResume_timers a w :
  recordingTimers (iv (sendAudioResume a w)) = recordingTimers (iv w) /\
  clickAwaitingStart (iv (sendAudioResume a w)) = clickAwaitingStart (iv w) /\
  nextTimer (iv (sendAudioResume a w)) = nextTimer (iv w).
Proof.
  unfold sendAudioResume, connectWebSocket.
  destruct (noSpeech _); fields; [repeat split|].
  destruct (isOpen _); fields; [repeat split|].
  destruct (Js.truthy _); repeat split.
Qed.

Lemma sendAudio_timers w :
  recordingTimers (iv (sendAudio w)) = recordingTimers (iv w) /\
  clickAwaitingStart (iv (sendAudio w)) = clickAwaitingStart (iv w) /\
  nextTimer (iv (sendAudio w)) = nextTimer (iv w).
Proof.
  unfold sendAudio. destruct (isProcessingResponse (iv w)); [repeat split|].
  cbv zeta. rewrite capture_onUi, capture_onIv.
  destruct (Audio.audioChunks (capture w)); [|fields; repeat split].
  destruct (sendAudioResume_timers (Audio.getRecordedAudioBase64 [] None)
              (onUi Ui.showLoading
                 (onIv (fun s => set_isRecording false (set_isProcessingResponse true s)) w)))
    as (E1 & E2 & E3).
  rewrite E1, E2, E3. fields. repeat split.
Qed.

Lemma stopClick_timers w :
  recordingTimers (iv (clickStopButton w)) = recordingTimers (iv w) /\
  clickAwaitingStart (iv (clickStopButton w)) = clickAwaitingStart (iv w) /\
  nextTimer (iv (clickStopButton w)) = nextTimer (iv w).
Proof.
  unfold clickStopButton, stopClick, stopRecognition.
  destruct (stopBtnDisabled (iv w)); [repeat split|].
  destruct (isRecording (iv w)); [|repeat split]. fields.
  destruct (Speech.stopRecognition _ _ _). fields. repeat split.
Qed.

Lemma step_armed t e w :
  e <> RecordingTimer t -> armed t w -> armed t (step e w).
Proof.
  intros Hne Ha. pose proof Ha as (H1 & H2 & H3).
  destruct e; cbn [step].
  - unfold startNewInterview, connectWebSocket, armed. fields.
    destruct (Js.truthy id); fields; auto.
  - unfold socketOpen, armed. destruct (websocket (iv w)) as [[]|]; fields; auto.
    destruct (awaitingOpen (iv w)); fields; auto.
  - unfold socketError, armed. destruct current; fields; auto.
  - unfold socketClose, armed.
    destruct current; destruct (Nat.eqb code 1000);
      destruct (websocket (iv w)) as [[]|]; fields; auto.
  - unfold armed, handleWebSocketMessage, catchMessageError, checkComplete,
      processingComplete;
      repeat match goal with
             | |- context [Audio.playAudio ?d ?a ?p ?u] =>
                 destruct (Audio.playAudio d a p u) as [[[] ?] ?]
             | |- context [if ?b then _ else _] => destruct b
             | |- context [match ?p with Malformed => _ | _ => _ end] => destruct p
             end; fields; auto.
  - unfold armed. fields. auto.
  - unfold armed. fields. auto.
  - unfold handleTextSubmission, armed.
    destruct (String.eqb _ ""); [auto|].
    destruct (isProcessingResponse (iv w)); [auto|]. cbv zeta.
    destruct (isOpen _); fields; auto.
  - unfold clickStartButton, startClick.
    destruct (startBtnDisabled (iv w)); [auto|].
    destruct (isRecording (iv w) || isProcessingResponse (iv w)); [auto|].
    destruct (Audio.stopRecording (capture w)) as [c [r|]].
    + unfold armed. fields. auto.
    + apply startClickAfterStop_armed. unfold armed. fields. auto.
  - destruct (stopClick_timers w) as (E1 & E2 & E3).
    unfold armed. rewrite E1, E2, E3. auto.
  - unfold recordingTimerFired.
    destruct (bool_decide _); [|auto].
    set (w1 := onIv _ w).
    assert (Ha1 : armed t w1).
    { unfold armed, w1. fields. split; [|auto].
      apply list_elem_of_filter. split; [congruence|exact H1]. }
    destruct (isRecording (iv w1)); [|exact Ha1].
    destruct (stopClick_timers w1) as (E1 & E2 & E3).
    unfold armed. rewrite E1, E2, E3. exact Ha1.
  - unfold sendAudioTimerFired.
    destruct (sendAudioTimers (iv w)) as [|n]; [auto|].
    destruct (sendAudio_timers (onIv (set_sendAudioTimers n) w)) as (E1 & E2 & E3).
    unfold armed. rewrite E1, E2, E3. fields. auto.
  - destruct (sendAudio_timers w) as (E1 & E2 & E3).
    unfold armed. rewrite E1, E2, E3. auto.
  - unfold audioEncoded.
    destruct (suspendedSendAudio (iv w)) as [|c rest]; [auto|].
    destruct (sendAudioResume_timers
                (Audio.getRecordedAudioBase64 c blobToBase64)
                (logEncodingFailure c blobToBase64
                   (onIv (set_suspendedSendAudio rest) w)))
      as (E1 & E2 & E3).
    unfold armed. rewrite E1, E2, E3, iv_logEncodingFailure. fields. auto.
  - unfold recorderStopped.
    destruct (Audio.recorders (capture w) !! r) as [[]|]; auto;
      apply repeatedly_armed; unfold armed; fields;
      (split; [exact H1|split; [|exact H3]]);
      intros Hin; apply H2; now apply (requestedAfter_timers r).
  - unfold armed. fields. auto.
  - unfold microphoneSettled.
    destruct (Audio.microphoneSettled granted (capture w) (ui w)) as [[[b|] c] u];
      [|auto].
    fields. destruct (oldestRequest (clickAwaitingStart (iv w)))
      as [[timer rest]|] eqn:Ec.
    + destruct (oldestRequest_timers _ _ _ Ec) as [Ht Hr].
      assert (Hrest : t ∉ map fst rest) by (intros Hin; apply H2; now apply Hr).
      assert (Htimer : t <> timer) by (intros ->; now apply H2).
      unfold startClickAfterStart. fields.
      destruct (Speech.startRecognition _ _) as [[rs s'] u']. fields.
      destruct (b && rs); unfold armed; fields; split; auto.
      apply list_elem_of_filter. split; [exact Htimer|exact H1].
    + unfold armed. fields. auto.
  - destruct (Speech.step e (speech w, ui w)). unfold armed. fields. auto.
  - destruct (Audio.playbackError (playback w) (ui w)). unfold armed. fields. auto.
  - destruct (Audio.playbackEnded (playback w) (ui w)). unfold armed. fields. auto.
Qed.

(** X25. The safety timer of a recording is never cleared once the
    recording has started.  Whatever happens next -- a manual stop, the
    turn sent and answered, new start clicks with timers of their own --
    the timer stays pending until it fires; and when it fires while the
    page is recording with the stop button enabled, it stops whatever
    recording is then under way: the stop button is disabled and one
    more [sendAudio] is scheduled. *)
Theorem safety_timer_outlives_its_recording (t : nat) (es : list Event) (w : World) :
  armed t w ->
  Forall (fun e => e <> RecordingTimer t) es ->
  let w' := run es w in
  armed t w' /\
  (isRecording (iv w') = true -> stopBtnDisabled (iv w') = false ->
   let w'' := step (RecordingTimer t) w' in
   stopBtnDisabled (iv w'') = true /\
   startBtnDisabled (iv w'') = false /\
   sendAudioTimers (iv w'') = S (sendAudioTimers (iv w')) /\
   Speech.isRecognizing (speech w'') = false /\
   (t ∉ recordingTimers (iv w''))).
Proof.
  intros Ha Hes. cbv zeta.
  assert (Hrun : armed t (run es w)).
  { revert w Ha. unfold run.
    induction Hes as [|e es He _ IH]; intros w Ha; [exact Ha|].
    simpl. apply IH. now apply step_armed. }
  split; [exact Hrun|]. intros Hr Hb.
  destruct Hrun as (H1 & H2 & H3). set (w' := run es w) in *.
  cbn [step]. unfold recordingTimerFired.
  rewrite (bool_decide_eq_true_2 _ H1). cbv zeta. fields. rewrite Hr.
  unfold clickStopButton, stopClick, stopRecognition. fields. rewrite Hb, Hr.
  unfold Speech.stopRecognition. fields.
  repeat split.
  intros Hin. apply list_elem_of_filter in Hin. destruct Hin as [Hin _].
  now apply Hin.
Qed.

Lemma safety_timer_outlives_its_recording_witness :
  let reply := Object {| role := Some "assistant"; content := Some "Next question.";
                         audio := None; interviewComplete := false |} in
  let w := run [StartNewInterview (Some "42"); SocketOpen; ClickStart;
                MicrophoneSettled true]
             (initialWorld true false) in
  let es := [Recognizer Speech.RecognitionStarted;
             Recognizer (Speech.RecognitionResult 0 [(true, "first answer")]);
             ClickStop; RecorderStopped 0; SendAudioTimer; SocketMessage reply true;
             ClickStart; MicrophoneSettled true;
             Recognizer Speech.RecognitionStarted] in
  recordingTimers (iv (run es w)) = [0; 1] /\
  isRecording (iv (run es w)) = true /\
  sendAudioTimers (iv (run es w)) = 0 /\
  sendAudioTimers (iv (step (RecordingTimer 0) (run es w))) = 1.
Proof.
  destruct (safety_timer_outlives_its_recording 0
              [Recognizer Speech.RecognitionStarted;
               Recognizer (Speech.RecognitionResult 0 [(true, "first answer")]);
               ClickStop; RecorderStopped 0; SendAudioTimer;
               SocketMessage (Object {| role := Some "assistant";
                                        content := Some "Next question.";
                                        audio := None; interviewComplete := false |}) true;
               ClickStart; MicrophoneSettled true;
               Recognizer Speech.RecognitionStarted]
              (run [StartNewInterview (Some "42"); SocketOpen; ClickStart;
                    MicrophoneSettled true]
                 (initialWorld true false))
              ltac:(split; [|split];
                    [vm_compute; apply list_elem_of_singleton; reflexivity
                    |vm_compute; apply not_elem_of_nil
                    |vm_compute; lia])
              ltac:(repeat constructor; discriminate)) as (_ & H).
  destruct (H ltac:(vm_compute; reflexivity) ltac:(vm_compute; reflexivity))
    as (_ & _ & H3 & _).
  split; [vm_compute; reflexivity|]. split; [vm_compute; reflexivity|].
  split; [vm_compute; reflexivity|].
  rewrite H3. vm_compute. reflexivity.
Defined.

(** X26. [startNewInterview] stores the id and makes one connection
    attempt, and hides the insights button only when that connection
    opens.  With an id, a new socket in state CONNECTING replaces the
    current one and the button is still as it was; it is hidden by the
    open event, and left as it was when the socket fails instead.
    Without an id the call reports the missing id and ends there: the
    socket of the previous interview stays in place. *)
Theorem new_interview_hides_insights_on_open (id : option string) (w : World) :
  let w1 := startNewInterview id w in
  interviewId (iv w1) = id /\
  connectCalls (iv w1) = S (connectCalls (iv w)) /\
  viewInsightsVisible (iv w1) = viewInsightsVisible (iv w) /\
  sent (iv w1) = sent (iv w) /\
  if Js.truthy id
  then websocket (iv w1) = Some CONNECTING /\
       Ui.errors (ui w1) = Ui.errors (ui w) /\
       viewInsightsVisible (iv (socketOpen w1)) = false /\
       isOpen (iv (socketOpen w1)) = true /\
       viewInsightsVisible (iv (socketOpen (socketError true w1))) =
         viewInsightsVisible (iv w)
  else websocket (iv w1) = websocket (iv w) /\
       Ui.errors (ui w1) = (Ui.errors (ui w) ++ ["No interview ID provided"])%list.
Proof.
  cbv zeta. unfold startNewInterview, connectWebSocket. fields.
  destruct (Js.truthy id) eqn:E; fields; rewrite ?E; fields.
  - unfold socketOpen, socketError, isOpen. fields. repeat split.
  - repeat split.
Qed.





(** X28. [closeConnection] acts on an open socket only and touches
    nothing but the socket.  Once the socket it closed has reported its
    normal closure (code 1000), nothing has been shown and no reconnect
    made, a turn in flight is still in flight, and a text submission
    reaches no server: it sends nothing, makes no connection attempt,
    and leaves the guard as [closeConnection] found it. *)
Theorem closed_connection_takes_no_text (reason : string) (w : World) :
  isOpen (iv w) = true ->
  let w1 := socketClose true 1000 reason (closeConnection w) in
  let w2 := handleTextSubmission w1 in
  websocket (iv (closeConnection w)) = Some CLOSING /\
  websocket (iv w1) = Some CLOSED /\
  Ui.errors (ui w1) = Ui.errors (ui w) /\
  isProcessingResponse (iv w1) = isProcessingResponse (iv w) /\
  Ui.loadingVisible (ui w1) = Ui.loadingVisible (ui w) /\
  interviewId (iv w1) = interviewId (iv w) /\
  sent (iv w2) = sent (iv w) /\
  connectCalls (iv w2) = connectCalls (iv w) /\
  websocket (iv w2) = Some CLOSED /\
  isProcessingResponse (iv w2) = isProcessingResponse (iv w).
Proof.
  intros Ho. cbv zeta. unfold closeConnection. rewrite Ho.
  unfold socketClose. fields. cbn [Nat.eqb].
  unfold handleTextSubmission, isOpen. fields.
  destruct (String.eqb _ ""); [repeat split|].
  destruct (isProcessingResponse (iv w)) eqn:E; fields; repeat split; exact E.
Qed.

Lemma closed_connection_takes_no_text_witness :
  let w := run [StartNewInterview (Some "42"); SocketOpen;
                TypeTextInput "first"; SubmitText; TypeTextInput "second"]
             (initialWorld true false) in
  let w1 := socketClose true 1000 "" (closeConnection w) in
  length (sent (iv w)) = 1 /\
  sent (iv (handleTextSubmission w1)) = sent (iv w) /\
  isProcessingResponse (iv (handleTextSubmission w1)) = true.
Proof.
  destruct (closed_connection_takes_no_text ""
              (run [StartNewInterview (Some "42"); SocketOpen;
                    TypeTextInput "first"; SubmitText; TypeTextInput "second"]
                 (initialWorld true false))
              eq_refl) as (_ & _ & _ & _ & _ & _ & H7 & _ & _ & H10).
  split; [reflexivity|]. split; [exact H7|]. cbv zeta. rewrite H10. reflexivity.
Defined.

End MoreInterview.
